(** * Query-history profiler: column extraction, attribution and scoring

    A shallow embedding of [QueryProfiler] from
    [DeltaTableOptimizer/v002/Step 1 - Build Query History Profile.py].

    - Python strings are [string]s, with [find], [rindex] and slicing written
      out; a Python exception is the message [str(e)] it carries.
    - The SQL parser ([sql_metadata.Parser]) is an external library: it is a
      variable of the development, with the two lazy properties the code
      reads ([columns_dict], [tables]), each of which may raise.
    - Spark tables are lists of rows, NULL is [None], and the catalog maps a
      database name to each table in it.  FLOAT and DOUBLE columns are
      idealised as rationals, kept in lowest terms by the aggregates.
    - Spark runs with ANSI mode off: a division by zero and an array index
      out of range are NULL.
    - The pattern of [split] is a Java regular expression.  A pattern
      without metacharacter is split on here; what the regular expressions
      proper give is, like the parser, a variable of the development. *)

From Stdlib Require Import QArith Lqa Ascii String.
From stdpp Require Import base option list strings gmap.

Local Open Scope string_scope.
Local Open Scope list_scope.

(** ** Exceptions *)

Inductive result (A : Type) : Type :=
| Ok (a : A)
| Raise (e : string).
Arguments Ok {A} a.
Arguments Raise {A} e.

Definition bind {A B} (m : result A) (f : A → result B) : result B :=
  match m with
  | Ok a => f a
  | Raise e => Raise e
  end.

Notation "x <- m ;; k" := (bind m (λ x, k))
  (at level 100, m at next level, right associativity).

(** [try: body except Exception as e: handler(e)] *)
Definition try_except {A} (body : result A) (handler : string → result A) : result A :=
  match body with
  | Ok a => Ok a
  | Raise e => handler e
  end.

(** ** Python string methods *)

Module Py.

(** [s[n:]] *)
Fixpoint slice_from (n : nat) (s : string) : string :=
  match n, s with
  | O, _ => s
  | S n', String _ s' => slice_from n' s'
  | S _, EmptyString => EmptyString
  end.

(** [s[:n]] *)
Fixpoint slice_to (n : nat) (s : string) : string :=
  match n, s with
  | O, _ => EmptyString
  | S n', String c s' => String c (slice_to n' s')
  | S _, EmptyString => EmptyString
  end.

Fixpoint find_from (s sub : string) (i : Z) : Z :=
  if String.prefix sub s then i
  else match s with
       | EmptyString => (-1)%Z
       | String _ s' => find_from s' sub (i + 1)%Z
       end.

(** [s.find(sub)]: the lowest index at which [sub] starts, [-1] if none. *)
Definition find (s sub : string) : Z := find_from s sub 0%Z.

Fixpoint rfind (s : string) (c : ascii) : option nat :=
  match s with
  | EmptyString => None
  | String d s' =>
      match rfind s' c with
      | Some i => Some (S i)
      | None => if Ascii.eqb d c then Some O else None
      end
  end.

(** [s.rindex(c)] for a one-character [c] (the source only passes ['.']):
    the highest index of [c], ValueError when there is none. *)
Definition rindex (s : string) (c : ascii) : result nat :=
  match rfind s c with
  | Some i => Ok i
  | None => Raise "substring not found"
  end.

(** [len(s)] *)
Definition len (s : string) : nat := String.length s.

End Py.

(** ** The parser interface *)

(** What the code reads of a [Parser(sqlString)] object.  Both properties are
    computed lazily by the library and cached, so each is one value that is
    either there or raises at its first access.  For [columns_dict] the
    exception is the one [results.columns_dict.get(...)] ends in: the
    parser's own, or the AttributeError when the library has no dictionary at
    all (a statement without columns, the case the inner handler of the
    extractor is written for). *)
Record ParserResults : Type := {
  columns_dict : result (gmap string (list string));
  tables : result (list string)
}.

(** ** The extractor and the usage checks *)

Section Extractor.

Variable Parser : string → result ParserResults.

(** Column part of a token: [st[st.rindex('.')+1:]], the token itself when
    [rindex] raises. *)
Definition column_val (st : string) : string :=
  match Py.rindex st "."%char with
  | Ok i => Py.slice_from (i + 1) st
  | Raise _ => st
  end.

(** Table part of a token: [st[:st.rindex('.')] or None], [None] when
    [rindex] raises. *)
Definition table_val (st : string) : option string :=
  match Py.rindex st "."%char with
  | Ok i => match Py.slice_to i st with
            | EmptyString => None
            | t => Some t
            end
  | Raise _ => None
  end.

(** Body of the inner loop: what one token [st] adds to [final_table_map]
    for one table [tbl]. *)
Definition attribute (tbl st : string) : list string :=
  if (0 <=? Py.find st tbl)%Z || bool_decide (table_val st = None) then
    if (1 <? Py.len (column_val st))%nat
    then [tbl +:+ ":" +:+ column_val st]
    else []
  else [].

(** The inner [try]: the three lists read into [final_columns]; when
    reading [columns_dict] raises, nothing has been appended yet and the
    handler appends ["tbl:"] for every table to [final_table_map].  The
    pair is ([final_columns], [final_table_map]) after the block. *)
Definition read_columns (results : ParserResults)
  : result (list (option (list string)) * list string) :=
  match columns_dict results with
  | Ok d => Ok ([d !! "where"; d !! "join"; d !! "group_by"], [])
  | Raise _ =>
      tbls <- tables results;;
      Ok ([], (λ tbl, tbl +:+ ":") <$> tbls)
  end.

(** [list(set(...))] has no defined order in Python; [remove_dups] keeps the
    first occurrence of each token, in order. *)
Definition getParsedFilteredColumnsinSQL (sqlString : string) : result (list string) :=
  try_except
    (results <- Parser sqlString;;
     cols <- read_columns results;;
     let '(final_columns, final_table_map) := cols in
     let final_columns_clean := omap id final_columns in
     let flatted_final_cols := remove_dups (concat final_columns_clean) in
     tbls <- tables results;;
     Ok (final_table_map
           ++ flat_map (λ tbl, flat_map (attribute tbl) flatted_final_cols) tbls))
    (λ e, Ok ["ERROR: " +:+ e]).

(** Shared body of the three usage checks: [1] when [columnName] is in the
    list the parser gives for [section], [0] otherwise and on any
    exception ([x in None] raises TypeError). *)
Definition checkIfColumn (section sqlString columnName : string) : Z :=
  match
    (results <- Parser sqlString;;
     d <- columns_dict results;;
     match d !! section return result Z with
     | Some cols => Ok (if bool_decide (columnName ∈ cols) then 1 else 0)%Z
     | None => Raise "argument of type 'NoneType' is not iterable"
     end)
  with
  | Ok v => v
  | Raise _ => 0%Z
  end.

Definition checkIfJoinColumn := checkIfColumn "join".
Definition checkIfFilterColumn := checkIfColumn "where".
Definition checkIfGroupColumn := checkIfColumn "group_by".

End Extractor.

(** ** Spark SQL functions and aggregates *)

#[global] Instance Q_eq_dec : EqDecision Q.
Proof. solve_decision. Defined.

Module Sql.

(** The pieces of [s] between the occurrences of the string [pat], found
    scanning left to right: [skip] counts the characters of [s] still
    covered by the last match, and the head of the result is the piece
    being read.  *)
Fixpoint split_go (pat : string) (s : string) (skip : nat) : list string :=
  match s with
  | EmptyString => [EmptyString]
  | String c s' =>
      match skip with
      | S k => split_go pat s' k
      | O =>
          if String.prefix pat s
          then EmptyString :: split_go pat s' (String.length pat - 1)
          else match split_go pat s' O with
               | piece :: pieces => String c piece :: pieces
               | [] => [String c EmptyString]
               end
      end
  end.

(** The characters that Java's regular expressions read as operators. *)
Definition metacharacters : list ascii :=
  ["\"; "^"; "$"; "."; "|"; "?"; "*"; "+"; "("; ")"; "["; "]"; "{"; "}"]%char.

Fixpoint plain (pat : string) : bool :=
  match pat with
  | EmptyString => true
  | String c pat' => negb (bool_decide (c ∈ metacharacters)) && plain pat'
  end.

(** A pattern that a regular expression reads as the string it is: it is
    not empty and has no metacharacter. *)
Definition literal (pat : string) : bool :=
  negb (bool_decide (pat = EmptyString)) && plain pat.

Section Split.

(** What Java's [String.split(regex, -1)] gives for the other patterns:
    the regular expressions proper and the empty pattern. *)
Variable regexp_split : string → string → list string.

(** [split(str, pattern)]: the pattern is a Java regular expression, and
    every piece is kept (limit [-1]). *)
Definition split (s pat : string) : list string :=
  if literal pat then split_go pat s O else regexp_split s pat.

End Split.

(** [size(array)] *)
Definition size {A} (l : list A) : Z := Z.of_nat (length l).

(** [concat(a, b, c)]: NULL as soon as one argument is NULL. *)
Definition concat3 (a b c : option string) : option string :=
  match a, b, c with
  | Some x, Some y, Some z => Some (x +:+ y +:+ z)
  | _, _, _ => None
  end.

(** [a - b] and [a / b] on nullable numbers; division by zero is NULL
    (Spark with ANSI mode off, its default). *)
Definition minus (a b : option Q) : option Q :=
  match a, b with
  | Some x, Some y => Some (x - y)%Q
  | _, _ => None
  end.

Definition divide (a b : option Q) : option Q :=
  match a, b with
  | Some x, Some y => if Qeq_bool y 0 then None else Some (x / y)%Q
  | _, _ => None
  end.

Definition times (a b : option Q) : option Q :=
  match a, b with
  | Some x, Some y => Some (Qred (x * y))
  | _, _ => None
  end.

Definition coalesce {A} (a : option A) (b : A) : A := default b a.

(** Aggregates skip NULLs and are NULL over no value at all. *)
Definition non_null {A} (l : list (option A)) : list A := omap id l.

Definition Qsum (l : list Q) : Q := foldr Qplus 0%Q l.

Definition SUM (l : list (option Q)) : option Q :=
  match non_null l with
  | [] => None
  | vs => Some (Qred (Qsum vs))
  end.

Definition AVG (l : list (option Q)) : option Q :=
  match non_null l with
  | [] => None
  | vs => Some (Qred (Qsum vs / inject_Z (Z.of_nat (length vs))))
  end.

Definition Qmin' (x y : Q) : Q := if Qle_bool x y then x else y.
Definition Qmax' (x y : Q) : Q := if Qle_bool x y then y else x.

Definition MIN (l : list (option Q)) : option Q :=
  match non_null l with
  | [] => None
  | v :: vs => Some (foldr Qmin' v vs)
  end.

Definition MAX (l : list (option Q)) : option Q :=
  match non_null l with
  | [] => None
  | v :: vs => Some (foldr Qmax' v vs)
  end.

Definition SUMZ (l : list (option Z)) : option Z :=
  match non_null l with
  | [] => None
  | vs => Some (foldr Z.add 0%Z vs)
  end.

Definition MAXZ (l : list (option Z)) : option Z :=
  match non_null l with
  | [] => None
  | v :: vs => Some (foldr Z.max v vs)
  end.

Definition AVGZ (l : list (option Z)) : option Q :=
  AVG (List.map (option_map inject_Z) l).

Definition COUNT_star {A} (l : list A) : Z := Z.of_nat (length l).

Definition COUNT_DISTINCT `{EqDecision A} (l : list (option A)) : Z :=
  Z.of_nat (length (remove_dups (non_null l))).

(** [SELECT DISTINCT] *)
Definition DISTINCT `{EqDecision A} (l : list A) : list A := remove_dups l.

(** [GROUP BY key]: one output row per distinct key, computed from the
    rows that have it. *)
Definition GROUP_BY {A K B} `{EqDecision K}
    (key : A → K) (agg : K → list A → B) (rows : list A) : list B :=
  (λ k, agg k (List.filter (λ r, bool_decide (key r = k)) rows))
    <$> remove_dups (key <$> rows).

End Sql.

(** ** Tables *)

(** [query_history_log] *)
Module Log.
Record t : Type := {
  WarehouseIds : list string;
  WorkspaceName : string;
  StartTimestamp : Z;
  EndTimestamp : Z
}.
End Log.

(** [raw_query_history_statistics], and the records of the temporary view
    [raw] it is filled from.  The generated [Id] and the [metrics] map, which
    the statements copy and never read, are left out.  A number that a record
    does not have is NULL. *)
Module Raw.
Record t : Type := {
  query_id : string;
  query_start_time_ms : option Q;
  query_end_time_ms : option Q;
  duration : option Q;
  query_text : string;
  status : string;
  statement_type : string;
  rows_produced : option Q
}.
End Raw.

(** [query_summary_statistics] *)
Module Stats.
Record t : Type := {
  query_id : string;
  AverageQueryDuration : option Q;
  AverageRowsProduced : option Q;
  TotalQueryRuns : Z;
  DurationTimesRuns : option Q
}.
#[global] Instance eq_dec : EqDecision t.
Proof. solve_decision. Defined.
End Stats.

(** [parsed_distinct_queries] (without the generated [Id]), and the rows of
    the temporary view [new_parsed]. *)
Module Parsed.
Record t : Type := {
  query_id : string;
  query_text : string;
  profiled_columns : list string
}.
End Parsed.

(** [query_column_statistics].  The columns [query_id] to
    [DurationTimesRuns] are [hist.*]: they come from the statistics side of
    the left join and are NULL where it has no match. *)
Module Usage.
Record t : Type := {
  TableName : option string;
  ColumnName : option string;
  query_text : string;
  query_id : option string;
  AverageQueryDuration : option Q;
  AverageRowsProduced : option Q;
  TotalQueryRuns : option Z;
  DurationTimesRuns : option Q;
  NumberOfColumnOccurrences : option Z;
  isUsedInJoin : Z;
  isUsedInFilter : Z;
  isUsedInGroup : Z
}.
End Usage.

(** [read_statistics_column_level_summary] *)
Module Summary.
Record t : Type := {
  TableName : option string;
  ColumnName : option string;
  isUsedInJoin : option Z;
  isUsedInFilter : option Z;
  isUsedInGroup : option Z;
  NumberOfQueriesUsedInJoin : option Z;
  NumberOfQueriesUsedInFilter : option Z;
  NumberOfQueriesUsedInGroup : option Z;
  QueryReferenceCount : Z;
  RawTotalRuntime : option Q;
  AvgQueryDuration : option Q;
  TotalColumnOccurrencesForAllQueries : option Z;
  AvgColumnOccurrencesInQueryies : option Q
}.
End Summary.

(** [read_statistics_scaled_results]: the columns of the summary row and the
    five scaled ones. *)
Module Scaled.
Record t : Type := {
  row : Summary.t;
  QueryReferenceCountScaled : Q;
  RawTotalRuntimeScaled : Q;
  AvgQueryDurationScaled : Q;
  TotalColumnOccurrencesForAllQueriesScaled : Q;
  AvgColumnOccurrencesInQueriesScaled : Q
}.
End Scaled.

(** [columns_to_scale] *)
Inductive columns_to_scale : Type :=
| QueryReferenceCount
| RawTotalRuntime
| AvgQueryDuration
| TotalColumnOccurrencesForAllQueries
| AvgColumnOccurrencesInQueryies.

(** [F.col(c)] on a summary row; integer columns are cast by the division. *)
Definition col (c : columns_to_scale) (r : Summary.t) : option Q :=
  match c with
  | QueryReferenceCount => Some (inject_Z (Summary.QueryReferenceCount r))
  | RawTotalRuntime => Summary.RawTotalRuntime r
  | AvgQueryDuration => Summary.AvgQueryDuration r
  | TotalColumnOccurrencesForAllQueries =>
      option_map inject_Z (Summary.TotalColumnOccurrencesForAllQueries r)
  | AvgColumnOccurrencesInQueryies => Summary.AvgColumnOccurrencesInQueryies r
  end.

(** A row of [df_boundaries]: for a table, [min(c)] and [max(c)] of each
    column to scale. *)
Record Boundaries : Type := {
  boundaries_TableName : option string;
  min_of : columns_to_scale → option Q;
  max_of : columns_to_scale → option Q
}.

(** ** The statements of [build_query_history_profile] *)

(** [a JOIN b ON key] (inner): NULL keys match nothing. *)
Definition JOIN {A B K} `{EqDecision K}
    (key_a : A → option K) (key_b : B → option K)
    (l : list A) (r : list B) : list (A * B) :=
  flat_map (λ a,
    List.map (λ b, (a, b))
      (List.filter (λ b, match key_a a, key_b b with
                         | Some x, Some y => bool_decide (x = y)
                         | _, _ => false
                         end) r)) l.

(** [root LEFT JOIN hist USING (query_id)]: every row of [root] is kept, once
    per matching row of [hist], and once with a NULL [hist] when nothing
    matches. *)
Definition LEFT_JOIN {A} (key : A → string) (root : list A) (hist : list Stats.t)
    : list (A * option Stats.t) :=
  flat_map (λ a,
    match List.filter (λ h, bool_decide (Stats.query_id h = key a)) hist with
    | [] => [(a, None)]
    | hs => List.map (λ h, (a, Some h)) hs
    end) root.

(** The [SELECT] that [INSERT INTO raw_query_history_statistics] appends. *)
Definition select_statements (raw : list Raw.t) : list Raw.t :=
  List.filter (λ r, bool_decide (Raw.statement_type r = "SELECT")) raw.

(** The query behind [CREATE OR REPLACE TABLE query_summary_statistics]. *)
Definition raw_query_stats (raw : list Raw.t) : list Stats.t :=
  Sql.GROUP_BY Raw.query_id
    (λ query_id g,
       let avg_duration := Sql.AVG (Raw.duration <$> g) in
       let runs := Sql.COUNT_star g in
       {| Stats.query_id := query_id;
          Stats.AverageQueryDuration := avg_duration;
          Stats.AverageRowsProduced := Sql.AVG (Raw.rows_produced <$> g);
          Stats.TotalQueryRuns := runs;
          Stats.DurationTimesRuns := Sql.times avg_duration (Some (inject_Z runs)) |})
    (List.filter
       (λ r, bool_decide (Raw.status r ∈ ["FINISHED"; "CANCELED"])
             && bool_decide (Raw.statement_type r = "SELECT"))
       raw).

(** [MERGE INTO parsed_distinct_queries AS target USING new_parsed AS source
    ON source.query_id = target.query_id] *)

(** The source rows that match the target row [t] *)
Definition source_matches (source : list Parsed.t) (t : Parsed.t) : list Parsed.t :=
  List.filter (λ s, bool_decide (Parsed.query_id s = Parsed.query_id t)) source.

(** [WHEN MATCHED THEN UPDATE SET target.query_text = source.query_text]:
    no other column of the target row is assigned. *)
Definition when_matched (source : list Parsed.t) (t : Parsed.t) : Parsed.t :=
  match source_matches source t with
  | s :: _ =>
      {| Parsed.query_id := Parsed.query_id t;
         Parsed.query_text := Parsed.query_text s;
         Parsed.profiled_columns := Parsed.profiled_columns t |}
  | [] => t
  end.

(** [WHEN NOT MATCHED THEN INSERT (query_id, query_text, profiled_columns)] *)
Definition when_not_matched (target source : list Parsed.t) : list Parsed.t :=
  List.filter
    (λ s, negb (existsb (λ t, bool_decide (Parsed.query_id s = Parsed.query_id t))
                  target))
    source.

(** Delta refuses the merge when several source rows match one target
    row. *)
Definition MERGE (target source : list Parsed.t) : result (list Parsed.t) :=
  if existsb (λ t, (1 <? length (source_matches source t))%nat) target
  then Raise "DELTA_MULTIPLE_SOURCE_ROW_MATCHING_TARGET_ROW_IN_MERGE"
  else Ok (List.map (when_matched source) target ++ when_not_matched target source).

(** [length(ColumnName) >= 1], false on NULL. *)
Definition has_column (r : Usage.t) : bool :=
  match Usage.ColumnName r with
  | Some c => (1 <=? String.length c)%nat
  | None => false
  end.

(** The query behind [read_statistics_column_level_summary]. *)
Definition column_level_summary (usage : list Usage.t) : list Summary.t :=
  let test_q := List.filter has_column usage in
  Sql.GROUP_BY (λ r, (Usage.TableName r, Usage.ColumnName r))
    (λ k g,
       {| Summary.TableName := k.1;
          Summary.ColumnName := k.2;
          Summary.isUsedInJoin := Sql.MAXZ (Some ∘ Usage.isUsedInJoin <$> g);
          Summary.isUsedInFilter := Sql.MAXZ (Some ∘ Usage.isUsedInFilter <$> g);
          Summary.isUsedInGroup := Sql.MAXZ (Some ∘ Usage.isUsedInGroup <$> g);
          Summary.NumberOfQueriesUsedInJoin := Sql.SUMZ (Some ∘ Usage.isUsedInJoin <$> g);
          Summary.NumberOfQueriesUsedInFilter := Sql.SUMZ (Some ∘ Usage.isUsedInFilter
              <$> g);
          Summary.NumberOfQueriesUsedInGroup := Sql.SUMZ (Some ∘ Usage.isUsedInGroup <$> g);
          Summary.QueryReferenceCount := Sql.COUNT_DISTINCT (Usage.query_id <$> g);
          Summary.RawTotalRuntime := Sql.SUM (Usage.DurationTimesRuns <$> g);
          Summary.AvgQueryDuration := Sql.AVG (Usage.AverageQueryDuration <$> g);
          Summary.TotalColumnOccurrencesForAllQueries :=
            Sql.SUMZ (Usage.NumberOfColumnOccurrences <$> g);
          Summary.AvgColumnOccurrencesInQueryies :=
            Sql.AVGZ (Usage.NumberOfColumnOccurrences <$> g) |})
    (List.filter has_column test_q).

(** [dfmin.join(dfmax, on="TableName", how="inner")] *)
Definition df_boundaries (df : list Summary.t) : list Boundaries :=
  let dfmin :=
    Sql.GROUP_BY Summary.TableName
      (λ k g, (k, λ c, Sql.MIN (col c <$> g))) df in
  let dfmax :=
    Sql.GROUP_BY Summary.TableName
      (λ k g, (k, λ c, Sql.MAX (col c <$> g))) df in
  List.map (λ p, {| boundaries_TableName := p.1.1; min_of := p.1.2; max_of := p.2.2 |})
    (JOIN fst fst dfmin dfmax).

(** [coalesce((col(c) - min(c)) / (max(c) - min(c)), lit(0))] *)
Definition scaled (c : columns_to_scale) (r : Summary.t) (b : Boundaries) : Q :=
  Sql.coalesce
    (Sql.divide (Sql.minus (col c r) (min_of b c))
                (Sql.minus (max_of b c) (min_of b c)))
    0%Q.

(** [df_scaled], the query behind [read_statistics_scaled_results]. *)
Definition df_scaled (df : list Summary.t) : list Scaled.t :=
  let df_pre_scaled := JOIN Summary.TableName boundaries_TableName df (df_boundaries df) in
  List.map (λ p,
    {| Scaled.row := p.1;
       Scaled.QueryReferenceCountScaled := scaled QueryReferenceCount p.1 p.2;
       Scaled.RawTotalRuntimeScaled := scaled RawTotalRuntime p.1 p.2;
       Scaled.AvgQueryDurationScaled := scaled AvgQueryDuration p.1 p.2;
       Scaled.TotalColumnOccurrencesForAllQueriesScaled :=
         scaled TotalColumnOccurrencesForAllQueries p.1 p.2;
       Scaled.AvgColumnOccurrencesInQueriesScaled :=
         scaled AvgColumnOccurrencesInQueryies p.1 p.2 |})
    df_pre_scaled.

(** ** The catalog *)

(** The tables of every database, by database name; a table that does not
    exist has no entry. *)
Record Catalog : Type := {
  query_history_log : gmap string (list Log.t);
  raw_query_history_statistics : gmap string (list Raw.t);
  query_summary_statistics : gmap string (list Stats.t);
  parsed_distinct_queries : gmap string (list Parsed.t);
  query_column_statistics : gmap string (list Usage.t);
  read_statistics_column_level_summary : gmap string (list Summary.t);
  read_statistics_scaled_results : gmap string (list Scaled.t)
}.

(** A statement writes one table and leaves the others as they are. *)
Definition set_query_history_log (v : gmap string (list Log.t)) (s : Catalog) : Catalog :=
  {| query_history_log := v;
     raw_query_history_statistics := raw_query_history_statistics s;
     query_summary_statistics := query_summary_statistics s;
     parsed_distinct_queries := parsed_distinct_queries s;
     query_column_statistics := query_column_statistics s;
     read_statistics_column_level_summary := read_statistics_column_level_summary s;
     read_statistics_scaled_results := read_statistics_scaled_results s |}.

Definition set_raw_query_history_statistics (v : gmap string (list Raw.t)) (s : Catalog)
  : Catalog :=
  {| query_history_log := query_history_log s;
     raw_query_history_statistics := v;
     query_summary_statistics := query_summary_statistics s;
     parsed_distinct_queries := parsed_distinct_queries s;
     query_column_statistics := query_column_statistics s;
     read_statistics_column_level_summary := read_statistics_column_level_summary s;
     read_statistics_scaled_results := read_statistics_scaled_results s |}.

Definition set_query_summary_statistics (v : gmap string (list Stats.t)) (s : Catalog)
  : Catalog :=
  {| query_history_log := query_history_log s;
     raw_query_history_statistics := raw_query_history_statistics s;
     query_summary_statistics := v;
     parsed_distinct_queries := parsed_distinct_queries s;
     query_column_statistics := query_column_statistics s;
     read_statistics_column_level_summary := read_statistics_column_level_summary s;
     read_statistics_scaled_results := read_statistics_scaled_results s |}.

Definition set_parsed_distinct_queries (v : gmap string (list Parsed.t)) (s : Catalog)
  : Catalog :=
  {| query_history_log := query_history_log s;
     raw_query_history_statistics := raw_query_history_statistics s;
     query_summary_statistics := query_summary_statistics s;
     parsed_distinct_queries := v;
     query_column_statistics := query_column_statistics s;
     read_statistics_column_level_summary := read_statistics_column_level_summary s;
     read_statistics_scaled_results := read_statistics_scaled_results s |}.

Definition set_query_column_statistics (v : gmap string (list Usage.t)) (s : Catalog)
  : Catalog :=
  {| query_history_log := query_history_log s;
     raw_query_history_statistics := raw_query_history_statistics s;
     query_summary_statistics := query_summary_statistics s;
     parsed_distinct_queries := parsed_distinct_queries s;
     query_column_statistics := v;
     read_statistics_column_level_summary := read_statistics_column_level_summary s;
     read_statistics_scaled_results := read_statistics_scaled_results s |}.

Definition set_read_statistics_column_level_summary (v : gmap string (list Summary.t))
    (s : Catalog) : Catalog :=
  {| query_history_log := query_history_log s;
     raw_query_history_statistics := raw_query_history_statistics s;
     query_summary_statistics := query_summary_statistics s;
     parsed_distinct_queries := parsed_distinct_queries s;
     query_column_statistics := query_column_statistics s;
     read_statistics_column_level_summary := v;
     read_statistics_scaled_results := read_statistics_scaled_results s |}.

Definition set_read_statistics_scaled_results (v : gmap string (list Scaled.t))
    (s : Catalog) : Catalog :=
  {| query_history_log := query_history_log s;
     raw_query_history_statistics := raw_query_history_statistics s;
     query_summary_statistics := query_summary_statistics s;
     parsed_distinct_queries := parsed_distinct_queries s;
     query_column_statistics := query_column_statistics s;
     read_statistics_column_level_summary := read_statistics_column_level_summary s;
     read_statistics_scaled_results := v |}.

(** Reading [db.table] *)
Definition table {A} (tbl : gmap string (list A)) (db : string) : result (list A) :=
  match tbl !! db with
  | Some rows => Ok rows
  | None => Raise "TABLE_OR_VIEW_NOT_FOUND"
  end.

Fixpoint traverse {A B} (f : A → result B) (l : list A) : result (list B) :=
  match l with
  | [] => Ok []
  | a :: l' =>
      b <- f a;;
      bs <- traverse f l';;
      Ok (b :: bs)
  end.

(** [spark.createDataFrame(all_responses)], registered as [raw]: the
    schema is inferred from the records.  An empty list has no schema, and a
    column that has a value in no record has no type: both raise. *)
Definition createDataFrame (all_responses : list Raw.t) : result (list Raw.t) :=
  match all_responses with
  | [] => Raise "CANNOT_INFER_EMPTY_SCHEMA"
  | _ =>
      if existsb (λ r, bool_decide (is_Some (Raw.query_start_time_ms r))) all_responses
         && existsb (λ r, bool_decide (is_Some (Raw.query_end_time_ms r))) all_responses
         && existsb (λ r, bool_decide (is_Some (Raw.duration r))) all_responses
         && existsb (λ r, bool_decide (is_Some (Raw.rows_produced r))) all_responses
      then Ok all_responses
      else Raise "CANNOT_DETERMINE_TYPE"
  end.

Section Profiler.

Variable Parser : string → result ParserResults.

(** The regular expressions of [split], see [Sql.split]. *)
Variable regexp_split : string → string → list string.

(** The fields of [self] *)
Variable workspace_url : string.
Variable warehouse_ids_list : list string.
Variable database_name : string.

(** [df_profiled], registered as [new_parsed] *)
Definition new_parsed (raw : list Raw.t) : result (list Parsed.t) :=
  traverse
    (λ r : string * string,
       profiled_columns <- getParsedFilteredColumnsinSQL Parser r.2;;
       Ok {| Parsed.query_id := r.1;
             Parsed.query_text := r.2;
             Parsed.profiled_columns := profiled_columns |})
    (Sql.DISTINCT (List.map (λ r, (Raw.query_id r, Raw.query_text r)) raw)).

(** Rows are ([explodedCols], [query_id], [query_text]). *)
Definition exploded_parsed_cols (parsed : list Parsed.t)
  : list (string * string * string) :=
  Sql.DISTINCT
    (flat_map (λ p,
       List.map (λ c, (c, Parsed.query_id p, Parsed.query_text p))
         (Parsed.profiled_columns p)) parsed).

(** Rows are ([TableName], [ColumnName], [query_text], [hist.*]). *)
Definition step_2 (parsed : list Parsed.t) (hist : list Stats.t)
  : list (option string * option string * string * option Stats.t) :=
  Sql.DISTINCT
    (List.map (λ j : string * string * string * option Stats.t,
       let explodedCols := j.1.1.1 in
       (Sql.split regexp_split explodedCols ":" !! 0%nat,
        Sql.split regexp_split explodedCols ":" !! 1%nat,
        j.1.2,
        j.2))
       (LEFT_JOIN (λ r : string * string * string, r.1.2)
          (exploded_parsed_cols parsed) hist)).

(** A usage check applied to a nullable column: on NULL the Python body
    tests [None in ...] and answers [0] on every path. *)
Definition udf (check : string → string → Z) (sqlString : string)
    (columnName : option string) : Z :=
  match columnName with
  | Some c => check sqlString c
  | None => 0%Z
  end.

(** [pre_stats_df], registered as [withUseFlags] *)
Definition pre_stats_df (parsed : list Parsed.t) (hist : list Stats.t) : list Usage.t :=
  List.map (λ r : option string * option string * string * option Stats.t,
    let TableName := r.1.1.1 in
    let ColumnName := r.1.1.2 in
    let query_text := r.1.2 in
    let hist := r.2 in
    let qualified := Sql.concat3 TableName (Some ".") ColumnName in
    {| Usage.TableName := TableName;
       Usage.ColumnName := ColumnName;
       Usage.query_text := query_text;
       Usage.query_id := option_map Stats.query_id hist;
       Usage.AverageQueryDuration := hist ≫= Stats.AverageQueryDuration;
       Usage.AverageRowsProduced := hist ≫= Stats.AverageRowsProduced;
       Usage.TotalQueryRuns := option_map Stats.TotalQueryRuns hist;
       Usage.DurationTimesRuns := hist ≫= Stats.DurationTimesRuns;
       Usage.NumberOfColumnOccurrences :=
         option_map (λ c, Sql.size (Sql.split regexp_split query_text c) - 1)%Z
           ColumnName;
       Usage.isUsedInJoin := udf (checkIfJoinColumn Parser) query_text qualified;
       Usage.isUsedInFilter := udf (checkIfFilterColumn Parser) query_text qualified;
       Usage.isUsedInGroup := udf (checkIfGroupColumn Parser) query_text qualified |})
    (step_2 parsed hist).

(** *** The statements, in the order the [try] block runs them *)

(** [INSERT INTO {database_name}.raw_query_history_statistics ... FROM raw
    WHERE statement_type = 'SELECT'] *)
Definition insert_raw (raw : list Raw.t) (s : Catalog) : result Catalog :=
  rows <- table (raw_query_history_statistics s) database_name;;
  Ok (set_raw_query_history_statistics
        (<[database_name := rows ++ select_statements raw]>
           (raw_query_history_statistics s)) s).

Definition insert_query_history_delta_log (start_ts_ms end_ts_ms : Z) (s : Catalog)
  : result Catalog :=
  rows <- table (query_history_log s) database_name;;
  Ok (set_query_history_log
        (<[database_name :=
             rows ++ [{| Log.WarehouseIds := warehouse_ids_list;
                         Log.WorkspaceName := workspace_url;
                         Log.StartTimestamp := start_ts_ms;
                         Log.EndTimestamp := end_ts_ms |}]]>
           (query_history_log s)) s).

(** [CREATE OR REPLACE TABLE delta_optimizer.query_summary_statistics AS ...
    FROM delta_optimizer.raw_query_history_statistics]: the statement is not
    an f-string, both names are the literal database. *)
Definition replace_query_summary_statistics (s : Catalog) : result Catalog :=
  raw <- table (raw_query_history_statistics s) "delta_optimizer";;
  Ok (set_query_summary_statistics
        (<["delta_optimizer" := raw_query_stats raw]> (query_summary_statistics s)) s).

(** [MERGE INTO {database_name}.parsed_distinct_queries USING new_parsed] *)
Definition merge_parsed_distinct_queries (s : Catalog) : result Catalog :=
  raw <- table (raw_query_history_statistics s) database_name;;
  source <- new_parsed raw;;
  target <- table (parsed_distinct_queries s) database_name;;
  merged <- MERGE target source;;
  Ok (set_parsed_distinct_queries
        (<[database_name := merged]> (parsed_distinct_queries s)) s).

(** [CREATE OR REPLACE TABLE {database_name}.query_column_statistics AS
    SELECT * FROM withUseFlags] *)
Definition replace_query_column_statistics (s : Catalog) : result Catalog :=
  parsed <- table (parsed_distinct_queries s) database_name;;
  hist <- table (query_summary_statistics s) database_name;;
  Ok (set_query_column_statistics
        (<[database_name := pre_stats_df parsed hist]> (query_column_statistics s)) s).

(** [CREATE OR REPLACE TABLE {database_name}.read_statistics_column_level_summary] *)
Definition replace_column_level_summary (s : Catalog) : result Catalog :=
  usage <- table (query_column_statistics s) database_name;;
  Ok (set_read_statistics_column_level_summary
        (<[database_name := column_level_summary usage]>
           (read_statistics_column_level_summary s)) s).

(** [CREATE OR REPLACE TABLE {database_name}.read_statistics_scaled_results
    AS SELECT * FROM final_scaled_reads] *)
Definition replace_scaled_results (s : Catalog) : result Catalog :=
  df <- table (read_statistics_column_level_summary s) database_name;;
  Ok (set_read_statistics_scaled_results
        (<[database_name := df_scaled df]> (read_statistics_scaled_results s)) s).

(** Statements run one after the other on the catalog.  Each is atomic: it
    either completes or raises and leaves the catalog as it found it.
    Besides the failures of the statement itself, [interrupted k] is the
    message the [k]-th statement raises with when the job is cancelled or
    the cluster fails under it. *)
Fixpoint run (interrupted : nat → option string) (k : nat)
    (statements : list (Catalog → result Catalog)) (s : Catalog)
  : Catalog * result unit :=
  match statements with
  | [] => (s, Ok ())
  | statement :: rest =>
      match interrupted k with
      | Some e => (s, Raise e)
      | None =>
          match statement s with
          | Ok s' => run interrupted (S k) rest s'
          | Raise e => (s, Raise e)
          end
      end
  end.

(** [build_query_history_profile] from the records fetched
    ([all_responses]) and the time range on: the data frame of the records,
    which raises before any statement has run, and the [try] block, whose
    handler re-raises. *)
Definition build_query_history_profile (interrupted : nat → option string)
    (all_responses : list Raw.t) (start_ts_ms end_ts_ms : Z) (s : Catalog)
  : Catalog * result unit :=
  match createDataFrame all_responses with
  | Raise e => (s, Raise e)
  | Ok raw =>
      run interrupted 0
        [ insert_raw raw;
          insert_query_history_delta_log start_ts_ms end_ts_ms;
          replace_query_summary_statistics;
          merge_parsed_distinct_queries;
          replace_query_column_statistics;
          replace_column_level_summary;
          replace_scaled_results ]
        s
  end.

End Profiler.

(** ** [__init__] and [truncate_delta_optimizer_results] *)

(** [CREATE TABLE IF NOT EXISTS db.table (...) USING DELTA]: an empty table,
    unless the database has the table already. *)
Definition create_table_if_not_exists {A} (db : string) (tbl : gmap string (list A))
  : gmap string (list A) :=
  match tbl !! db with
  | Some _ => tbl
  | None => <[db := []]> tbl
  end.

(** The statements of [__init__], in their order: the log, the raw table and
    the parsed queries of [database_name].  (The fields it sets on [self] are
    the variables of the section [Profiler].) *)
Definition __init__ (database_name : string) (s : Catalog) : Catalog :=
  let s1 :=
    set_query_history_log
      (create_table_if_not_exists database_name (query_history_log s)) s in
  let s2 :=
    set_raw_query_history_statistics
      (create_table_if_not_exists database_name (raw_query_history_statistics s1)) s1 in
  set_parsed_distinct_queries
    (create_table_if_not_exists database_name (parsed_distinct_queries s2)) s2.

(** [TRUNCATE TABLE db.table], for a table that [SHOW TABLES IN db] lists *)
Definition truncate_table {A} (db : string) (tbl : gmap string (list A))
  : gmap string (list A) :=
  alter (λ _, []) db tbl.

(** Every table of [database_name] is truncated. *)
Definition truncate_delta_optimizer_results (database_name : string) (s : Catalog)
  : Catalog :=
  {| query_history_log := truncate_table database_name (query_history_log s);
     raw_query_history_statistics :=
       truncate_table database_name (raw_query_history_statistics s);
     query_summary_statistics :=
       truncate_table database_name (query_summary_statistics s);
     parsed_distinct_queries := truncate_table database_name (parsed_distinct_queries s);
     query_column_statistics := truncate_table database_name (query_column_statistics s);
     read_statistics_column_level_summary :=
       truncate_table database_name (read_statistics_column_level_summary s);
     read_statistics_scaled_results :=
       truncate_table database_name (read_statistics_scaled_results s) |}.

(** ** The time range of a run *)

Section TimeRange.

(** Python's [datetime] and what the code does with it are the library's:
    [to_datetime] is the value that [collect()] gives for a timestamp of the
    log, [minus_days d n] is [d - timedelta(days = n)], and [ms_timestamp]
    stands for the static method of that name, whose body goes through the
    floating-point [timestamp()]. *)
Variable datetime : Type.
Variable to_datetime : Z → datetime.
Variable minus_days : datetime → Z → datetime.
Variable ms_timestamp : datetime → Z.

Variable database_name : string.

(** [now] is the reading of [datetime.now()]. *)
Definition get_time_series_lookback (now : datetime) (lookback_period : Z) : Z * Z :=
  let end_timestamp := now in
  let start_timestamp := minus_days end_timestamp lookback_period in
  (ms_timestamp start_timestamp, ms_timestamp end_timestamp).

(** [now] is the clock when the method reads it, [later] when
    [get_time_series_lookback] reads it again. *)
Definition get_most_recent_history_from_log (s : Catalog) (mode : string)
    (lookback_period : Z) (now later : datetime) : result (Z * Z) :=
  rows <- table (query_history_log s) database_name;;
  let start_timestamp := Sql.MAXZ (List.map (λ r, Some (Log.EndTimestamp r)) rows) in
  let end_timestamp := now in
  match start_timestamp with
  | Some start =>
      if bool_decide (mode = "auto")
      then Ok (ms_timestamp (to_datetime start), ms_timestamp end_timestamp)
      else Ok (get_time_series_lookback later lookback_period)
  | None => Ok (get_time_series_lookback later lookback_period)
  end.

End TimeRange.

(** ** Paging through the query history *)

(** What the code reads of a JSON response: the values under ["res"],
    ["next_page_token"] and ["has_next_page"], [None] for a missing key.
    [has_next_page] is [Some b] for the JSON boolean [b]; any other value is
    neither [True] nor [False] for the [is] tests and is [None] too. *)
Record Response : Type := {
  res : option (list Raw.t);
  next_page_token : option string;
  has_next_page : option bool
}.

Section Paging.

(** [requests.get(uri, ...).json()]: the response to the [k]-th request of
    the run, sent with the page token [token] ([None] for the first request,
    which carries the filter), or the exception it raises. *)
Variable requests_get : nat → option string → result Response.

(** The [while has_next_page is True] loop from its [k]-th request on.  The
    model stops with [None] when [fuel] requests did not end the loop. *)
Fixpoint page_through (fuel k : nat) (next_page : option string)
    (has_next : option bool) (page_responses : list (option (list Raw.t)))
  : option (result (list (option (list Raw.t)))) :=
  match has_next with
  | Some true =>
      match fuel with
      | O => None
      | S fuel' =>
          match requests_get k next_page with
          | Raise e => Some (Raise e)
          | Ok current_page_resp =>
              let page_responses := page_responses ++ [res current_page_resp] in
              match has_next_page current_page_resp with
              | Some false => Some (Ok page_responses)
              | has_next =>
                  page_through fuel' (S k) (next_page_token current_page_resp)
                    has_next page_responses
              end
          end
      end
  | _ => Some (Ok page_responses)
  end.

(** [[x for xs in page_responses for x in xs]]: iterating a page that is
    [None] raises TypeError. *)
Fixpoint coalesce_pages (page_responses : list (option (list Raw.t)))
  : result (list Raw.t) :=
  match page_responses with
  | [] => Ok []
  | None :: _ => Raise "'NoneType' object is not iterable"
  | Some xs :: rest =>
      match coalesce_pages rest with
      | Ok x => Ok (xs ++ x)
      | Raise e => Raise e
      end
  end.

(** [all_responses], from the first request to the coalesced pages *)
Definition all_responses (fuel : nat) : option (result (list Raw.t)) :=
  match requests_get 0 None with
  | Raise e => Some (Raise e)
  | Ok endp_resp =>
      let initial_resp := default [] (res endp_resp) in
      match
        page_through fuel 1 (next_page_token endp_resp) (has_next_page endp_resp) []
      with
      | None => None
      | Some (Raise e) => Some (Raise e)
      | Some (Ok page_responses) =>
          Some (pages <- coalesce_pages page_responses;; Ok (pages ++ initial_resp))
      end
  end.

End Paging.


(** * Notions the statements are written with *)

(** [sub] occurs in [s] *)
Definition is_substring (sub s : string) : Prop :=
  ∃ a b, s = a +:+ sub +:+ b.

Fixpoint has_char (c : ascii) (s : string) : bool :=
  match s with
  | EmptyString => false
  | String d s' => Ascii.eqb d c || has_char c s'
  end.

(** [st] split on its last ['.'] into [table_part] and [column_part]; a
    token without ['.'] has an empty table part. *)
Definition split_last_dot (st table_part column_part : string) : Prop :=
  has_char "." column_part = false
  ∧ (st = table_part +:+ "." +:+ column_part
     ∨ (has_char "." st = false ∧ table_part = "" ∧ column_part = st)).

(** The tokens the extractor reads: the columns the parser lists under
    [where], [join] and [group_by]. *)
Definition token (d : gmap string (list string)) (st : string) : Prop :=
  ∃ section cols,
    section ∈ ["where"; "join"; "group_by"] ∧ d !! section = Some cols ∧ st ∈ cols.

(** The attribution rule as the specification words it: the table part of
    the token is non-empty and occurs in the table name, or it is empty. *)
Definition spec_attributes (tbl table_part : string) : Prop :=
  (table_part ≠ "" ∧ is_substring table_part tbl) ∨ table_part = "".

(** The parse of [sqlString] fails with [e]: building the parser object
    raises, or reading its table list does.  (When only [columns_dict]
    raises, the inner handler of the extractor takes over.) *)
Definition parse_raises (Parser : string → result ParserResults)
    (sqlString e : string) : Prop :=
  Parser sqlString = Raise e
  ∨ ∃ r, Parser sqlString = Ok r ∧ tables r = Raise e.

(** The number of occurrences of [pat] in [s], counted from the left without
    overlap; [skip] is the number of characters still covered by the last
    occurrence counted. *)
Fixpoint count_go (pat s : string) (skip : nat) : nat :=
  match s with
  | EmptyString => O
  | String _ s' =>
      match skip with
      | S k => count_go pat s' k
      | O =>
          if String.prefix pat s
          then S (count_go pat s' (String.length pat - 1))
          else count_go pat s' O
      end
  end.

Definition count_occurrences (s pat : string) : nat := count_go pat s O.






(** The two published tables of a database. *)
Definition published (db : string) (s : Catalog)
  : option (list Summary.t) * option (list Scaled.t) :=
  (read_statistics_column_level_summary s !! db,
   read_statistics_scaled_results s !! db).

(** The catalog holds, for the database [db], what a complete run leaves:
    the parsed queries are a merge of the queries of the raw table, and each
    later table is the query of its statement over the tables it reads. *)
Definition settled (Parser : string → result ParserResults)
    (regexp_split : string → string → list string) (db : string)
    (s : Catalog) : Prop :=
  ∃ raw raw_do source target merged hist,
    raw_query_history_statistics s !! db = Some raw
    ∧ raw_query_history_statistics s !! "delta_optimizer" = Some raw_do
    ∧ query_summary_statistics s !! "delta_optimizer" = Some (raw_query_stats raw_do)
    ∧ new_parsed Parser raw = Ok source
    ∧ MERGE target source = Ok merged
    ∧ parsed_distinct_queries s !! db = Some merged
    ∧ query_summary_statistics s !! db = Some hist
    ∧ query_column_statistics s !! db = Some (pre_stats_df Parser regexp_split merged hist)
    ∧ read_statistics_column_level_summary s !! db
      = Some (column_level_summary (pre_stats_df Parser regexp_split merged hist))
    ∧ read_statistics_scaled_results s !! db
      = Some (df_scaled (column_level_summary (pre_stats_df Parser regexp_split merged
          hist))).

(** Two catalogs with the same tables, the log apart. *)
Definition same_tables (s1 s2 : Catalog) : Prop :=
  raw_query_history_statistics s2 = raw_query_history_statistics s1
  ∧ query_summary_statistics s2 = query_summary_statistics s1
  ∧ parsed_distinct_queries s2 = parsed_distinct_queries s1
  ∧ query_column_statistics s2 = query_column_statistics s1
  ∧ read_statistics_column_level_summary s2 = read_statistics_column_level_summary s1
  ∧ read_statistics_scaled_results s2 = read_statistics_scaled_results s1.

(** ** Concrete parsers, statements and tables *)

Module Demo.

Definition parsed (tbls : list string) (d : gmap string (list string))
  : result ParserResults :=
  Ok {| columns_dict := Ok d; tables := Ok tbls |}.

Definition join_sql : string :=
  "SELECT * FROM orders JOIN orders_archive ON orders.id = orders_archive.order_id".
Definition filter_sql : string := "SELECT a FROM orders WHERE region = 'US'".
Definition status_sql : string := "SELECT a FROM orders WHERE status = 'open'".
Definition short_sql : string := "SELECT a FROM orders WHERE x = 1".
Definition bad_sql : string := "SELEC a FRM orders".

(** What a parser answers on the statements above; anything else is
    refused. *)
Definition Parser (sqlString : string) : result ParserResults :=
  if bool_decide (sqlString = join_sql) then
    parsed ["orders"; "orders_archive"]
           {[ "join" := ["orders.id"; "orders_archive.order_id"] ]}
  else if bool_decide (sqlString = filter_sql) then
    parsed ["orders"] {[ "where" := ["region"] ]}
  else if bool_decide (sqlString = status_sql) then
    parsed ["orders"] {[ "where" := ["status"] ]}
  else if bool_decide (sqlString = short_sql) then
    parsed ["orders"] {[ "where" := ["x"] ]}
  else Raise "Not supported query type!".

(** The names and statements here have no metacharacter and none is
    empty, so [Sql.split] does not ask for a regular expression; this engine
    reads any pattern it is given as the string it is. *)
Definition regexp_split (s pat : string) : list string := Sql.split_go pat s 0.

(** A parsed-query row whose statement the parser refuses, as the upsert
    stores it. *)
Definition unparsable_query : Parsed.t :=
  {| Parsed.query_id := "q0";
     Parsed.query_text := bad_sql;
     Parsed.profiled_columns := ["ERROR: Not supported query type!"] |}.

(** The parsed-query row of [filter_sql]. *)
Definition filter_query : Parsed.t :=
  {| Parsed.query_id := "q1";
     Parsed.query_text := filter_sql;
     Parsed.profiled_columns := ["orders:region"] |}.

(** The row of [query_column_statistics] for [filter_query] when no
    statistics row matches it. *)
Definition filter_usage : Usage.t :=
  {| Usage.TableName := Some "orders";
     Usage.ColumnName := Some "region";
     Usage.query_text := filter_sql;
     Usage.query_id := None;
     Usage.AverageQueryDuration := None;
     Usage.AverageRowsProduced := None;
     Usage.TotalQueryRuns := None;
     Usage.DurationTimesRuns := None;
     Usage.NumberOfColumnOccurrences := Some 1%Z;
     Usage.isUsedInJoin := 0%Z;
     Usage.isUsedInFilter := 0%Z;
     Usage.isUsedInGroup := 0%Z |}.




(** A finished run of [sqlString] under [query_id], as the query history
    returns it. *)
Definition record (query_id sqlString : string) (duration : Q) : Raw.t :=
  {| Raw.query_id := query_id;
     Raw.query_start_time_ms := Some 0%Q;
     Raw.query_end_time_ms := Some duration;
     Raw.duration := Some duration;
     Raw.query_text := sqlString;
     Raw.status := "FINISHED";
     Raw.statement_type := "SELECT";
     Raw.rows_produced := Some 5%Q |}.

(** The catalog after [__init__] for the database [db]: the three tables it
    creates, empty. *)
Definition init (db : string) : Catalog :=
  {| query_history_log := {[ db := [] ]};
     raw_query_history_statistics := {[ db := [] ]};
     query_summary_statistics := ∅;
     parsed_distinct_queries := {[ db := [] ]};
     query_column_statistics := ∅;
     read_statistics_column_level_summary := ∅;
     read_statistics_scaled_results := ∅ |}.

(** No statement is interrupted. *)
Definition undisturbed : nat → option string := λ _, None.

(** The job is cancelled during statement [k]. *)
Definition cancelled_at (k : nat) : nat → option string :=
  λ i, if bool_decide (i = k) then Some "CANCELLED" else None.

(** A run of the profiler of workspace [ws] on the database
    [delta_optimizer]. *)
Definition profile (interrupted : nat → option string) (all_responses : list Raw.t)
    (s : Catalog) : Catalog * result unit :=
  build_query_history_profile Parser regexp_split "ws" ["w1"] "delta_optimizer"
    interrupted all_responses 0 1 s.

(** The catalog after a first complete run over one run of [filter_sql]. *)
Definition first_records : list Raw.t := [record "q1" filter_sql 10].

Definition settled_catalog : Catalog :=
  (profile undisturbed first_records (init "delta_optimizer")).1.

(** The catalog a second run leaves when it fetches one run of [status_sql]
    and is cancelled during its last statement. *)
Definition second_records : list Raw.t := [record "q2" status_sql 20].

Definition cancelled_catalog : Catalog :=
  (profile (cancelled_at 6) second_records settled_catalog).1.

(** A record that is no SELECT statement. *)
Definition show_record : Raw.t :=
  {| Raw.query_id := "q3";
     Raw.query_start_time_ms := Some 0%Q;
     Raw.query_end_time_ms := Some 1%Q;
     Raw.duration := Some 1%Q;
     Raw.query_text := "SHOW TABLES";
     Raw.status := "FINISHED";
     Raw.statement_type := "SHOW";
     Raw.rows_produced := Some 3%Q |}.

End Demo.

(** * Notions for the rest of the profiler *)

(** The responses to the page requests of a run, from its [k]-th request
    on: a page is asked for, with the token of the last response, as long as
    the last response says [has_next_page] is true. *)
Inductive page_chain (requests_get : nat → option string → result Response)
  : nat → option string → option bool → list Response → Prop :=
| chain_end k token has_next :
    has_next ≠ Some true → page_chain requests_get k token has_next []
| chain_page k token r rest :
    requests_get k token = Ok r →
    page_chain requests_get (S k) (next_page_token r) (has_next_page r) rest →
    page_chain requests_get k token (Some true) (r :: rest).

(** The records of a raw table that the statistics count. *)
Definition counted (raw : list Raw.t) : list Raw.t :=
  List.filter
    (λ r, bool_decide (Raw.status r ∈ ["FINISHED"; "CANCELED"])
          && bool_decide (Raw.statement_type r = "SELECT"))
    raw.

(** A use flag of a summary row and the number of usage rows that set it:
    the flag is 0 when no row does, and 1 when at least one does. *)
Definition flag_and_count (flag count : option Z) : Prop :=
  ∃ m n, flag = Some m ∧ count = Some n
    ∧ ((m = 0 ∧ n = 0) ∨ (m = 1 ∧ 1 ≤ n))%Z.

(** The raw table holds [query_id] with two different texts. *)
Definition ambiguous (raw : list Raw.t) (query_id : string) : Prop :=
  ∃ r1 r2, r1 ∈ raw ∧ r2 ∈ raw
    ∧ Raw.query_id r1 = query_id ∧ Raw.query_id r2 = query_id
    ∧ Raw.query_text r1 ≠ Raw.query_text r2.

(** The parsed queries of [db] hold a query id that its raw table holds with
    two different texts. *)
Definition blocked (db : string) (s : Catalog) : Prop :=
  ∃ raw target t,
    raw_query_history_statistics s !! db = Some raw
    ∧ parsed_distinct_queries s !! db = Some target
    ∧ t ∈ target ∧ ambiguous raw (Parsed.query_id t).

(** The tables of the database [db] are in [s'] as they are in [s]; for
    the statistics summary of [delta_optimizer] nothing is said. *)
Definition same_database (db : string) (s s' : Catalog) : Prop :=
  query_history_log s' !! db = query_history_log s !! db
  ∧ raw_query_history_statistics s' !! db = raw_query_history_statistics s !! db
  ∧ parsed_distinct_queries s' !! db = parsed_distinct_queries s !! db
  ∧ query_column_statistics s' !! db = query_column_statistics s !! db
  ∧ read_statistics_column_level_summary s' !! db
    = read_statistics_column_level_summary s !! db
  ∧ read_statistics_scaled_results s' !! db = read_statistics_scaled_results s !! db
  ∧ (db ≠ "delta_optimizer" →
     query_summary_statistics s' !! db = query_summary_statistics s !! db).

(** The counted records of the query [query_id]. *)
Definition runs_of (raw : list Raw.t) (query_id : string) : list Raw.t :=
  List.filter (λ r, bool_decide (Raw.query_id r = query_id)) (counted raw).

(** The usage rows behind the summary row of a table and column. *)
Definition usage_of (usage : list Usage.t) (TableName ColumnName : option string)
  : list Usage.t :=
  List.filter
    (λ u, has_column u
          && bool_decide ((Usage.TableName u, Usage.ColumnName u)
                          = (TableName, ColumnName)))
    usage.

(** The use flag of a usage row, and of a summary row, for a section of the
    parser's dictionary. *)
Definition usage_flag (section : string) (u : Usage.t) : Z :=
  if bool_decide (section = "join") then Usage.isUsedInJoin u
  else if bool_decide (section = "where") then Usage.isUsedInFilter u
  else Usage.isUsedInGroup u.

Definition summary_flag (section : string) (row : Summary.t) : option Z :=
  if bool_decide (section = "join") then Summary.isUsedInJoin row
  else if bool_decide (section = "where") then Summary.isUsedInFilter row
  else Summary.isUsedInGroup row.

(** The catalog without any table. *)
Definition no_tables : Catalog :=
  {| query_history_log := ∅;
     raw_query_history_statistics := ∅;
     query_summary_statistics := ∅;
     parsed_distinct_queries := ∅;
     query_column_statistics := ∅;
     read_statistics_column_level_summary := ∅;
     read_statistics_scaled_results := ∅ |}.

Module Demo2.

(** A query history of three responses: the first two announce a next
    page. *)
Definition response (records : option (list Raw.t)) (token : option string)
    (more : option bool) : Response :=
  {| res := records; next_page_token := token; has_next_page := more |}.

Definition requests_get (k : nat) (token : option string) : result Response :=
  match k, token with
  | 0%nat, None =>
      Ok (response (Some [Demo.record "q1" Demo.filter_sql 10]) (Some "p1") (Some true))
  | 1%nat, Some "p1" =>
      Ok (response (Some [Demo.record "q2" Demo.status_sql 20]) (Some "p2") (Some true))
  | 2%nat, Some "p2" =>
      Ok (response (Some [Demo.record "q3" Demo.join_sql 30]) None (Some false))
  | _, _ => Raise "404"
  end.

(** The same history when its last page has no ["res"]. *)
Definition requests_get_without_res (k : nat) (token : option string)
  : result Response :=
  match k, token with
  | 2%nat, Some "p2" => Ok (response None None (Some false))
  | _, _ => requests_get k token
  end.

(** A history whose every response announces a next page. *)
Definition requests_get_forever (k : nat) (token : option string) : result Response :=
  Ok (response (Some []) (Some "again") (Some true)).

(** Two finished runs recorded under one query id with different texts. *)
Definition two_texts : list Raw.t :=
  [Demo.record "q1" Demo.filter_sql 10; Demo.record "q1" Demo.status_sql 20].

(** The parsed-query row of [status_sql] under the id [query_id]. *)
Definition status_query (query_id : string) : Parsed.t :=
  {| Parsed.query_id := query_id;
     Parsed.query_text := Demo.status_sql;
     Parsed.profiled_columns := ["orders:status"] |}.

(** A second run that fetches [q1] with another text than the one it was
    parsed with, and the catalog it leaves: the raw table holds [two_texts]
    and [q1] is among the parsed queries. *)
Definition changed_records : list Raw.t := [Demo.record "q1" Demo.status_sql 20].

Definition two_texts_catalog : Catalog :=
  (Demo.profile Demo.undisturbed changed_records Demo.settled_catalog).1.

(** What the parser answers on [Demo.join_sql], and the parsed-query row
    of that statement. *)
Definition join_results : ParserResults :=
  {| columns_dict := Ok {[ "join" := ["orders.id"; "orders_archive.order_id"] ]};
     tables := Ok ["orders"; "orders_archive"] |}.

Definition join_query : Parsed.t :=
  {| Parsed.query_id := "q3";
     Parsed.query_text := Demo.join_sql;
     Parsed.profiled_columns :=
       ["orders:id"; "orders:order_id"; "orders_archive:order_id"] |}.

(** The log entry of [Demo.profile]. *)
Definition first_entry : Log.t :=
  {| Log.WarehouseIds := ["w1"];
     Log.WorkspaceName := "ws";
     Log.StartTimestamp := 0;
     Log.EndTimestamp := 1 |}.

(** Timestamps in milliseconds as the clock. *)
Definition minus_days (d n : Z) : Z := (d - n * 86400000)%Z.

End Demo2.

(** A closed decidable proposition holds when its decision procedure
    computes to [true]. *)
Ltac by_compute :=
  match goal with
  | |- ?P => apply (bool_decide_unpack P); vm_compute; exact I
  end.

(** * Strings *)

#[local] Arguments String.append !_ _ / : simpl nomatch.

Section StringFacts.



Lemma length_append s1 s2 :
  String.length (s1 +:+ s2) = (String.length s1 + String.length s2)%nat.
Proof. induction s1; simpl; congruence. Qed.

Lemma prefix_app p s : String.prefix p s = true ↔ ∃ r, s = p +:+ r.
Proof.
  revert s. induction p as [|c p IH]; intros s; simpl.
  - split; [intros _; by exists s | by destruct s].
  - destruct s as [|d s]; simpl.
    + split; [done | intros [r Hr]; discriminate].
    + destruct (ascii_dec c d) as [->|Hne].
      * rewrite IH. split; intros [r Hr]; exists r; simpl in *; congruence.
      * split; [discriminate | intros [r Hr]; simpl in Hr; congruence].
Qed.

Lemma find_from_eq s sub i :
  Py.find_from s sub i =
    if String.prefix sub s then i
    else match s with
         | EmptyString => (-1)%Z
         | String _ s' => Py.find_from s' sub (i + 1)%Z
         end.
Proof. by destruct s. Qed.

Lemma find_from_found s sub i :
  (0 ≤ i)%Z → (0 ≤ Py.find_from s sub i)%Z ↔ is_substring sub s.
Proof.
  revert i. induction s as [|c s IH]; intros i Hi; rewrite find_from_eq.
  - destruct (String.prefix sub "") eqn:Hp.
    + split; [intros _ | done].
      apply prefix_app in Hp as [r Hr]. by exists "", r.
    + split; [lia|]. intros ([|? a] & b & Hab); simpl in Hab; [|done].
      assert (String.prefix sub "" = true) by (apply prefix_app; eauto).
      congruence.
  - destruct (String.prefix sub (String c s)) eqn:Hp.
    + split; [intros _ | done].
      apply prefix_app in Hp as [r Hr]. by exists "", r.
    + rewrite IH by lia. split.
      * intros (a & b & ->). by exists (String c a), b.
      * intros ([|d a] & b & Hab); simpl in Hab.
        -- assert (String.prefix sub (String c s) = true)
             by (apply prefix_app; eauto).
           congruence.
        -- injection Hab as -> ->. by exists a, b.
Qed.

(** [s.find(sub) >= 0] exactly when [sub] occurs in [s]. *)
Lemma find_nonneg s sub : (0 <=? Py.find s sub)%Z = true ↔ is_substring sub s.
Proof. rewrite Z.leb_le. by apply find_from_found. Qed.

Lemma rfind_None s c : Py.rfind s c = None ↔ has_char c s = false.
Proof.
  induction s as [|d s IH]; simpl; [done|].
  destruct (Py.rfind s c) eqn:Hr.
  - split; [done|]. intros [_ H]%orb_false_iff. apply IH in H. done.
  - destruct (Ascii.eqb d c); simpl; [done|]. by rewrite <- IH.
Qed.

Lemma rfind_last_dot tp cp c :
  has_char c cp = false →
  Py.rfind (tp +:+ String c cp) c = Some (String.length tp).
Proof.
  intros Hcp. induction tp as [|d tp IH]; simpl.
  - apply rfind_None in Hcp. rewrite Hcp. by rewrite Ascii.eqb_refl.
  - by rewrite IH.
Qed.


Lemma slice_to_app a b : Py.slice_to (String.length a) (a +:+ b) = a.
Proof. induction a; simpl; congruence. Qed.

End StringFacts.

(** * Attribution of a token to the tables of its statement *)

Section Attribution.

Lemma slice_from_add a b n :
  Py.slice_from (String.length a + n) (a +:+ b) = Py.slice_from n b.
Proof. induction a; simpl; congruence. Qed.

Lemma rfind_Some s c i :
  Py.rfind s c = Some i →
  s = Py.slice_to i s +:+ String c (Py.slice_from (S i) s)
  ∧ has_char c (Py.slice_from (S i) s) = false.
Proof.
  revert i. induction s as [|d s IH]; intros i; simpl; [done|].
  destruct (Py.rfind s c) as [j|] eqn:Hr.
  - intros [= <-]. destruct (IH j eq_refl) as [Hs Hc].
    split; [exact (f_equal (String d) Hs) | exact Hc].
  - destruct (Ascii.eqb_spec d c) as [->|]; [|done].
    intros [= <-]. simpl. split; [done | by apply rfind_None].
Qed.

(** The code's [table_val] and [column_val] are the two parts of the token
    around its last ['.'], and the only ones. *)
Lemma split_last_dot_code st :
  split_last_dot st (default "" (table_val st)) (column_val st).
Proof.
  unfold split_last_dot, table_val, column_val, Py.rindex.
  destruct (Py.rfind st ".") as [i|] eqn:Hr.
  - apply rfind_Some in Hr as [Hs Hc]. rewrite Nat.add_1_r.
    split; [done|]. left.
    destruct (Py.slice_to i st) eqn:Ht; simpl; by rewrite Hs at 1.
  - apply rfind_None in Hr. split; [done|]. by right.
Qed.

Lemma split_last_dot_unique st tp cp :
  split_last_dot st tp cp →
  column_val st = cp ∧ table_val st = (if decide (tp = "") then None else Some tp).
Proof.
  intros [Hcp [->|(Hst & -> & ->)]]; unfold column_val, table_val, Py.rindex.
  - change (tp +:+ "." +:+ cp) with (tp +:+ String "." cp).
    rewrite rfind_last_dot by done.
    rewrite slice_from_add, slice_to_app. simpl. split; [done|].
    by destruct tp.
  - apply rfind_None in Hst. by rewrite Hst.
Qed.

Lemma elem_of_attribute tbl st tp cp x :
  split_last_dot st tp cp →
  x ∈ attribute tbl st ↔
    (is_substring tbl st ∨ tp = "") ∧ 1 < String.length cp
    ∧ x = tbl +:+ ":" +:+ cp.
Proof.
  intros [Hc Ht]%split_last_dot_unique. unfold attribute, Py.len.
  rewrite Hc, Ht.
  destruct (0 <=? Py.find st tbl)%Z eqn:Hf; simpl.
  - apply find_nonneg in Hf.
    destruct (1 <? String.length cp)%nat eqn:Hl.
    + apply Nat.ltb_lt in Hl. rewrite list_elem_of_singleton. tauto.
    + apply Nat.ltb_ge in Hl. rewrite elem_of_nil. split; [done|]. lia.
  - assert (¬ is_substring tbl st) as Hn.
    { intros H%find_nonneg. congruence. }
    destruct (decide (tp = "")) as [->|Hne].
    + rewrite bool_decide_eq_true_2 by done.
      destruct (1 <? String.length cp)%nat eqn:Hl.
      * apply Nat.ltb_lt in Hl. rewrite list_elem_of_singleton. tauto.
      * apply Nat.ltb_ge in Hl. rewrite elem_of_nil. split; [done|]. lia.
    + rewrite bool_decide_eq_false_2 by done.
      rewrite elem_of_nil. tauto.
Qed.

Lemma elem_of_tokens (d : gmap string (list string)) st :
  st ∈ remove_dups (concat (omap id [d !! "where"; d !! "join"; d !! "group_by"]))
  ↔ token d st.
Proof.
  rewrite elem_of_remove_dups, list_elem_of_In, in_concat. unfold token. split.
  - intros (cols & Hcols & Hst).
    apply list_elem_of_In, list_elem_of_omap in Hcols as (o & Ho & Heq).
    simpl in Heq. subst o. apply list_elem_of_In in Hst.
    repeat (apply elem_of_cons in Ho as [Ho|Ho]);
      [exists "where" | exists "join" | exists "group_by" | by apply elem_of_nil in Ho];
      exists cols; split_and!; try done; set_solver.
  - intros (section & cols & Hsec & Hd & Hst). exists cols.
    split; [|by apply list_elem_of_In].
    apply list_elem_of_In, list_elem_of_omap. exists (Some cols).
    split; [|done]. rewrite <- Hd.
    repeat (apply elem_of_cons in Hsec as [->|Hsec]); [set_solver..|].
    by apply elem_of_nil in Hsec.
Qed.

Variable Parser : string → result ParserResults.

(** What the extractor returns on a statement the parser reads. *)
Lemma extractor_parsed sqlString r d tbls :
  Parser sqlString = Ok r → columns_dict r = Ok d → tables r = Ok tbls →
  getParsedFilteredColumnsinSQL Parser sqlString =
    Ok (flat_map (λ tbl,
          flat_map (attribute tbl)
            (remove_dups (concat (omap id [d !! "where"; d !! "join"; d !! "group_by"]))))
          tbls).
Proof.
  intros HP Hd Ht. unfold getParsedFilteredColumnsinSQL, read_columns.
  rewrite HP. simpl. rewrite Hd, Ht. done.
Qed.

(** C2, amended: on a parsed statement the extractor returns [t:column_part]
    exactly for the tables [t] of the statement and the tokens whose column
    part is longer than one character and for which either the table name
    [t] occurs in the whole token, or the table part of the token is empty. *)
Theorem attribution_rule sqlString r d tbls :
  Parser sqlString = Ok r → columns_dict r = Ok d → tables r = Ok tbls →
  ∃ final_table_map,
    getParsedFilteredColumnsinSQL Parser sqlString = Ok final_table_map
    ∧ ∀ x, x ∈ final_table_map ↔
        ∃ tbl st table_part column_part,
          tbl ∈ tbls ∧ token d st ∧ split_last_dot st table_part column_part
          ∧ (is_substring tbl st ∨ table_part = "")
          ∧ 1 < String.length column_part
          ∧ x = tbl +:+ ":" +:+ column_part.
Proof.
  intros HP Hd Ht. eexists. split; [by eapply extractor_parsed|].
  intros x. rewrite list_elem_of_In, in_flat_map. split.
  - intros (tbl & Htbl & Hx). apply in_flat_map in Hx as (st & Hst & Hx).
    apply list_elem_of_In in Htbl, Hst, Hx.
    apply elem_of_tokens in Hst.
    pose proof (split_last_dot_code st) as Hsplit.
    apply (elem_of_attribute _ _ _ _ _ Hsplit) in Hx as (Hrule & Hlen & ->).
    by exists tbl, st, (default "" (table_val st)), (column_val st).
  - intros (tbl & st & tp & cp & Htbl & Hst & Hsplit & Hrule & Hlen & ->).
    exists tbl. split; [by apply list_elem_of_In|].
    apply in_flat_map. exists st.
    split; [by apply list_elem_of_In, elem_of_tokens|].
    apply list_elem_of_In. by apply (elem_of_attribute _ _ _ _ _ Hsplit).
Qed.

End Attribution.

Lemma attribution_rule_witness :
  ∃ final_table_map,
    getParsedFilteredColumnsinSQL Demo.Parser Demo.join_sql = Ok final_table_map
    ∧ ∀ x, x ∈ final_table_map ↔
        ∃ tbl st table_part column_part,
          tbl ∈ ["orders"; "orders_archive"]
          ∧ token {[ "join" := ["orders.id"; "orders_archive.order_id"] ]} st
          ∧ split_last_dot st table_part column_part
          ∧ (is_substring tbl st ∨ table_part = "")
          ∧ 1 < String.length column_part
          ∧ x = tbl +:+ ":" +:+ column_part.
Proof.
  apply (attribution_rule Demo.Parser Demo.join_sql
           {| columns_dict := Ok {[ "join" := ["orders.id"; "orders_archive.order_id"] ]};
              tables := Ok ["orders"; "orders_archive"] |});
    reflexivity.
Defined.

(** C2 as the specification words it fails: the token [orders.id] has the
    table part [orders], which occurs in [orders_archive], yet no reference
    [orders_archive:id] is returned; and [orders:order_id] is returned for the
    token [orders_archive.order_id], whose table part does not occur in
    [orders]. *)
Lemma attribution_by_table_part_fails :
  getParsedFilteredColumnsinSQL Demo.Parser Demo.join_sql
    = Ok ["orders:id"; "orders:order_id"; "orders_archive:order_id"]
  ∧ split_last_dot "orders.id" "orders" "id"
  ∧ spec_attributes "orders_archive" "orders"
  ∧ ¬ ("orders_archive:id" ∈ ["orders:id"; "orders:order_id"; "orders_archive:order_id"])
  ∧ split_last_dot "orders_archive.order_id" "orders_archive" "order_id"
  ∧ ¬ spec_attributes "orders" "orders_archive"
  ∧ "orders:order_id" ∈ ["orders:id"; "orders:order_id"; "orders_archive:order_id"].
Proof.
  split_and!.
  - reflexivity.
  - split; [done | by left].
  - left. split; [done|]. by exists "", "_archive".
  - by_compute.
  - split; [done | by left].
  - intros [[_ (a & b & H)]|H]; [|done].
    apply (f_equal String.length) in H.
    rewrite !length_append in H. simpl in H. lia.
  - by_compute.
Qed.

(** * Statements the parser cannot read *)

Section ParseFailure.

Variable Parser : string → result ParserResults.
Variable regexp_split : string → string → list string.

(** The extractor returns a list on every input: every exception of the
    parser ends in the outer handler. *)
Lemma extractor_never_raises sqlString :
  ∃ final_table_map,
    getParsedFilteredColumnsinSQL Parser sqlString = Ok final_table_map.
Proof.
  unfold getParsedFilteredColumnsinSQL, try_except.
  destruct (bind _ _); eauto.
Qed.

Lemma extractor_parse_raises sqlString e :
  parse_raises Parser sqlString e →
  getParsedFilteredColumnsinSQL Parser sqlString = Ok ["ERROR: " +:+ e].
Proof.
  unfold getParsedFilteredColumnsinSQL, read_columns.
  intros [-> | (r & -> & Ht)]; simpl; [done|].
  rewrite Ht. by destruct (columns_dict r).
Qed.

(** When only [columns_dict] raises, the result is [t:] for every table. *)
Lemma extractor_columns_raise sqlString r e tbls :
  Parser sqlString = Ok r → columns_dict r = Raise e → tables r = Ok tbls →
  getParsedFilteredColumnsinSQL Parser sqlString
    = Ok ((λ tbl, tbl +:+ ":") <$> tbls).
Proof.
  intros HP Hd Ht. unfold getParsedFilteredColumnsinSQL, read_columns.
  rewrite HP. simpl. rewrite Hd, Ht. simpl.
  f_equal. replace (flat_map _ tbls) with (@nil string)
    by (clear; induction tbls; simpl; congruence).
  apply app_nil_r.
Qed.

Lemma split_go_cons pat s k : ∃ piece pieces, Sql.split_go pat s k = piece :: pieces.
Proof.
  revert k. induction s as [|c s IH]; intros k; cbn [Sql.split_go]; [by eauto|].
  destruct k as [|k]; [|done].
  destruct (String.prefix pat (String c s)); [by eauto|].
  destruct (IH 0%nat) as (p & ps & ->). eauto.
Qed.

(** [":"] is no regular expression proper. *)
Lemma split_colon s : Sql.split regexp_split s ":" = Sql.split_go ":" s 0.
Proof. reflexivity. Qed.

(** How the aggregation reads the error marker: split on [":"], it is the
    table [ERROR] with a column that starts with a blank. *)
Lemma split_error_marker e :
  ∃ piece pieces,
    Sql.split regexp_split ("ERROR: " +:+ e) ":" = "ERROR" :: String " " piece :: pieces.
Proof.
  destruct (split_go_cons ":" e 0) as (p & ps & He).
  exists p, ps. rewrite split_colon. cbn. by rewrite He.
Qed.

(** How it reads the marker [t:] of a table whose name has no [":"]: the
    table [t] with an empty column, which the filter on the length of
    [ColumnName] drops. *)
Lemma split_table_marker tbl :
  has_char ":" tbl = false → Sql.split regexp_split (tbl +:+ ":") ":" = [tbl; ""].
Proof.
  rewrite split_colon. induction tbl as [|c tbl IH]; [done|].
  cbn [has_char]. intros [Hc Htbl]%orb_false_iff.
  apply Ascii.eqb_neq in Hc. cbn [String.append Sql.split_go String.prefix].
  destruct (ascii_dec ":" c) as [<-|_]; [done|]. by rewrite IH.
Qed.

(** The parsing of a batch of queries never raises. *)
Lemma new_parsed_never_raises raw :
  ∃ source, new_parsed Parser raw = Ok source.
Proof.
  unfold new_parsed. generalize (Sql.DISTINCT (List.map (λ r, (Raw.query_id r,
      Raw.query_text r)) raw)).
  intros l. induction l as [|r l [source IH]]; simpl; [by eauto|].
  destruct (extractor_never_raises r.2) as [cols ->]. simpl.
  rewrite IH. simpl. eauto.
Qed.

(** C1, amended: when the parse of [query_text] raises [e], the extractor
    does not raise and returns exactly one string, the marker [ERROR: e], and
    the parsing of a batch of queries never raises.  The marker is no empty
    result for the aggregation: split on [":"] it has the table name [ERROR]
    and a column name of length at least 1, which the filter
    [length(ColumnName) >= 1] keeps. *)
Theorem unparsable_gives_error_marker sqlString e :
  parse_raises Parser sqlString e →
  getParsedFilteredColumnsinSQL Parser sqlString = Ok ["ERROR: " +:+ e]
  ∧ (∀ raw, ∃ source, new_parsed Parser raw = Ok source)
  ∧ Sql.split regexp_split ("ERROR: " +:+ e) ":" !! 0%nat = Some "ERROR"
  ∧ ∃ ColumnName,
      Sql.split regexp_split ("ERROR: " +:+ e) ":" !! 1%nat = Some ColumnName
      ∧ (1 ≤ String.length ColumnName)%nat.
Proof.
  intros He. split; [by apply extractor_parse_raises|].
  split; [apply new_parsed_never_raises|].
  destruct (split_error_marker e) as (p & ps & ->).
  split; [done|]. exists (String " " p). split; [done|]. simpl. lia.
Qed.

End ParseFailure.

Lemma unparsable_gives_error_marker_witness :
  getParsedFilteredColumnsinSQL Demo.Parser Demo.bad_sql
    = Ok ["ERROR: " +:+ "Not supported query type!"]
  ∧ (∀ raw, ∃ source, new_parsed Demo.Parser raw = Ok source)
  ∧ Sql.split Demo.regexp_split ("ERROR: " +:+ "Not supported query type!") ":" !! 0%nat
      = Some "ERROR"
  ∧ ∃ ColumnName,
      Sql.split Demo.regexp_split ("ERROR: " +:+ "Not supported query type!") ":" !!
          1%nat = Some ColumnName
      ∧ (1 ≤ String.length ColumnName)%nat.
Proof.
  apply (unparsable_gives_error_marker Demo.Parser Demo.regexp_split Demo.bad_sql).
  left. reflexivity.
Defined.

(** C1 as the specification words it fails: on a statement the parser
    refuses, the extractor returns one element, not none, and the
    aggregation turns it into a summary row for the table [ERROR]. *)
Lemma unparsable_contributes_a_reference :
  getParsedFilteredColumnsinSQL Demo.Parser (Parsed.query_text Demo.unparsable_query)
    = Ok (Parsed.profiled_columns Demo.unparsable_query)
  ∧ Parsed.profiled_columns Demo.unparsable_query ≠ []
  ∧ List.map (λ r, (Summary.TableName r, Summary.ColumnName r))
      (column_level_summary (pre_stats_df Demo.Parser Demo.regexp_split
          [Demo.unparsable_query] []))
    = [(Some "ERROR", Some " Not supported query type!")].
Proof. split_and!; [reflexivity | done | by vm_compute]. Qed.

(** * One table and an unqualified column *)

Section SingleTable.

Variable Parser : string → result ParserResults.

Lemma append_inj_l a b c : a +:+ b = a +:+ c → b = c.
Proof. induction a; simpl; [done|]. intros [= H]. auto. Qed.

Lemma attribute_unqualified tbl c :
  has_char "." c = false → 1 < String.length c →
  attribute tbl c = [tbl +:+ ":" +:+ c].
Proof.
  intros Hdot Hlen. apply rfind_None in Hdot.
  unfold attribute, table_val, column_val, Py.rindex, Py.len. rewrite Hdot.
  rewrite bool_decide_eq_true_2, orb_true_r by done.
  by apply Nat.ltb_lt in Hlen as ->.
Qed.

Lemma attribute_other tbl st c :
  column_val st ≠ c →
  List.filter (λ x, bool_decide (x = tbl +:+ ":" +:+ c)) (attribute tbl st) = [].
Proof.
  intros Hne. unfold attribute.
  destruct (_ || _); [|done]. destruct (_ <? _)%nat; [|done]. simpl.
  rewrite bool_decide_eq_false_2; [done|].
  intros H%append_inj_l. simpl in H. congruence.
Qed.

Lemma count_references tbl c (tokens : list string) :
  has_char "." c = false → 1 < String.length c →
  NoDup tokens → c ∈ tokens →
  (∀ st, st ∈ tokens → column_val st = c → st = c) →
  length (List.filter (λ x, bool_decide (x = tbl +:+ ":" +:+ c))
            (flat_map (attribute tbl) tokens)) = 1%nat.
Proof.
  intros Hdot Hlen Hnd Hin Honly.
  assert (∀ l : list string, c ∉ l →
            (∀ st, st ∈ l → column_val st = c → st = c) →
            List.filter (λ x, bool_decide (x = tbl +:+ ":" +:+ c))
              (flat_map (attribute tbl) l) = []) as Hnone.
  { induction l as [|st l IH]; intros Hc Hl; cbn [flat_map]; [done|].
    rewrite List.filter_app, IH, app_nil_r.
    - apply attribute_other. intros Hcv.
      apply Hc. rewrite <- (Hl st); [left | left | done].
    - intros H. apply Hc. by right.
    - intros st' Hst'. apply Hl. by right. }
  induction Hnd as [|st l Hst Hnd IH]; [by apply elem_of_nil in Hin|].
  cbn [flat_map]. rewrite List.filter_app, length_app.
  destruct (decide (st = c)) as [->|Hne].
  - rewrite attribute_unqualified by done. cbn [List.filter].
    rewrite bool_decide_eq_true_2 by done.
    rewrite Hnone; [done | done |].
    intros st' Hst'. apply Honly. by right.
  - rewrite attribute_other.
    + cbn [length Nat.add]. apply IH.
      * apply elem_of_cons in Hin as [?|?]; congruence.
      * intros st' Hst'. apply Honly. by right.
    + intros Hcv. apply Hne, Honly; [left | done].
Qed.

(** C5, amended: for a parsed statement with exactly one table and an
    unqualified column [c] of more than one character that the parser lists
    under [where], and that no other token of the statement has as its
    column part, the extractor returns the reference [table:c] exactly
    once. *)
Theorem single_table_reference sqlString r d tbl cols c :
  Parser sqlString = Ok r → columns_dict r = Ok d → tables r = Ok [tbl] →
  d !! "where" = Some cols → c ∈ cols →
  has_char "." c = false → 1 < String.length c →
  (∀ st, token d st → column_val st = c → st = c) →
  ∃ final_table_map,
    getParsedFilteredColumnsinSQL Parser sqlString = Ok final_table_map
    ∧ length (List.filter (λ x, bool_decide (x = tbl +:+ ":" +:+ c))
                final_table_map) = 1%nat.
Proof.
  intros HP Hd Ht Hw Hc Hdot Hlen Honly. eexists.
  split; [by eapply extractor_parsed|]. simpl. rewrite app_nil_r.
  apply count_references; try done.
  - apply NoDup_remove_dups.
  - apply elem_of_tokens. exists "where", cols. split_and!; [|done..].
    apply list_elem_of_here.
  - intros st Hst. apply Honly. by apply elem_of_tokens.
Qed.

(** Under the same conditions the usage check on [table.c] answers [0]:
    the parser lists the column as [c], never as [table.c]. *)
Lemma unqualified_column_is_not_flagged sqlString r d tbl c section :
  Parser sqlString = Ok r → columns_dict r = Ok d →
  section ∈ ["where"; "join"; "group_by"] →
  has_char "." c = false →
  (∀ st, token d st → column_val st = c → st = c) →
  checkIfColumn Parser section sqlString (tbl +:+ "." +:+ c) = 0%Z.
Proof.
  intros HP Hd Hsec Hdot Honly. unfold checkIfColumn. rewrite HP. simpl.
  rewrite Hd. simpl. destruct (d !! section) as [cols|] eqn:Hcols; [|done].
  rewrite bool_decide_eq_false_2; [done|]. intros Hin.
  assert (split_last_dot (tbl +:+ "." +:+ c) tbl c) as Hs
    by (split; [done | by left]).
  apply split_last_dot_unique in Hs as [Hcv _].
  assert (tbl +:+ "." +:+ c = c) as Heq.
  { apply Honly; [|done]. by exists section, cols. }
  apply (f_equal String.length) in Heq.
  rewrite length_append in Heq. simpl in Heq. lia.
Qed.

End SingleTable.

Lemma single_table_reference_witness :
  ∃ final_table_map,
    getParsedFilteredColumnsinSQL Demo.Parser Demo.filter_sql = Ok final_table_map
    ∧ length (List.filter (λ x, bool_decide (x = "orders" +:+ ":" +:+ "region"))
                final_table_map) = 1%nat.
Proof.
  apply (single_table_reference Demo.Parser Demo.filter_sql
           {| columns_dict := Ok {[ "where" := ["region"] ]};
              tables := Ok ["orders"] |}
           {[ "where" := ["region"] ]} "orders" ["region"] "region");
    try reflexivity.
  - apply list_elem_of_here.
  - simpl. lia.
  - intros st (section & cols & Hsec & Hd & Hst) _.
    apply lookup_singleton_Some in Hd as [_ <-].
    by apply list_elem_of_singleton in Hst.
Defined.

(** C5 as the specification words it fails twice.  A one-character column
    gives no reference at all; and where the reference is returned, the
    filter check on the qualified name [orders.region] answers [0]. *)
Lemma single_table_claim_fails :
  getParsedFilteredColumnsinSQL Demo.Parser Demo.short_sql = Ok []
  ∧ getParsedFilteredColumnsinSQL Demo.Parser Demo.filter_sql = Ok ["orders:region"]
  ∧ List.map (λ u, (Usage.TableName u, Usage.ColumnName u, Usage.isUsedInFilter u))
      (pre_stats_df Demo.Parser Demo.regexp_split [Demo.filter_query] [])
    = [(Some "orders", Some "region", 0%Z)].
Proof. split_and!; [reflexivity | reflexivity | by vm_compute]. Qed.

(** * Occurrences of a column name in the query text *)

Section Occurrences.

Lemma length_split_go pat s k :
  length (Sql.split_go pat s k) = S (count_go pat s k).
Proof.
  revert k. induction s as [|c s IH]; intros k; [done|].
  cbn [Sql.split_go count_go]. destruct k as [|k]; [|done].
  destruct (String.prefix pat (String c s)).
  - cbn [length]. by rewrite IH.
  - rewrite <- IH. by destruct (split_go_cons pat s 0) as (p & ps & ->).
Qed.

Lemma literal_nonempty pat : Sql.literal pat = true → pat ≠ "".
Proof. by intros H ->. Qed.

(** [size(split(s, pat)) - 1] counts the occurrences of [pat] in [s] when
    [pat] is no regular expression proper. *)
Lemma size_split (regexp_split : string → string → list string) s pat :
  Sql.literal pat = true →
  (Sql.size (Sql.split regexp_split s pat) - 1)%Z = Z.of_nat (count_occurrences s pat).
Proof.
  intros Hpat. unfold Sql.size, Sql.split, count_occurrences.
  rewrite Hpat, length_split_go. lia.
Qed.

Lemma is_substring_nil pat : pat ≠ "" → ¬ is_substring pat "".
Proof.
  intros Hpat (a & b & H). destruct a; simpl in H; [|done].
  destruct pat; [done | discriminate].
Qed.

Lemma is_substring_cons pat c s :
  String.prefix pat (String c s) = false →
  is_substring pat (String c s) ↔ is_substring pat s.
Proof.
  intros Hp. split.
  - intros ([|d a] & b & Hab); simpl in Hab.
    + assert (String.prefix pat (String c s) = true)
        by (apply prefix_app; eauto).
      congruence.
    + injection Hab as -> ->. by exists a, b.
  - intros (a & b & ->). by exists (String c a), b.
Qed.

Lemma count_go_zero pat s k :
  pat ≠ "" →
  count_go pat s k = 0%nat ↔ ¬ is_substring pat (Py.slice_from k s).
Proof.
  intros Hpat. revert k. induction s as [|c s IH]; intros k.
  - destruct k; simpl; split; auto using is_substring_nil.
  - cbn [count_go]. destruct k as [|k]; [|apply IH].
    cbn [Py.slice_from]. destruct (String.prefix pat (String c s)) eqn:Hp.
    + split; [done|]. intros []. apply prefix_app in Hp as [r ->].
      by exists "", r.
    + rewrite is_substring_cons by done. apply (IH 0%nat).
Qed.

(** The count is [0] exactly when the column name does not occur. *)
Lemma count_occurrences_zero s pat :
  pat ≠ "" → count_occurrences s pat = 0%nat ↔ ¬ is_substring pat s.
Proof. intros Hpat. by apply (count_go_zero pat s 0). Qed.

Variable Parser : string → result ParserResults.
Variable regexp_split : string → string → list string.

(** C6, amended: on every row of [query_column_statistics] whose column
    name is not empty and has no metacharacter of regular expressions,
    [NumberOfColumnOccurrences] is the number of occurrences of the column
    name in the query text, counted without overlap and with nothing
    subtracted; it is never negative, and [0] exactly when the name does not
    occur, so nothing is clamped.  (Any other name is a regular expression
    for [split], and the column holds the number of its matches.) *)
Theorem occurrences_are_counted parsed hist u c :
  u ∈ pre_stats_df Parser regexp_split parsed hist →
  Usage.ColumnName u = Some c → Sql.literal c = true →
  Usage.NumberOfColumnOccurrences u
    = Some (Z.of_nat (count_occurrences (Usage.query_text u) c))
  ∧ (count_occurrences (Usage.query_text u) c = 0%nat
     ↔ ¬ is_substring c (Usage.query_text u)).
Proof.
  intros Hu Hc Hlit. split.
  - unfold pre_stats_df in Hu.
    apply list_elem_of_In, in_map_iff in Hu as (r & <- & _).
    simpl in *. rewrite Hc. simpl. f_equal. by apply size_split.
  - by apply count_occurrences_zero, literal_nonempty.
Qed.

End Occurrences.

Lemma occurrences_are_counted_witness :
  Usage.NumberOfColumnOccurrences Demo.filter_usage
    = Some (Z.of_nat (count_occurrences (Usage.query_text Demo.filter_usage) "region"))
  ∧ (count_occurrences (Usage.query_text Demo.filter_usage) "region" = 0%nat
     ↔ ¬ is_substring "region" (Usage.query_text Demo.filter_usage)).
Proof.
  apply (occurrences_are_counted Demo.Parser Demo.regexp_split [Demo.filter_query] []
           Demo.filter_usage "region").
  - vm_compute. apply list_elem_of_here.
  - reflexivity.
  - reflexivity.
Defined.

(** C6 as the specification words it fails: [region] occurs once in the
    statement, the specification's count would be [1 - 1 = 0], and the row
    holds [1]. *)
Lemma occurrences_minus_one_fails :
  count_occurrences Demo.filter_sql "region" = 1%nat
  ∧ pre_stats_df Demo.Parser Demo.regexp_split [Demo.filter_query] [] = [Demo.filter_usage]
  ∧ Usage.NumberOfColumnOccurrences Demo.filter_usage = Some 1%Z.
Proof. split_and!; [reflexivity | by vm_compute | reflexivity]. Qed.

(** * Min-max scaling within a table *)

Section Scaling.

Lemma elem_of_GROUP_BY {A K B} `{EqDecision K} (key : A → K) (agg : K → list A → B)
    (rows : list A) (y : B) :
  y ∈ Sql.GROUP_BY key agg rows ↔
    ∃ k, k ∈ (key <$> rows)
         ∧ y = agg k (List.filter (λ r, bool_decide (key r = k)) rows).
Proof.
  unfold Sql.GROUP_BY. rewrite list_elem_of_fmap.
  split.
  - intros (k & -> & Hk). rewrite elem_of_remove_dups in Hk. by exists k.
  - intros (k & Hk & ->). exists k. split; [reflexivity | by rewrite elem_of_remove_dups].
Qed.



















End Scaling.



(** * Queries without a statistics row *)

Section LeftJoin.

Variable Parser : string → result ParserResults.
Variable regexp_split : string → string → list string.

Lemma elem_of_LEFT_JOIN_unmatched {A} (key : A → string) root hist (a : A) :
  a ∈ root → (∀ h, h ∈ hist → Stats.query_id h ≠ key a) →
  (a, None) ∈ LEFT_JOIN key root hist.
Proof.
  intros Ha Hno. unfold LEFT_JOIN. apply list_elem_of_In, in_flat_map.
  exists a. split; [by apply list_elem_of_In|].
  replace (List.filter _ hist) with (@nil Stats.t); [by left|].
  symmetry. induction hist as [|h hist' IH]; [done|]. simpl.
  rewrite bool_decide_eq_false_2 by (apply Hno; left).
  apply IH. intros h' Hh'. apply Hno. by right.
Qed.

Lemma elem_of_exploded_parsed_cols parsed p ref :
  p ∈ parsed → ref ∈ Parsed.profiled_columns p →
  (ref, Parsed.query_id p, Parsed.query_text p) ∈ exploded_parsed_cols parsed.
Proof.
  intros Hp Href. unfold exploded_parsed_cols, Sql.DISTINCT.
  apply elem_of_remove_dups, list_elem_of_In, in_flat_map.
  exists p. split; [by apply list_elem_of_In|].
  apply in_map_iff. exists ref. split; [done | by apply list_elem_of_In].
Qed.

(** A row of [query_column_statistics] with a column name of length at
    least 1 has its (table, column) pair in the summary. *)
Lemma summary_has_group usage u :
  u ∈ usage → has_column u = true →
  ∃ row, row ∈ column_level_summary usage
    ∧ Summary.TableName row = Usage.TableName u
    ∧ Summary.ColumnName row = Usage.ColumnName u.
Proof.
  intros Hu Hc. unfold column_level_summary. eexists. split.
  - apply elem_of_GROUP_BY. exists (Usage.TableName u, Usage.ColumnName u).
    split; [|reflexivity].
    apply list_elem_of_fmap. exists u. split; [done|].
    apply list_elem_of_In. do 2 (apply filter_In; split; [|done]).
    by apply list_elem_of_In.
  - done.
Qed.

(** C3, amended: a parsed query without a matching row in
    [query_summary_statistics] is kept by the left join.  Each of its
    references with a column name of length at least 1 gives a row of
    [query_column_statistics] whose statistics columns are NULL, and the
    summary has a row for that (table, column) pair. *)
Theorem unmatched_query_is_kept parsed hist p ref c :
  p ∈ parsed → ref ∈ Parsed.profiled_columns p →
  (∀ h, h ∈ hist → Stats.query_id h ≠ Parsed.query_id p) →
  Sql.split regexp_split ref ":" !! 1%nat = Some c → (1 ≤ String.length c)%nat →
  (∃ u, u ∈ pre_stats_df Parser regexp_split parsed hist
     ∧ Usage.TableName u = Sql.split regexp_split ref ":" !! 0%nat
     ∧ Usage.ColumnName u = Some c
     ∧ Usage.query_text u = Parsed.query_text p
     ∧ Usage.AverageQueryDuration u = None
     ∧ Usage.DurationTimesRuns u = None)
  ∧ ∃ row, row ∈ column_level_summary (pre_stats_df Parser regexp_split parsed hist)
      ∧ Summary.TableName row = Sql.split regexp_split ref ":" !! 0%nat
      ∧ Summary.ColumnName row = Some c.
Proof.
  intros Hp Href Hno Hc Hlen.
  pose proof (elem_of_exploded_parsed_cols parsed p ref Hp Href) as Hex.
  apply (elem_of_LEFT_JOIN_unmatched (λ r : string * string * string, r.1.2)
           _ hist) in Hex; [|done].
  assert (∃ u, u ∈ pre_stats_df Parser regexp_split parsed hist
            ∧ Usage.TableName u = Sql.split regexp_split ref ":" !! 0%nat
            ∧ Usage.ColumnName u = Some c
            ∧ Usage.query_text u = Parsed.query_text p
            ∧ Usage.AverageQueryDuration u = None
            ∧ Usage.DurationTimesRuns u = None) as (u & Hu & Ht & Hcol & Hrest).
  { eexists. split.
    - unfold pre_stats_df. apply list_elem_of_In, in_map_iff. eexists.
      split; [reflexivity|]. apply list_elem_of_In.
      unfold step_2, Sql.DISTINCT. apply elem_of_remove_dups.
      apply list_elem_of_In, in_map_iff. eexists.
      split; [reflexivity | by apply list_elem_of_In].
    - split_and!; [reflexivity | exact Hc | reflexivity..]. }
  split; [by exists u|].
  destruct (summary_has_group _ u Hu) as (row & Hrow & Hrt & Hrc).
  - unfold has_column. rewrite Hcol. by apply Nat.leb_le.
  - exists row. split_and!; congruence.
Qed.

End LeftJoin.

Lemma unmatched_query_is_kept_witness :
  (∃ u, u ∈ pre_stats_df Demo.Parser Demo.regexp_split [Demo.filter_query] []
     ∧ Usage.TableName u = Sql.split Demo.regexp_split "orders:region" ":" !! 0%nat
     ∧ Usage.ColumnName u = Some "region"
     ∧ Usage.query_text u = Parsed.query_text Demo.filter_query
     ∧ Usage.AverageQueryDuration u = None
     ∧ Usage.DurationTimesRuns u = None)
  ∧ ∃ row, row ∈ column_level_summary (pre_stats_df Demo.Parser Demo.regexp_split
      [Demo.filter_query] [])
      ∧ Summary.TableName row = Sql.split Demo.regexp_split "orders:region" ":" !! 0%nat
      ∧ Summary.ColumnName row = Some "region".
Proof.
  apply (unmatched_query_is_kept Demo.Parser Demo.regexp_split [Demo.filter_query] []
           Demo.filter_query "orders:region" "region").
  - apply list_elem_of_here.
  - apply list_elem_of_here.
  - intros h Hh. by apply elem_of_nil in Hh.
  - reflexivity.
  - simpl. lia.
Defined.

(** C3 as the specification words it fails: with no statistics row at all,
    the query of [Demo.filter_sql] still gives the summary its row for
    [orders.region], with a NULL runtime and its one occurrence of the column
    counted; without the query the summary is empty. *)
Lemma unmatched_query_contributes :
  List.map (λ r, (Summary.TableName r, Summary.ColumnName r,
                  Summary.RawTotalRuntime r, Summary.TotalColumnOccurrencesForAllQueries r))
    (column_level_summary (pre_stats_df Demo.Parser Demo.regexp_split
        [Demo.filter_query] []))
    = [(Some "orders", Some "region", None, Some 1%Z)]
  ∧ column_level_summary (pre_stats_df Demo.Parser Demo.regexp_split [] []) = [].
Proof. split; by vm_compute. Qed.

(** * The upsert of parsed queries *)

Section Upsert.

Lemma when_matched_query_id source t :
  Parsed.query_id (when_matched source t) = Parsed.query_id t.
Proof. unfold when_matched. by destruct (source_matches source t). Qed.

Lemma when_matched_profiled_columns source t :
  Parsed.profiled_columns (when_matched source t) = Parsed.profiled_columns t.
Proof. unfold when_matched. by destruct (source_matches source t). Qed.

(** Whatever the source holds, the merge leaves the [profiled_columns] of
    every row that was in the target as they were. *)
Lemma MERGE_keeps_profiled_columns target source merged :
  MERGE target source = Ok merged →
  Parsed.profiled_columns <$> take (length target) merged
    = Parsed.profiled_columns <$> target.
Proof.
  unfold MERGE. destruct (existsb _ target); [done|]. intros [= <-].
  rewrite take_app_length' by (by rewrite length_map).
  induction target as [|t target IH]; [done|]. cbn [List.map fmap list_fmap].
  f_equal; [apply when_matched_profiled_columns | apply IH].
Qed.

End Upsert.

(** C7 fails on the code.  A first run on the initialised catalog fetches
    [q1] with the text [Demo.filter_sql] and stores its row with the reference
    [orders:region].  A second run fetches [q1] with the text
    [Demo.status_sql], whose extraction is [orders:status].  The raw table
    keeps both texts, the source of the upsert has two rows for [q1], and the
    upsert is refused: the run raises, the stored row keeps the old text and
    the old reference, and the run after it is refused as well.  (Where the
    upsert does update a row it assigns [query_text] alone, see
    [MERGE_keeps_profiled_columns].) *)
Lemma changed_text_is_refused :
  let first :=
    Demo.profile Demo.undisturbed Demo.first_records
      (__init__ "delta_optimizer" no_tables) in
  let second := Demo.profile Demo.undisturbed Demo2.changed_records first.1 in
  let third := Demo.profile Demo.undisturbed Demo.second_records second.1 in
  first.2 = Ok ()
  ∧ parsed_distinct_queries first.1 !! "delta_optimizer" = Some [Demo.filter_query]
  ∧ getParsedFilteredColumnsinSQL Demo.Parser Demo.status_sql = Ok ["orders:status"]
  ∧ second.2 = Raise "DELTA_MULTIPLE_SOURCE_ROW_MATCHING_TARGET_ROW_IN_MERGE"
  ∧ parsed_distinct_queries second.1 !! "delta_optimizer" = Some [Demo.filter_query]
  ∧ third.2 = Raise "DELTA_MULTIPLE_SOURCE_ROW_MATCHING_TARGET_ROW_IN_MERGE".
Proof. by vm_compute. Qed.

(** * Runs of the profiler *)

Section Runs.

Variable Parser : string → result ParserResults.
Variable regexp_split : string → string → list string.
Variable workspace_url : string.
Variable warehouse_ids_list : list string.
Variable database_name : string.

Lemma table_Ok {A} (tbl : gmap string (list A)) db rows :
  table tbl db = Ok rows ↔ tbl !! db = Some rows.
Proof. unfold table. destruct (tbl !! db); split; congruence. Qed.

Lemma bind_Ok {A B} (m : result A) (f : A → result B) b :
  bind m f = Ok b ↔ ∃ a, m = Ok a ∧ f a = Ok b.
Proof.
  destruct m; simpl; split;
    [eauto | by intros (? & [= <-] & ?) | done | by intros (? & ? & ?)].
Qed.

(** What each statement reads and writes when it completes. *)

Lemma insert_raw_Ok all_responses s s' :
  insert_raw database_name all_responses s = Ok s' ↔
  ∃ rows, raw_query_history_statistics s !! database_name = Some rows
    ∧ s' = set_raw_query_history_statistics
             (<[database_name := rows ++ select_statements all_responses]>
                (raw_query_history_statistics s)) s.
Proof.
  unfold insert_raw. rewrite bind_Ok. setoid_rewrite table_Ok.
  split; intros (rows & ? & ?); exists rows; split; congruence.
Qed.

Lemma insert_query_history_delta_log_Ok start_ts_ms end_ts_ms s s' :
  insert_query_history_delta_log workspace_url warehouse_ids_list database_name
    start_ts_ms end_ts_ms s = Ok s' →
  ∃ v, s' = set_query_history_log v s.
Proof.
  unfold insert_query_history_delta_log. rewrite bind_Ok.
  intros (rows & _ & [= <-]). eauto.
Qed.

Lemma replace_query_summary_statistics_Ok s s' :
  replace_query_summary_statistics s = Ok s' ↔
  ∃ raw, raw_query_history_statistics s !! "delta_optimizer" = Some raw
    ∧ s' = set_query_summary_statistics
             (<["delta_optimizer" := raw_query_stats raw]> (query_summary_statistics s)) s.
Proof.
  unfold replace_query_summary_statistics. rewrite bind_Ok. setoid_rewrite table_Ok.
  split; intros (rows & ? & ?); exists rows; split; congruence.
Qed.

Lemma merge_parsed_distinct_queries_Ok s s' :
  merge_parsed_distinct_queries Parser database_name s = Ok s' ↔
  ∃ raw source target merged,
    raw_query_history_statistics s !! database_name = Some raw
    ∧ new_parsed Parser raw = Ok source
    ∧ parsed_distinct_queries s !! database_name = Some target
    ∧ MERGE target source = Ok merged
    ∧ s' = set_parsed_distinct_queries
             (<[database_name := merged]> (parsed_distinct_queries s)) s.
Proof.
  unfold merge_parsed_distinct_queries. split.
  - intros (raw & Hraw & (source & Hsrc & (target & Ht & (merged & Hm & [=
      <-])%bind_Ok)%bind_Ok)%bind_Ok)%bind_Ok.
    apply table_Ok in Hraw, Ht. by exists raw, source, target, merged.
  - intros (raw & source & target & merged & Hraw & Hsrc & Ht & Hm & ->).
    apply table_Ok in Hraw, Ht. rewrite Hraw. simpl. rewrite Hsrc. simpl.
    rewrite Ht. simpl. by rewrite Hm.
Qed.

Lemma replace_query_column_statistics_Ok s s' :
  replace_query_column_statistics Parser regexp_split database_name s = Ok s' ↔
  ∃ parsed hist,
    parsed_distinct_queries s !! database_name = Some parsed
    ∧ query_summary_statistics s !! database_name = Some hist
    ∧ s' = set_query_column_statistics
             (<[database_name := pre_stats_df Parser regexp_split parsed hist]>
                (query_column_statistics s)) s.
Proof.
  unfold replace_query_column_statistics. split.
  - intros (parsed & Hp & (hist & Hh & [= <-])%bind_Ok)%bind_Ok.
    apply table_Ok in Hp, Hh. by exists parsed, hist.
  - intros (parsed & hist & Hp & Hh & ->).
    apply table_Ok in Hp, Hh. rewrite Hp. simpl. by rewrite Hh.
Qed.

Lemma replace_column_level_summary_Ok s s' :
  replace_column_level_summary database_name s = Ok s' ↔
  ∃ usage, query_column_statistics s !! database_name = Some usage
    ∧ s' = set_read_statistics_column_level_summary
             (<[database_name := column_level_summary usage]>
                (read_statistics_column_level_summary s)) s.
Proof.
  unfold replace_column_level_summary. rewrite bind_Ok. setoid_rewrite table_Ok.
  split; intros (rows & ? & ?); exists rows; split; congruence.
Qed.

Lemma replace_scaled_results_Ok s s' :
  replace_scaled_results database_name s = Ok s' ↔
  ∃ df, read_statistics_column_level_summary s !! database_name = Some df
    ∧ s' = set_read_statistics_scaled_results
             (<[database_name := df_scaled df]> (read_statistics_scaled_results s)) s.
Proof.
  unfold replace_scaled_results. rewrite bind_Ok. setoid_rewrite table_Ok.
  split; intros (rows & ? & ?); exists rows; split; congruence.
Qed.

Lemma run_cons interrupted k statement rest s :
  run interrupted k (statement :: rest) s =
    match interrupted k with
    | Some e => (s, Raise e)
    | None =>
        match statement s with
        | Ok s' => run interrupted (S k) rest s'
        | Raise e => (s, Raise e)
        end
    end.
Proof. reflexivity. Qed.

(** A property that every statement of a list preserves holds of the catalog
    a run leaves, however the run ends. *)
Lemma run_invariant (R : Catalog → Prop) interrupted statements :
  Forall (λ statement, ∀ s s', R s → statement s = Ok s' → R s') statements →
  ∀ k s, R s → R (run interrupted k statements s).1.
Proof.
  induction 1 as [|statement rest Hst _ IH]; intros k s Hs; [done|].
  rewrite run_cons. destruct (interrupted k); [done|].
  destruct (statement s) eqn:Hs'; [|done]. eapply IH, Hst; eauto.
Qed.


Lemma run_app interrupted k l1 l2 s :
  run interrupted k (l1 ++ l2) s =
    match run interrupted k l1 s with
    | (s1, Ok _) => run interrupted (k + length l1) l2 s1
    | (s1, Raise e) => (s1, Raise e)
    end.
Proof.
  revert k s. induction l1 as [|statement l1 IH]; intros k s.
  - simpl. by rewrite Nat.add_0_r.
  - rewrite <- app_comm_cons, !run_cons. destruct (interrupted k); [done|].
    destruct (statement s); [|done]. rewrite IH. simpl.
    by rewrite Nat.add_succ_r.
Qed.

(** The data frame of the records is the list of the records, when there is
    one. *)
Lemma createDataFrame_Ok all_responses raw :
  createDataFrame all_responses = Ok raw → raw = all_responses.
Proof.
  unfold createDataFrame. destruct all_responses; [done|].
  destruct (_ && _); [|done]. by intros [= <-].
Qed.

(** A run raises at the data frame and leaves the catalog as it is, or it
    runs the statements of the [try] block on the records. *)
Lemma build_cases interrupted all_responses start_ts_ms end_ts_ms s :
  (∃ e, createDataFrame all_responses = Raise e
     ∧ build_query_history_profile Parser regexp_split workspace_url warehouse_ids_list
         database_name interrupted all_responses start_ts_ms end_ts_ms s
       = (s, Raise e))
  ∨ (createDataFrame all_responses = Ok all_responses
     ∧ build_query_history_profile Parser regexp_split workspace_url warehouse_ids_list
         database_name interrupted all_responses start_ts_ms end_ts_ms s
       = run interrupted 0
           [ insert_raw database_name all_responses;
             insert_query_history_delta_log workspace_url warehouse_ids_list
               database_name start_ts_ms end_ts_ms;
             replace_query_summary_statistics;
             merge_parsed_distinct_queries Parser database_name;
             replace_query_column_statistics Parser regexp_split database_name;
             replace_column_level_summary database_name;
             replace_scaled_results database_name ]
           s).
Proof.
  unfold build_query_history_profile.
  destruct (createDataFrame all_responses) as [raw|e] eqn:Hframe; [right | left; eauto].
  by apply createDataFrame_Ok in Hframe as ->.
Qed.

(** The statements before the two publications write neither published
    table. *)
Lemma early_statements_keep_published all_responses start_ts_ms end_ts_ms s0 :
  Forall (λ statement, ∀ s s',
            (read_statistics_scaled_results s = read_statistics_scaled_results s0
             ∧ read_statistics_column_level_summary s
               = read_statistics_column_level_summary s0) →
            statement s = Ok s' →
            read_statistics_scaled_results s' = read_statistics_scaled_results s0
            ∧ read_statistics_column_level_summary s'
              = read_statistics_column_level_summary s0)
    [ insert_raw database_name all_responses;
      insert_query_history_delta_log workspace_url warehouse_ids_list
        database_name start_ts_ms end_ts_ms;
      replace_query_summary_statistics;
      merge_parsed_distinct_queries Parser database_name;
      replace_query_column_statistics Parser regexp_split database_name ].
Proof.
  repeat apply Forall_cons_2; [..|apply Forall_nil_2]; intros s s' HR Hs.
  - by apply insert_raw_Ok in Hs as (? & _ & ->).
  - by apply insert_query_history_delta_log_Ok in Hs as (? & ->).
  - by apply replace_query_summary_statistics_Ok in Hs as (? & _ & ->).
  - by apply merge_parsed_distinct_queries_Ok in Hs as (? & ? & ? & ? & _ & _ & _ & _ & ->).
  - by apply replace_query_column_statistics_Ok in Hs as (? & ? & _ & _ & ->).
Qed.

(** C8, amended: when a run raises, the scaled results are as they were
    before the run, and no table holds a partial result; but the run is not
    all-or-nothing.  The column summary is as it was before the run unless the
    exception comes from the interruption of the last statement: then the
    summary has already been replaced by the complete summary of the current
    [query_column_statistics]. *)
Theorem failed_run_leaves_scaled_results interrupted all_responses
    start_ts_ms end_ts_ms s s' e :
  build_query_history_profile Parser regexp_split workspace_url warehouse_ids_list
      database_name
    interrupted all_responses start_ts_ms end_ts_ms s = (s', Raise e) →
  read_statistics_scaled_results s' = read_statistics_scaled_results s
  ∧ (read_statistics_column_level_summary s' = read_statistics_column_level_summary s
     ∨ (interrupted 6%nat = Some e
        ∧ ∃ usage,
            query_column_statistics s' !! database_name = Some usage
            ∧ read_statistics_column_level_summary s'
              = <[database_name := column_level_summary usage]>
                  (read_statistics_column_level_summary s))).
Proof.
  destruct (build_cases interrupted all_responses start_ts_ms end_ts_ms s)
    as [(e0 & _ & ->)|[_ ->]]; [intros [= <- <-]; auto|].
  change [_; _; _; _; _; _; _]
    with ([ insert_raw database_name all_responses;
            insert_query_history_delta_log workspace_url warehouse_ids_list
              database_name start_ts_ms end_ts_ms;
            replace_query_summary_statistics;
            merge_parsed_distinct_queries Parser database_name;
            replace_query_column_statistics Parser regexp_split database_name ]
          ++ [ replace_column_level_summary database_name;
               replace_scaled_results database_name ]).
  rewrite run_app.
  pose proof (run_invariant _ interrupted _
                (early_statements_keep_published all_responses start_ts_ms end_ts_ms s)
                0%nat s (conj eq_refl eq_refl)) as Hearly.
  destruct (run interrupted 0 _ s) as [s5 [u|e5]]; simpl in Hearly;
    destruct Hearly as [Hsc Hsu].
  2: { intros [= <- <-]. auto. }
  cbn [length Nat.add]. rewrite run_cons.
  destruct (interrupted 5%nat); [intros [= <- <-]; auto|].
  destruct (replace_column_level_summary database_name s5) as [s6|] eqn:H6;
    [|intros [= <- <-]; auto].
  apply replace_column_level_summary_Ok in H6 as (usage & Husage & ->).
  rewrite run_cons.
  destruct (interrupted 6%nat) as [e6|] eqn:Hi.
  - intros [= <- <-]. split; [done|]. right. split; [done|].
    exists usage. simpl. by rewrite Hsu.
  - destruct (replace_scaled_results database_name _) as [s7|e7] eqn:H7; [done|].
    unfold replace_scaled_results, table in H7. simpl in H7.
    by rewrite lookup_insert_eq in H7.
Qed.


(** ** A second run over the same records *)

Lemma source_matches_when_matched source source' t :
  source_matches source (when_matched source' t) = source_matches source t.
Proof. unfold source_matches. by rewrite when_matched_query_id. Qed.

Lemma when_matched_idemp source t :
  when_matched source (when_matched source t) = when_matched source t.
Proof.
  unfold when_matched at 1. rewrite source_matches_when_matched.
  unfold when_matched. by destruct (source_matches source t).
Qed.

Lemma when_matched_inserted source s :
  s ∈ source → (length (source_matches source s) ≤ 1)%nat →
  when_matched source s = s.
Proof.
  intros Hs Hlen. unfold when_matched.
  assert (s ∈ source_matches source s) as Hin.
  { apply list_elem_of_In, filter_In. split; [by apply list_elem_of_In|].
    by apply bool_decide_eq_true. }
  destruct (source_matches source s) as [|s1 [|s2 l]]; simpl in Hlen; [| |lia].
  - by apply elem_of_nil in Hin.
  - apply list_elem_of_singleton in Hin as <-. by destruct s.
Qed.

Lemma existsb_False {A} (f : A → bool) l :
  existsb f l = false ↔ ∀ x, x ∈ l → f x = false.
Proof.
  induction l as [|a l IH]; simpl.
  - split; [by intros _ x ?%elem_of_nil | done].
  - rewrite orb_false_iff, IH. split.
    + intros [Ha Hl] x [->|Hx]%elem_of_cons; auto.
    + intros H. split; [apply H; left | intros x Hx; apply H; by right].
Qed.

Lemma filter_nil_iff {A} (f : A → bool) l :
  (∀ x, x ∈ l → f x = false) → List.filter f l = [].
Proof.
  induction l as [|a l IH]; intros H; simpl; [done|].
  rewrite (H a) by left. apply IH. intros x Hx. apply H. by right.
Qed.

(** Merging the same source a second time changes nothing. *)
Lemma MERGE_idemp target source merged merged' :
  MERGE target source = Ok merged → MERGE merged source = Ok merged' →
  merged' = merged.
Proof.
  unfold MERGE.
  destruct (existsb _ target) eqn:Hcheck; [done|]. intros [= <-].
  destruct (existsb _ (_ ++ _)) eqn:Hcheck'; [done|]. intros [= <-].
  rewrite existsb_False in Hcheck'.
  assert (when_not_matched
            (List.map (when_matched source) target ++ when_not_matched target source)
            source = []) as ->.
  { apply filter_nil_iff. intros s Hs. apply negb_false_iff.
    apply existsb_exists.
    destruct (existsb (λ t, bool_decide (Parsed.query_id s = Parsed.query_id t)) target)
      eqn:Ht.
    - apply existsb_exists in Ht as (t & Ht & Hid).
      exists (when_matched source t). split.
      + apply in_or_app. left. by apply in_map.
      + by rewrite when_matched_query_id.
    - exists s. split; [|by apply bool_decide_eq_true].
      apply in_or_app. right. apply filter_In.
      split; [by apply list_elem_of_In | by rewrite Ht]. }
  rewrite app_nil_r, List.map_app, List.map_map. f_equal.
  - apply map_ext. intros t. apply when_matched_idemp.
  - rewrite <- (map_id (when_not_matched target source)) at 2.
    apply map_ext_in. intros s Hs.
    assert (s ∈ source) as Hsrc.
    { apply filter_In in Hs as [Hs _]. by apply list_elem_of_In. }
    apply when_matched_inserted; [done|].
    specialize (Hcheck' s). apply Nat.ltb_ge. apply Hcheck'.
    apply list_elem_of_In, in_or_app. by right.
Qed.


(** The statements of a run that completes, one after the other. *)
Lemma complete_run_statements interrupted all_responses start_ts_ms end_ts_ms s s' :
  build_query_history_profile Parser regexp_split workspace_url warehouse_ids_list
      database_name
    interrupted all_responses start_ts_ms end_ts_ms s = (s', Ok ()) →
  ∃ s1 s2 s3 s4 s5 s6,
    insert_raw database_name all_responses s = Ok s1
    ∧ insert_query_history_delta_log workspace_url warehouse_ids_list database_name
        start_ts_ms end_ts_ms s1 = Ok s2
    ∧ replace_query_summary_statistics s2 = Ok s3
    ∧ merge_parsed_distinct_queries Parser database_name s3 = Ok s4
    ∧ replace_query_column_statistics Parser regexp_split database_name s4 = Ok s5
    ∧ replace_column_level_summary database_name s5 = Ok s6
    ∧ replace_scaled_results database_name s6 = Ok s'.
Proof.
  destruct (build_cases interrupted all_responses start_ts_ms end_ts_ms s)
    as [(e0 & _ & ->)|[_ ->]]; [done|].
  cbn [run].
  destruct (interrupted 0%nat); [done|].
  destruct (insert_raw _ _ _) as [s1|] eqn:H1; [|done].
  destruct (interrupted 1%nat); [done|].
  destruct (insert_query_history_delta_log _ _ _ _ _ _) as [s2|] eqn:H2; [|done].
  destruct (interrupted 2%nat); [done|].
  destruct (replace_query_summary_statistics _) as [s3|] eqn:H3; [|done].
  destruct (interrupted 3%nat); [done|].
  destruct (merge_parsed_distinct_queries _ _ _) as [s4|] eqn:H4; [|done].
  destruct (interrupted 4%nat); [done|].
  destruct (replace_query_column_statistics _ _ _) as [s5|] eqn:H5; [|done].
  destruct (interrupted 5%nat); [done|].
  destruct (replace_column_level_summary _ _) as [s6|] eqn:H6; [|done].
  destruct (interrupted 6%nat); [done|].
  destruct (replace_scaled_results _ _) as [s7|] eqn:H7; [|done].
  intros [= <-]. by exists s1, s2, s3, s4, s5, s6.
Qed.

Lemma complete_run_settled interrupted all_responses start_ts_ms end_ts_ms s s' :
  build_query_history_profile Parser regexp_split workspace_url warehouse_ids_list
      database_name
    interrupted all_responses start_ts_ms end_ts_ms s = (s', Ok ()) →
  settled Parser regexp_split database_name s'.
Proof.
  intros (s1 & s2 & s3 & s4 & s5 & s6 & H1 & H2 & H3 & H4 & H5 & H6 & H7)
    %complete_run_statements.
  apply insert_raw_Ok in H1 as (rows & Hrows & ->).
  apply insert_query_history_delta_log_Ok in H2 as (log & ->).
  apply replace_query_summary_statistics_Ok in H3 as (raw_do & Hdo & ->).
  apply merge_parsed_distinct_queries_Ok in H4
    as (raw & source & target & merged & Hraw & Hsrc & Ht & Hm & ->).
  apply replace_query_column_statistics_Ok in H5 as (parsed & hist & Hp & Hh & ->).
  apply replace_column_level_summary_Ok in H6 as (usage & Hu & ->).
  apply replace_scaled_results_Ok in H7 as (df & Hdf & ->).
  simpl in *.
  rewrite lookup_insert_eq in Hp. rewrite lookup_insert_eq in Hu.
  rewrite lookup_insert_eq in Hdf.
  injection Hp as <-. injection Hu as <-. injection Hdf as <-.
  exists raw, raw_do, source, target, merged, hist. simpl.
  split_and!; try done; apply lookup_insert_eq.
Qed.


(** On a settled catalog, a run that appends no record rewrites every table
    with what it already holds. *)
Lemma rerun_statements_keep_tables all_responses start_ts_ms end_ts_ms s1 :
  settled Parser regexp_split database_name s1 →
  select_statements all_responses = [] →
  Forall (λ statement, ∀ s s', same_tables s1 s → statement s = Ok s' → same_tables s1 s')
    [ insert_raw database_name all_responses;
      insert_query_history_delta_log workspace_url warehouse_ids_list
        database_name start_ts_ms end_ts_ms;
      replace_query_summary_statistics;
      merge_parsed_distinct_queries Parser database_name;
      replace_query_column_statistics Parser regexp_split database_name;
      replace_column_level_summary database_name;
      replace_scaled_results database_name ].
Proof.
  intros (raw & raw_do & source & target & merged & hist
          & Hraw & Hdo & Hstats & Hsrc & Hm & Hp & Hh & Hu & Hsu & Hsc) Hnone.
  repeat apply Forall_cons_2; [..|apply Forall_nil_2];
    intros s s' (Eraw & Estats & Ep & Eu & Esu & Esc) Hs;
    unfold same_tables.
  - apply insert_raw_Ok in Hs as (rows & Hrows & ->). simpl.
    rewrite Hnone, app_nil_r, insert_id by done. done.
  - apply insert_query_history_delta_log_Ok in Hs as (log & ->). done.
  - apply replace_query_summary_statistics_Ok in Hs as (raw_do' & Hdo' & ->). simpl.
    rewrite Eraw, Hdo in Hdo'. injection Hdo' as <-.
    rewrite insert_id by (by rewrite Estats). done.
  - apply merge_parsed_distinct_queries_Ok in Hs
      as (raw' & source' & target' & merged' & Hraw' & Hsrc' & Ht' & Hm' & ->).
    simpl. rewrite Eraw, Hraw in Hraw'. injection Hraw' as <-.
    rewrite Hsrc in Hsrc'. injection Hsrc' as <-.
    rewrite Ep, Hp in Ht'. injection Ht' as <-.
    rewrite (MERGE_idemp _ _ _ _ Hm Hm').
    rewrite insert_id by (by rewrite Ep). done.
  - apply replace_query_column_statistics_Ok in Hs as (parsed' & hist' & Hp' & Hh' & ->).
    simpl. rewrite Ep, Hp in Hp'. injection Hp' as <-.
    rewrite Estats, Hh in Hh'. injection Hh' as <-.
    rewrite insert_id by (by rewrite Eu). done.
  - apply replace_column_level_summary_Ok in Hs as (usage' & Hu' & ->). simpl.
    rewrite Eu, Hu in Hu'. injection Hu' as <-.
    rewrite insert_id by (by rewrite Esu). done.
  - apply replace_scaled_results_Ok in Hs as (df' & Hdf' & ->). simpl.
    rewrite Esu, Hsu in Hdf'. injection Hdf' as <-.
    rewrite insert_id by (by rewrite Esc). done.
Qed.

(** C9, amended: after a complete run, a second run that appends no record
    to the raw table (the records it fetches hold no SELECT statement) leaves
    both published tables exactly as the first run left them, whether it
    completes or raises. *)
Theorem rerun_without_new_records interrupted1 interrupted2 all_responses1
    all_responses2 start1 end1 start2 end2 s0 s1 s2 outcome :
  build_query_history_profile Parser regexp_split workspace_url warehouse_ids_list
      database_name
    interrupted1 all_responses1 start1 end1 s0 = (s1, Ok ()) →
  select_statements all_responses2 = [] →
  build_query_history_profile Parser regexp_split workspace_url warehouse_ids_list
      database_name
    interrupted2 all_responses2 start2 end2 s1 = (s2, outcome) →
  published database_name s2 = published database_name s1.
Proof.
  intros Hfirst Hnone Hsecond. apply complete_run_settled in Hfirst.
  destruct (build_cases interrupted2 all_responses2 start2 end2 s1)
    as [(e0 & _ & Hrun)|[_ Hrun]]; rewrite Hrun in Hsecond.
  { by injection Hsecond as <- _. }
  pose proof (run_invariant _ interrupted2 _
                (rerun_statements_keep_tables all_responses2 start2 end2 s1
                   Hfirst Hnone) 0%nat s1) as Hinv.
  rewrite Hsecond in Hinv.
  destruct Hinv as (_ & _ & _ & _ & Hsu & Hsc); [by repeat split|].
  unfold published. simpl in *. by rewrite Hsu, Hsc.
Qed.


(** ** The database of the statistics summary *)

(** C10: the statistics summary is written to the table of the database
    [delta_optimizer], from the raw table of that database, whatever the
    database of the profiler; the statement that fills
    [query_column_statistics] reads the summary of the configured database.
    So on every catalog the summary it reads is the one the run has just
    written if and only if the configured database is [delta_optimizer];
    with another database a complete run joins with the summary that was
    there before the run. *)
Theorem statistics_summary_database :
  (∀ s s',
     replace_query_summary_statistics s = Ok s' ↔
     ∃ raw, raw_query_history_statistics s !! "delta_optimizer" = Some raw
       ∧ s' = set_query_summary_statistics
                (<["delta_optimizer" := raw_query_stats raw]>
                   (query_summary_statistics s)) s)
  ∧ (∀ s s',
       replace_query_column_statistics Parser regexp_split database_name s = Ok s' →
       ∃ parsed hist,
         parsed_distinct_queries s !! database_name = Some parsed
         ∧ query_summary_statistics s !! database_name = Some hist
         ∧ query_column_statistics s' !! database_name
           = Some (pre_stats_df Parser regexp_split parsed hist))
  ∧ ((∀ s s' raw,
        replace_query_summary_statistics s = Ok s' →
        raw_query_history_statistics s !! "delta_optimizer" = Some raw →
        query_summary_statistics s' !! database_name = Some (raw_query_stats raw))
     ↔ database_name = "delta_optimizer")
  ∧ (database_name ≠ "delta_optimizer" →
     ∀ interrupted all_responses start_ts_ms end_ts_ms s s',
       build_query_history_profile Parser regexp_split workspace_url warehouse_ids_list
         database_name interrupted all_responses start_ts_ms end_ts_ms s
         = (s', Ok ()) →
       ∃ parsed hist,
         query_summary_statistics s !! database_name = Some hist
         ∧ query_column_statistics s' !! database_name
           = Some (pre_stats_df Parser regexp_split parsed hist)).
Proof.
  split_and!.
  - apply replace_query_summary_statistics_Ok.
  - intros s s' (parsed & hist & Hp & Hh & ->)%replace_query_column_statistics_Ok.
    exists parsed, hist. split_and!; [done..|]. apply lookup_insert_eq.
  - split.
    + intros Hread. destruct (decide (database_name = "delta_optimizer")); [done|].
      set (s := Build_Catalog ∅ {[ "delta_optimizer" := [] ]} ∅ ∅ ∅ ∅ ∅).
      specialize (Hread s
        (set_query_summary_statistics
           (<["delta_optimizer" := raw_query_stats []]> (query_summary_statistics s)) s)
        []).
      simpl in Hread. rewrite lookup_insert_ne, lookup_empty in Hread by done.
      discriminate Hread; [|apply lookup_singleton_eq].
      apply replace_query_summary_statistics_Ok. exists [].
      split; [apply lookup_singleton_eq | done].
    + intros -> s s' raw (raw' & Hraw' & ->)%replace_query_summary_statistics_Ok Hraw.
      simpl. rewrite lookup_insert_eq. congruence.
  - intros Hne interrupted all_responses start_ts_ms end_ts_ms s s'
      (s1 & s2 & s3 & s4 & s5 & s6 & H1 & H2 & H3 & H4 & H5 & H6 & H7)
      %complete_run_statements.
    apply insert_raw_Ok in H1 as (rows & Hrows & ->).
    apply insert_query_history_delta_log_Ok in H2 as (log & ->).
    apply replace_query_summary_statistics_Ok in H3 as (raw_do & Hdo & ->).
    apply merge_parsed_distinct_queries_Ok in H4
      as (raw & source & target & merged & Hraw & Hsrc & Ht & Hm & ->).
    apply replace_query_column_statistics_Ok in H5 as (parsed & hist & Hp & Hh & ->).
    apply replace_column_level_summary_Ok in H6 as (usage & Hu & ->).
    apply replace_scaled_results_Ok in H7 as (df & Hdf & ->).
    simpl in *. rewrite lookup_insert_ne in Hh by done.
    exists parsed, hist. split; [done | apply lookup_insert_eq].
Qed.

End Runs.

Lemma failed_run_leaves_scaled_results_witness :
  read_statistics_scaled_results Demo.cancelled_catalog
    = read_statistics_scaled_results Demo.settled_catalog
  ∧ (read_statistics_column_level_summary Demo.cancelled_catalog
       = read_statistics_column_level_summary Demo.settled_catalog
     ∨ (Demo.cancelled_at 6 6%nat = Some "CANCELLED"
        ∧ ∃ usage,
            query_column_statistics Demo.cancelled_catalog !! "delta_optimizer"
              = Some usage
            ∧ read_statistics_column_level_summary Demo.cancelled_catalog
              = <["delta_optimizer" := column_level_summary usage]>
                  (read_statistics_column_level_summary Demo.settled_catalog))).
Proof.
  apply (failed_run_leaves_scaled_results Demo.Parser Demo.regexp_split "ws" ["w1"]
      "delta_optimizer"
           (Demo.cancelled_at 6) Demo.second_records 0 1
           Demo.settled_catalog Demo.cancelled_catalog "CANCELLED").
  by vm_compute.
Defined.

(** C8 as the specification words it fails: the first run completes and
    publishes a summary of one column; the second run is cancelled during its
    last statement and raises, and the summary it leaves has two columns,
    next to the scaled results of the first run. *)
Lemma failed_run_replaces_summary :
  (Demo.profile Demo.undisturbed Demo.first_records (Demo.init "delta_optimizer")).2
    = Ok ()
  ∧ (Demo.profile (Demo.cancelled_at 6) Demo.second_records Demo.settled_catalog).2
    = Raise "CANCELLED"
  ∧ fmap (List.map Summary.ColumnName)
      (read_statistics_column_level_summary Demo.settled_catalog !! "delta_optimizer")
    = Some [Some "region"]
  ∧ fmap (List.map Summary.ColumnName)
      (read_statistics_column_level_summary Demo.cancelled_catalog !! "delta_optimizer")
    = Some [Some "region"; Some "status"]
  ∧ fmap (List.map (λ r, Summary.ColumnName (Scaled.row r)))
      (read_statistics_scaled_results Demo.cancelled_catalog !! "delta_optimizer")
    = Some [Some "region"].
Proof. split_and!; by vm_compute. Qed.

Lemma rerun_without_new_records_witness :
  published "delta_optimizer"
    (Demo.profile Demo.undisturbed [Demo.show_record] Demo.settled_catalog).1
  = published "delta_optimizer" Demo.settled_catalog.
Proof.
  apply (rerun_without_new_records Demo.Parser Demo.regexp_split "ws" ["w1"]
      "delta_optimizer"
           Demo.undisturbed Demo.undisturbed Demo.first_records [Demo.show_record]
           0 1 0 1 (Demo.init "delta_optimizer") Demo.settled_catalog
           (Demo.profile Demo.undisturbed [Demo.show_record] Demo.settled_catalog).1
           (Ok ())).
  - by vm_compute.
  - reflexivity.
  - by vm_compute.
Defined.

(** C9 as the specification words it fails when the second run fetches the
    records of the first again, as a run in mode [manual] over the same
    look-back window does: they are appended to the raw table a second time,
    the query counts two runs, and the total runtime of the column in the
    summary goes from 10 to 20. *)
Lemma rerun_same_records_changes_summary :
  (Demo.profile Demo.undisturbed Demo.first_records Demo.settled_catalog).2 = Ok ()
  ∧ fmap (List.map Summary.RawTotalRuntime)
      (published "delta_optimizer" Demo.settled_catalog).1
    = Some [Some 10%Q]
  ∧ fmap (List.map Summary.RawTotalRuntime)
      (published "delta_optimizer"
         (Demo.profile Demo.undisturbed Demo.first_records Demo.settled_catalog).1).1
    = Some [Some 20%Q]
  ∧ published "delta_optimizer"
      (Demo.profile Demo.undisturbed Demo.first_records Demo.settled_catalog).1
    ≠ published "delta_optimizer" Demo.settled_catalog.
Proof.
  split_and!; [by vm_compute..|].
  intros H. apply (f_equal (λ p, fmap (List.map Summary.RawTotalRuntime) p.1)) in H.
  vm_compute in H. discriminate H.
Qed.
(** * The rest of the profiler *)

(** ** Paging through the query history *)

Section PagingFacts.

Variable requests_get : nat → option string → result Response.

Lemma page_through_chain k token has_next pages :
  page_chain requests_get k token has_next pages →
  ∀ fuel acc, (length pages ≤ fuel)%nat →
    page_through requests_get fuel k token has_next acc
      = Some (Ok (acc ++ List.map res pages)).
Proof.
  induction 1 as [k token h Hh | k token r rest Hr Hrest IH]; intros fuel acc Hfuel.
  - rewrite app_nil_r. destruct fuel; simpl; by destruct h as [[]|].
  - destruct fuel as [|fuel]; [simpl in Hfuel; lia|].
    cbn [page_through]. rewrite Hr.
    destruct (has_next_page r) as [[]|] eqn:Hnext.
    + rewrite IH by (simpl in Hfuel; lia). by rewrite <- List.app_assoc.
    + by inversion Hrest; subst.
    + rewrite IH by (simpl in Hfuel; lia). by rewrite <- List.app_assoc.
Qed.

Lemma coalesce_pages_Some (pages : list Response) :
  Forall (λ r, is_Some (res r)) pages →
  coalesce_pages (List.map res pages)
    = Ok (concat (List.map (λ r, default [] (res r)) pages)).
Proof.
  induction 1 as [|r pages [xs Hxs] _ IH]; [done|].
  simpl. rewrite Hxs, IH. done.
Qed.

Lemma coalesce_pages_None (pages : list Response) :
  Exists (λ r, res r = None) pages →
  coalesce_pages (List.map res pages) = Raise "'NoneType' object is not iterable".
Proof.
  induction 1 as [r pages Hr | r pages _ IH]; simpl.
  - by rewrite Hr.
  - rewrite IH. by destruct (res r).
Qed.

(** X1: when the first request is answered and every page request of the
    run is answered with a response that has a ["res"], the run fetches the
    records of all responses, as many as they are: those of the pages in the
    order of the requests, and after them those of the first response, which
    may have no ["res"]. *)
Theorem paging_collects_every_page first pages fuel :
  requests_get 0 None = Ok first →
  page_chain requests_get 1 (next_page_token first) (has_next_page first) pages →
  Forall (λ r, is_Some (res r)) pages →
  (length pages ≤ fuel)%nat →
  all_responses requests_get fuel
    = Some (Ok (concat (List.map (λ r, default [] (res r)) pages)
                ++ default [] (res first))).
Proof.
  intros Hfirst Hchain Hres Hfuel. unfold all_responses. rewrite Hfirst.
  rewrite (page_through_chain _ _ _ _ Hchain) by done. simpl.
  by rewrite coalesce_pages_Some.
Qed.

(** X2: a page response without ["res"] makes the run raise TypeError when
    the pages are put together, after every page has been requested; only
    the first response is allowed to come without ["res"]. *)
Theorem page_without_res_raises first pages fuel :
  requests_get 0 None = Ok first →
  page_chain requests_get 1 (next_page_token first) (has_next_page first) pages →
  Exists (λ r, res r = None) pages →
  (length pages ≤ fuel)%nat →
  all_responses requests_get fuel = Some (Raise "'NoneType' object is not iterable").
Proof.
  intros Hfirst Hchain Hres Hfuel. unfold all_responses. rewrite Hfirst.
  rewrite (page_through_chain _ _ _ _ Hchain) by done. simpl.
  by rewrite coalesce_pages_None.
Qed.

Lemma page_through_forever fuel k token acc :
  (∀ k token, ∃ r, requests_get k token = Ok r ∧ has_next_page r = Some true) →
  page_through requests_get fuel k token (Some true) acc = None.
Proof.
  intros Hmore. revert k token acc.
  induction fuel as [|fuel IH]; intros k token acc; [done|].
  cbn [page_through]. destruct (Hmore k token) as (r & -> & ->). apply IH.
Qed.

(** X3: the loop has no bound of its own: as long as every response says
    [has_next_page] is true, no number of requests ends it. *)
Theorem paging_has_no_bound :
  (∀ k token, ∃ r, requests_get k token = Ok r ∧ has_next_page r = Some true) →
  ∀ fuel, all_responses requests_get fuel = None.
Proof.
  intros Hmore fuel. unfold all_responses.
  destruct (Hmore 0%nat None) as (r & -> & ->).
  by rewrite page_through_forever.
Qed.

End PagingFacts.

Lemma paging_collects_every_page_witness :
  all_responses Demo2.requests_get 2
  = Some (Ok (concat
                (List.map (λ r, default [] (res r))
                   [ Demo2.response (Some [Demo.record "q2" Demo.status_sql 20])
                       (Some "p2") (Some true);
                     Demo2.response (Some [Demo.record "q3" Demo.join_sql 30])
                       None (Some false) ])
              ++ default []
                   (res (Demo2.response (Some [Demo.record "q1" Demo.filter_sql 10])
                           (Some "p1") (Some true))))).
Proof.
  apply (paging_collects_every_page Demo2.requests_get).
  - reflexivity.
  - apply chain_page; [reflexivity|]. apply chain_page; [reflexivity|].
    apply chain_end. discriminate.
  - repeat apply Forall_cons_2; [..|apply Forall_nil_2]; by eexists.
  - simpl. lia.
Defined.

Lemma page_without_res_raises_witness :
  all_responses Demo2.requests_get_without_res 2
  = Some (Raise "'NoneType' object is not iterable").
Proof.
  apply (page_without_res_raises Demo2.requests_get_without_res
           (Demo2.response (Some [Demo.record "q1" Demo.filter_sql 10])
              (Some "p1") (Some true))
           [ Demo2.response (Some [Demo.record "q2" Demo.status_sql 20])
               (Some "p2") (Some true);
             Demo2.response None None (Some false) ]).
  - reflexivity.
  - apply chain_page; [reflexivity|]. apply chain_page; [reflexivity|].
    apply chain_end. discriminate.
  - apply Exists_cons_tl, Exists_cons_hd. reflexivity.
  - simpl. lia.
Defined.

Lemma paging_has_no_bound_witness :
  all_responses Demo2.requests_get_forever 1000 = None.
Proof.
  apply (paging_has_no_bound Demo2.requests_get_forever).
  intros k token. eexists. split; reflexivity.
Defined.

(** ** Groups, joins and the tables built from them *)

Section Aggregates.

(** ** Groups *)

Lemma GROUP_BY_keys {A K B} `{EqDecision K} (key : A → K) (agg : K → list A → B)
    (key' : B → K) (rows : list A) :
  (∀ k g, key' (agg k g) = k) →
  key' <$> Sql.GROUP_BY key agg rows = remove_dups (key <$> rows).
Proof.
  intros Hkey. unfold Sql.GROUP_BY. rewrite <- list_fmap_compose.
  rewrite <- (list_fmap_id (remove_dups _)) at 2.
  apply list_fmap_ext. intros i k _. apply Hkey.
Qed.

Lemma group_sizes_cons {A K} `{EqDecision K} (key : A → K) (r : A) (rows : list A)
    (ks : list K) :
  NoDup ks → key r ∈ ks →
  foldr Nat.add 0%nat
    (List.map (λ k, length (List.filter (λ x, bool_decide (key x = k)) (r :: rows))) ks)
  = S (foldr Nat.add 0%nat
         (List.map (λ k, length (List.filter (λ x, bool_decide (key x = k)) rows)) ks)).
Proof.
  induction 1 as [|k ks Hk Hnd IH]; intros Hr; [by apply elem_of_nil in Hr|].
  cbn [List.map foldr List.filter]. destruct (decide (key r = k)) as [Heq|Hne].
  - rewrite bool_decide_eq_true_2 by done. cbn [length].
    replace (List.map (λ k0, length (if bool_decide (key r = k0)
                                     then r :: List.filter (λ x, bool_decide (key x =
                                         k0)) rows
                                     else List.filter (λ x, bool_decide (key x = k0))
                                         rows)) ks)
      with (List.map (λ k0, length (List.filter (λ x, bool_decide (key x = k0)) rows)) ks);
      [simpl; lia|].
    apply map_ext_in. intros k0 Hk0.
    rewrite bool_decide_eq_false_2; [done|].
    intros <-. apply Hk. subst k. by apply list_elem_of_In.
  - rewrite bool_decide_eq_false_2 by done.
    apply elem_of_cons in Hr as [?|Hr]; [done|].
    cbn [List.map foldr List.filter] in IH. rewrite (IH Hr). simpl. lia.
Qed.

(** The groups of [GROUP BY] share out the rows: their sizes add up to the
    number of rows. *)
Lemma group_sizes_total {A K} `{EqDecision K} (key : A → K) (rows : list A) :
  foldr Nat.add 0%nat
    (List.map (λ k, length (List.filter (λ x, bool_decide (key x = k)) rows))
       (remove_dups (key <$> rows)))
  = length rows.
Proof.
  assert (∀ ks, NoDup ks → (∀ r, r ∈ rows → key r ∈ ks) →
            foldr Nat.add 0%nat
              (List.map (λ k, length (List.filter (λ x, bool_decide (key x = k)) rows)) ks)
            = length rows) as H.
  { induction rows as [|r rows IH]; intros ks Hnd Hin.
    - simpl. clear. induction ks; simpl; congruence.
    - rewrite group_sizes_cons by (done || apply Hin; left).
      cbn [length]. f_equal. apply IH; [done|]. intros r' Hr'. apply Hin. by right. }
  apply H; [apply NoDup_remove_dups|].
  intros r Hr. apply elem_of_remove_dups, list_elem_of_fmap. eauto.
Qed.


Lemma filter_unique {A K} `{EqDecision K} (f : A → K) (l : list A) (k : K) :
  NoDup (f <$> l) → k ∈ f <$> l →
  ∃ x, List.filter (λ y, bool_decide (f y = k)) l = [x].
Proof.
  induction l as [|a l IH]; intros Hnd Hk; [by apply elem_of_nil in Hk|].
  rewrite fmap_cons in Hnd, Hk. apply NoDup_cons in Hnd as [Ha Hnd].
  cbn [List.filter]. destruct (decide (f a = k)) as [<-|Hne].
  - rewrite bool_decide_eq_true_2 by done. exists a. f_equal.
    clear IH Hk Hnd. induction l as [|b l IH]; [done|].
    rewrite fmap_cons in Ha. apply not_elem_of_cons in Ha as [Hb Ha].
    cbn [List.filter]. rewrite bool_decide_eq_false_2 by done. by apply IH.
  - rewrite bool_decide_eq_false_2 by done.
    apply elem_of_cons in Hk as [?|Hk]; [done|]. by apply IH.
Qed.

Lemma filter_at_most_one {A K} `{EqDecision K} (f : A → K) (l : list A) (k : K) :
  NoDup (f <$> l) →
  (length (List.filter (λ y, bool_decide (f y = k)) l) ≤ 1)%nat.
Proof.
  intros Hnd. destruct (decide (k ∈ f <$> l)) as [Hk|Hk].
  - destruct (filter_unique f l k Hnd Hk) as [x ->]. done.
  - replace (List.filter _ l) with (@nil A); [simpl; lia|].
    symmetry. induction l as [|a l IH]; [done|].
    rewrite fmap_cons in Hk, Hnd. apply not_elem_of_cons in Hk as [Ha Hk].
    apply NoDup_cons in Hnd as [_ Hnd].
    cbn [List.filter]. rewrite bool_decide_eq_false_2 by done. by apply IH.
Qed.

(** An inner join with a table whose keys are all different, and among which
    every key of the left side is found, keeps every left row with a key
    once, and only those. *)
Lemma JOIN_fst {A B K} `{EqDecision K} (key_a : A → option K) (key_b : B → option K)
    (l : list A) (r : list B) :
  NoDup (key_b <$> r) →
  (∀ a k, a ∈ l → key_a a = Some k → Some k ∈ key_b <$> r) →
  List.map fst (JOIN key_a key_b l r)
    = List.filter (λ a, bool_decide (is_Some (key_a a))) l.
Proof.
  intros Hnd. unfold JOIN. induction l as [|a l IH]; intros Hcover; [done|].
  cbn [flat_map List.filter]. rewrite List.map_app, IH
    by (intros a' k Ha'; apply Hcover; by right). clear IH.
  destruct (key_a a) as [k|] eqn:Hka.
  - rewrite bool_decide_eq_true_2 by done.
    destruct (filter_unique key_b r (Some k) Hnd (Hcover a k ltac:(left) Hka))
      as [x Hx].
    replace (List.filter _ r) with [x]; [done|]. rewrite <- Hx.
    apply filter_ext. intros b. destruct (key_b b) as [y|].
    + apply bool_decide_ext. split; congruence.
    + by rewrite bool_decide_eq_false_2.
  - rewrite bool_decide_eq_false_2 by (by intros [? ?]).
    replace (List.filter _ r) with (@nil B); [done|].
    symmetry. clear. by induction r.
Qed.


Lemma map_fmap {A B} (f : A → B) (l : list A) : List.map f l = f <$> l.
Proof. reflexivity. Qed.

Lemma map_filter_comm {A B} (f : A → B) (P : B → bool) (l : list A) :
  List.map f (List.filter (λ a, P (f a)) l) = List.filter P (List.map f l).
Proof. induction l as [|a l IH]; [done|]. simpl. destruct (P (f a)); simpl; congruence. Qed.

Lemma NoDup_filter_list {A} (P : A → bool) (l : list A) : NoDup l → NoDup (List.filter P l).
Proof.
  induction 1 as [|a l Ha Hnd IH]; [constructor|]. simpl.
  destruct (P a); [|done]. constructor; [|done].
  intros Hin. apply Ha. apply list_elem_of_In, filter_In in Hin as [Hin _].
  by apply list_elem_of_In.
Qed.

(** ** The scaled results *)

Lemma df_boundaries_keys df :
  List.map boundaries_TableName (df_boundaries df)
    = List.filter (λ k, bool_decide (is_Some k))
        (remove_dups (Summary.TableName <$> df)).
Proof.
  unfold df_boundaries.
  set (dfmin := Sql.GROUP_BY Summary.TableName
                  (λ k g, (k, λ c : columns_to_scale, Sql.MIN (col c <$> g))) df).
  set (dfmax := Sql.GROUP_BY Summary.TableName
                  (λ k g, (k, λ c : columns_to_scale, Sql.MAX (col c <$> g))) df).
  assert (fst <$> dfmin = remove_dups (Summary.TableName <$> df)) as Hmin
    by (by apply GROUP_BY_keys).
  assert (fst <$> dfmax = remove_dups (Summary.TableName <$> df)) as Hmax
    by (by apply GROUP_BY_keys).
  rewrite List.map_map.
  change (λ x, boundaries_TableName _) with (λ x : (option string * (columns_to_scale →
      option Q)) * (option string * (columns_to_scale → option Q)), fst (fst x)).
  rewrite <- (List.map_map fst fst), JOIN_fst.
  - rewrite <- Hmin.
    exact (map_filter_comm fst (λ k, bool_decide (is_Some k)) dfmin).
  - rewrite Hmax. apply NoDup_remove_dups.
  - intros a k Ha Hk. rewrite Hmax, <- Hmin.
    apply list_elem_of_fmap. by exists a.
Qed.

Lemma df_boundaries_cover df :
  NoDup (boundaries_TableName <$> df_boundaries df)
  ∧ ∀ r k, r ∈ df → Summary.TableName r = Some k →
           Some k ∈ boundaries_TableName <$> df_boundaries df.
Proof.
  rewrite <- map_fmap, df_boundaries_keys. split.
  - apply NoDup_filter_list, NoDup_remove_dups.
  - intros r k Hr Hk. apply list_elem_of_In, filter_In.
    split; [|by apply bool_decide_eq_true].
    apply list_elem_of_In, elem_of_remove_dups, list_elem_of_fmap. by exists r.
Qed.


(** X8: scaling adds columns and neither drops nor repeats a row that has
    a table name: the rows of the scaled results, without the scaled
    columns, are the rows of the summary whose [TableName] is not NULL, each
    once.  The inner joins on [TableName] drop the rows without one. *)
Theorem scaling_keeps_rows df :
  List.map Scaled.row (df_scaled df)
    = List.filter (λ r, bool_decide (is_Some (Summary.TableName r))) df.
Proof.
  unfold df_scaled. rewrite List.map_map. cbn [Scaled.row].
  change (λ x : Summary.t * Boundaries, x.1) with (@fst Summary.t Boundaries).
  destruct (df_boundaries_cover df) as [Hnd Hcover].
  by apply JOIN_fst.
Qed.

Lemma split_nonempty (regexp_split : string → string → list string) s :
  ∃ piece pieces, Sql.split regexp_split s ":" = piece :: pieces.
Proof. rewrite split_colon. apply split_go_cons. Qed.

Lemma pre_stats_df_TableName Parser regexp_split parsed hist u :
  u ∈ pre_stats_df Parser regexp_split parsed hist → is_Some (Usage.TableName u).
Proof.
  unfold pre_stats_df, step_2, Sql.DISTINCT. intros Hu.
  apply list_elem_of_In, in_map_iff in Hu as (r & <- & Hr).
  apply list_elem_of_In in Hr. rewrite elem_of_remove_dups in Hr.
  apply list_elem_of_In, in_map_iff in Hr as (j & <- & _).
  destruct (split_nonempty regexp_split j.1.1.1) as (p & ps & Hsplit).
  cbn [Usage.TableName fst snd]. rewrite Hsplit. by eexists.
Qed.

Lemma filter_all {A} (P : A → bool) (l : list A) :
  (∀ x, x ∈ l → P x = true) → List.filter P l = l.
Proof.
  induction l as [|a l IH]; intros H; [done|]. simpl.
  rewrite (H a) by left. f_equal. apply IH. intros x Hx. apply H. by right.
Qed.

(** ** The column summary *)

Lemma elem_of_column_level_summary usage row :
  row ∈ column_level_summary usage →
  ∃ g, g = List.filter (λ u, bool_decide ((Usage.TableName u, Usage.ColumnName u)
                                          = (Summary.TableName row, Summary.ColumnName
                                              row)))
             (List.filter has_column (List.filter has_column usage))
    ∧ g ≠ []
    ∧ Summary.isUsedInJoin row = Sql.MAXZ (Some ∘ Usage.isUsedInJoin <$> g)
    ∧ Summary.isUsedInFilter row = Sql.MAXZ (Some ∘ Usage.isUsedInFilter <$> g)
    ∧ Summary.isUsedInGroup row = Sql.MAXZ (Some ∘ Usage.isUsedInGroup <$> g)
    ∧ Summary.NumberOfQueriesUsedInJoin row = Sql.SUMZ (Some ∘ Usage.isUsedInJoin <$> g)
    ∧ Summary.NumberOfQueriesUsedInFilter row
      = Sql.SUMZ (Some ∘ Usage.isUsedInFilter <$> g)
    ∧ Summary.NumberOfQueriesUsedInGroup row
      = Sql.SUMZ (Some ∘ Usage.isUsedInGroup <$> g)
    ∧ Summary.QueryReferenceCount row = Sql.COUNT_DISTINCT (Usage.query_id <$> g).
Proof.
  unfold column_level_summary. intros (k & Hk & ->)%elem_of_GROUP_BY.
  eexists. split; [reflexivity|]. cbn. split; [|by rewrite <- surjective_pairing].
  apply list_elem_of_fmap in Hk as (u & -> & Hu).
  intros Hnil. apply list_elem_of_In in Hu.
  assert (In u []) as []. rewrite <- Hnil. apply filter_In.
  split; [done | by apply bool_decide_eq_true].
Qed.


(** X7: the column summary has one row for each pair of table and column
    name: no two rows share the pair, and the pairs are exactly those of the
    usage rows whose column name has length at least 1. *)
Theorem column_summary_keys usage :
  NoDup (List.map (λ r, (Summary.TableName r, Summary.ColumnName r))
           (column_level_summary usage))
  ∧ ∀ t c,
      (∃ row, row ∈ column_level_summary usage
         ∧ Summary.TableName row = t ∧ Summary.ColumnName row = c)
      ↔ (∃ u, u ∈ usage ∧ has_column u = true
           ∧ Usage.TableName u = t ∧ Usage.ColumnName u = c).
Proof.
  split.
  - unfold column_level_summary. rewrite map_fmap.
    rewrite (GROUP_BY_keys _ _ (λ r, (Summary.TableName r, Summary.ColumnName r)))
      by (by intros [] ?).
    apply NoDup_remove_dups.
  - intros t c. split.
    + intros (row & Hrow & <- & <-). unfold column_level_summary in Hrow.
      apply elem_of_GROUP_BY in Hrow as (k & Hk & ->).
      apply list_elem_of_fmap in Hk as (u & -> & Hu).
      apply list_elem_of_In, filter_In in Hu as [Hu _].
      apply filter_In in Hu as [Hu Hc]. exists u.
      split_and!; [by apply list_elem_of_In | done..].
    + intros (u & Hu & Hc & <- & <-). by apply summary_has_group.
Qed.

Lemma non_null_Some {A} (l : list A) : Sql.non_null (Some <$> l) = l.
Proof. unfold Sql.non_null. induction l as [|x l IH]; [done|]. cbn. by rewrite IH. Qed.

Lemma flags_max_sum (l : list Z) :
  l ≠ [] → (∀ x, x ∈ l → x = 0 ∨ x = 1)%Z →
  flag_and_count (Sql.MAXZ (Some <$> l)) (Sql.SUMZ (Some <$> l)).
Proof.
  intros Hne Hbit. unfold flag_and_count, Sql.MAXZ, Sql.SUMZ.
  rewrite non_null_Some. destruct l as [|x l]; [done|]. clear Hne.
  exists (foldr Z.max x l), (foldr Z.add 0%Z (x :: l)).
  split; [done|]. split; [done|].
  assert ((foldr Z.max x l = 0 ∧ foldr Z.add 0 l = 0 ∧ x = 0)
          ∨ (foldr Z.max x l = 1 ∧ 0 ≤ foldr Z.add 0 l ∧ 1 ≤ x + foldr Z.add 0 l))%Z
    as H.
  { induction l as [|y l IH].
    - simpl. destruct (Hbit x) as [->| ->]; [left | |]; [lia|right; lia].
    - destruct IH as [(Hm & Hs & Hx)|(Hm & Hs & Hx)].
      { intros z [->|Hz]%elem_of_cons; apply Hbit; [left | do 2 right]; done. }
      + simpl. rewrite Hm, Hs.
        destruct (Hbit y) as [->| ->]; [right; left | left | right]; lia.
      + simpl. rewrite Hm.
        destruct (Hbit y) as [->| ->]; [right; left | right | right]; lia. }
  simpl. destruct H as [(? & ? & ?)|(? & ? & ?)]; [left | right]; lia.
Qed.

Lemma checkIfColumn_bit Parser section sqlString columnName :
  (checkIfColumn Parser section sqlString columnName = 0
   ∨ checkIfColumn Parser section sqlString columnName = 1)%Z.
Proof.
  unfold checkIfColumn. destruct (Parser sqlString) as [r|]; simpl; [|by left].
  destruct (columns_dict r) as [d|]; simpl; [|by left].
  destruct (d !! section); [|by left]. case_bool_decide; [by right | by left].
Qed.

Lemma udf_bit Parser section sqlString columnName :
  (udf (checkIfColumn Parser section) sqlString columnName = 0
   ∨ udf (checkIfColumn Parser section) sqlString columnName = 1)%Z.
Proof. destruct columnName; simpl; [apply checkIfColumn_bit | by left]. Qed.

Lemma summary_flags Parser regexp_split parsed hist row :
  row ∈ column_level_summary (pre_stats_df Parser regexp_split parsed hist) →
  flag_and_count (Summary.isUsedInJoin row) (Summary.NumberOfQueriesUsedInJoin row)
  ∧ flag_and_count (Summary.isUsedInFilter row)
      (Summary.NumberOfQueriesUsedInFilter row)
  ∧ flag_and_count (Summary.isUsedInGroup row) (Summary.NumberOfQueriesUsedInGroup row).
Proof.
  intros (g & Hg & Hne & -> & -> & -> & -> & -> & -> & _)%elem_of_column_level_summary.
  assert (∀ u, u ∈ g → u ∈ pre_stats_df Parser regexp_split parsed hist) as Hsub.
  { intros u Hu. rewrite Hg in Hu.
    apply list_elem_of_In, filter_In in Hu as [Hu _].
    apply filter_In in Hu as [Hu _]. apply filter_In in Hu as [Hu _].
    by apply list_elem_of_In. }
  assert (∀ f : Usage.t → Z,
            (∀ u, u ∈ pre_stats_df Parser regexp_split parsed hist → f u = 0 ∨ f u = 1)%Z →
            flag_and_count (Sql.MAXZ (Some ∘ f <$> g)) (Sql.SUMZ (Some ∘ f <$> g)))
    as Hflag.
  { intros f Hf. rewrite (list_fmap_compose f Some). apply flags_max_sum.
    - by destruct g.
    - intros x (u & -> & Hu)%list_elem_of_fmap. auto. }
  split_and!; apply Hflag; intros u Hu; unfold pre_stats_df in Hu;
    apply list_elem_of_In, in_map_iff in Hu as (r & <- & _); apply udf_bit.
Qed.

(** X6: in every row of the column summary of a run, each use flag and its
    count agree, and neither is NULL: the flag is 0 and the count is 0, or
    the flag is 1 and the count is at least 1.  The checks answer 0 or 1 and
    nothing else, also when the parse of the statement raises. *)
Theorem usage_flags_and_counts Parser regexp_split parsed hist :
  Forall
    (λ row,
       flag_and_count (Summary.isUsedInJoin row) (Summary.NumberOfQueriesUsedInJoin row)
       ∧ flag_and_count (Summary.isUsedInFilter row)
           (Summary.NumberOfQueriesUsedInFilter row)
       ∧ flag_and_count (Summary.isUsedInGroup row)
           (Summary.NumberOfQueriesUsedInGroup row))
    (column_level_summary (pre_stats_df Parser regexp_split parsed hist)).
Proof.
  apply Forall_forall. intros row Hrow.
  by apply (summary_flags Parser regexp_split parsed hist).
Qed.


(** ** The query statistics *)

Lemma sum_of_nat (l : list nat) :
  foldr Z.add 0%Z (Z.of_nat <$> l) = Z.of_nat (foldr Nat.add 0%nat l).
Proof. induction l as [|n l IH]; [done|]. cbn. rewrite IH. lia. Qed.

(** X4: the statistics summary has one row for each query id among the
    finished or cancelled SELECT records of the raw table, and no other; a
    row counts at least one run, and the counts of all rows add up to the
    number of those records: every stored record counts as one run, so a
    record that was stored twice counts as two. *)
Theorem statistics_share_out_the_runs raw :
  NoDup (Stats.query_id <$> raw_query_stats raw)
  ∧ (∀ q, q ∈ Stats.query_id <$> raw_query_stats raw
          ↔ q ∈ Raw.query_id <$> counted raw)
  ∧ (∀ s, s ∈ raw_query_stats raw → (1 ≤ Stats.TotalQueryRuns s)%Z)
  ∧ foldr Z.add 0%Z (Stats.TotalQueryRuns <$> raw_query_stats raw)
    = Z.of_nat (length (counted raw)).
Proof.
  unfold raw_query_stats. fold (counted raw).
  assert (Stats.query_id <$> Sql.GROUP_BY Raw.query_id
            (λ query_id g,
               {| Stats.query_id := query_id;
                  Stats.AverageQueryDuration := Sql.AVG (Raw.duration <$> g);
                  Stats.AverageRowsProduced := Sql.AVG (Raw.rows_produced <$> g);
                  Stats.TotalQueryRuns := Sql.COUNT_star g;
                  Stats.DurationTimesRuns :=
                    Sql.times (Sql.AVG (Raw.duration <$> g))
                      (Some (inject_Z (Sql.COUNT_star g))) |})
            (counted raw)
          = remove_dups (Raw.query_id <$> counted raw)) as Hkeys
    by (by apply GROUP_BY_keys).
  split_and!.
  - rewrite Hkeys. apply NoDup_remove_dups.
  - intros q. rewrite Hkeys. apply elem_of_remove_dups.
  - intros s (k & Hk & ->)%elem_of_GROUP_BY. cbn [Stats.TotalQueryRuns].
    apply list_elem_of_fmap in Hk as (r & -> & Hr).
    unfold Sql.COUNT_star.
    destruct (List.filter _ (counted raw)) as [|x g] eqn:Hg; [|simpl; lia].
    apply list_elem_of_In in Hr.
    assert (In r []) as []. rewrite <- Hg. apply filter_In.
    split; [done | by apply bool_decide_eq_true].
  - unfold Sql.GROUP_BY. rewrite <- list_fmap_compose.
    rewrite <- (group_sizes_total Raw.query_id (counted raw)).
    rewrite <- sum_of_nat. change (List.map ?f ?l) with (f <$> l).
    rewrite <- list_fmap_compose. reflexivity.
Qed.

(** ** The join with the statistics *)

Lemma LEFT_JOIN_fst {A} (key : A → string) (root : list A) (hist : list Stats.t) :
  NoDup (Stats.query_id <$> hist) →
  List.map fst (LEFT_JOIN key root hist) = root.
Proof.
  intros Hnd. unfold LEFT_JOIN. induction root as [|a root IH]; [done|].
  cbn [flat_map]. rewrite List.map_app, IH. clear IH.
  pose proof (filter_at_most_one Stats.query_id hist (key a) Hnd) as Hlen.
  destruct (List.filter _ hist) as [|h [|h' hs]]; simpl in *; [done..|lia].
Qed.

(** X5: the left join with the statistics summary neither drops nor
    repeats a column reference of a parsed query: the summary has at most one
    row for a query id. *)
Theorem statistics_join_keeps_references (parsed : list Parsed.t) (raw : list Raw.t) :
  List.map fst
    (LEFT_JOIN (λ r : string * string * string, r.1.2)
       (exploded_parsed_cols parsed) (raw_query_stats raw))
  = exploded_parsed_cols parsed.
Proof.
  apply LEFT_JOIN_fst. unfold raw_query_stats.
  erewrite GROUP_BY_keys by done. apply NoDup_remove_dups.
Qed.

(** X9: every row of the column summary of a run comes with a table name,
    so the scaled results of the run have exactly the rows of its column
    summary: no column is lost or repeated by the scaling. *)
Theorem scaled_results_cover_the_summary Parser regexp_split parsed hist :
  List.map Scaled.row
    (df_scaled (column_level_summary (pre_stats_df Parser regexp_split parsed hist)))
  = column_level_summary (pre_stats_df Parser regexp_split parsed hist).
Proof.
  unfold df_scaled at 1. rewrite List.map_map. cbn [Scaled.row].
  change (λ x : Summary.t * Boundaries, x.1) with (@fst Summary.t Boundaries).
  destruct (df_boundaries_cover
              (column_level_summary (pre_stats_df Parser regexp_split parsed hist)))
    as [Hnd Hcover].
  rewrite JOIN_fst by done. apply filter_all. intros row Hrow.
  apply bool_decide_eq_true.
  unfold column_level_summary in Hrow.
  apply elem_of_GROUP_BY in Hrow as (k & Hk & ->).
  apply list_elem_of_fmap in Hk as (u & -> & Hu). cbn [Summary.TableName fst].
  apply list_elem_of_In, filter_In in Hu as [Hu _].
  apply filter_In in Hu as [Hu _].
  apply (pre_stats_df_TableName Parser regexp_split parsed hist). by apply list_elem_of_In.
Qed.

End Aggregates.

(** ** The upsert of the parsed queries *)

Section Merge.

Variable Parser : string → result ParserResults.

Lemma traverse_pairs {A B C} (f : A → result B) (g : B → C) (h : A → C) l bs :
  (∀ a b, f a = Ok b → g b = h a) →
  traverse f l = Ok bs → List.map g bs = List.map h l.
Proof.
  intros Hf. revert bs. induction l as [|a l IH]; intros bs; simpl.
  - by intros [= <-].
  - destruct (f a) as [b|] eqn:Hb; simpl; [|done].
    destruct (traverse f l) as [bs'|]; simpl; [|done].
    intros [= <-]. simpl. by rewrite (Hf a b Hb), (IH bs').
Qed.

Lemma new_parsed_pairs raw source :
  new_parsed Parser raw = Ok source →
  List.map (λ p, (Parsed.query_id p, Parsed.query_text p)) source
  = remove_dups (List.map (λ r, (Raw.query_id r, Raw.query_text r)) raw).
Proof.
  unfold new_parsed, Sql.DISTINCT. intros H.
  erewrite (traverse_pairs _ _ id); [apply List.map_id | | exact H].
  intros [q t] b. cbn [fst snd].
  destruct (getParsedFilteredColumnsinSQL Parser t); simpl; [|done].
  by intros [= <-].
Qed.

Lemma two_in_filter {A} `{EqDecision A} (P : A → bool) (l : list A) :
  NoDup l →
  (1 < length (List.filter P l))%nat
  ↔ ∃ x y, x ∈ l ∧ y ∈ l ∧ x ≠ y ∧ P x = true ∧ P y = true.
Proof.
  intros Hnd. split.
  - intros Hlen.
    assert (NoDup (List.filter P l)) as Hnd'.
    { clear Hlen. induction Hnd as [|a l Ha Hnd IH]; [constructor|]. simpl.
      destruct (P a); [|done]. constructor; [|done].
      intros Hin. apply Ha. apply list_elem_of_In, filter_In in Hin as [Hin _].
      by apply list_elem_of_In. }
    destruct (List.filter P l) as [|x [|y g]] eqn:Hg; simpl in Hlen; [lia..|].
    assert (In x (List.filter P l)) as [Hx Hpx]%filter_In by (rewrite Hg; by left).
    assert (In y (List.filter P l)) as [Hy Hpy]%filter_In
      by (rewrite Hg; right; by left).
    exists x, y. split_and!; try done; try by apply list_elem_of_In.
    apply NoDup_cons in Hnd' as [Hxy _]. intros ->. apply Hxy. left.
  - intros (x & y & Hx & Hy & Hxy & Hpx & Hpy).
    assert (x ∈ List.filter P l) as Hx'
      by (apply list_elem_of_In, filter_In; split; [by apply list_elem_of_In | done]).
    assert (y ∈ List.filter P l) as Hy'
      by (apply list_elem_of_In, filter_In; split; [by apply list_elem_of_In | done]).
    destruct (List.filter P l) as [|a [|b g]]; simpl; [| |lia].
    + by apply elem_of_nil in Hx'.
    + apply list_elem_of_singleton in Hx', Hy'. congruence.
Qed.

Lemma source_matches_length raw source t :
  new_parsed Parser raw = Ok source →
  length (source_matches source t)
  = length (List.filter (λ x : string * string, bool_decide (x.1 = Parsed.query_id t))
              (remove_dups (List.map (λ r, (Raw.query_id r, Raw.query_text r)) raw))).
Proof.
  intros H. rewrite <- (new_parsed_pairs raw source H). unfold source_matches.
  clear H. induction source as [|s source IH]; [done|]. simpl.
  destruct (bool_decide _); simpl; by rewrite IH.
Qed.

Lemma refused_source_matches raw source t :
  new_parsed Parser raw = Ok source →
  (1 < length (source_matches source t))%nat ↔ ambiguous raw (Parsed.query_id t).
Proof.
  intros H. rewrite (source_matches_length raw source t H).
  rewrite two_in_filter by apply NoDup_remove_dups. unfold ambiguous. split.
  - intros ([q1 t1] & [q2 t2] & H1 & H2 & Hne & Hq1 & Hq2).
    rewrite elem_of_remove_dups in H1. rewrite elem_of_remove_dups in H2.
    apply list_elem_of_In, in_map_iff in H1 as (r1 & [= <- <-] & Hr1).
    apply list_elem_of_In, in_map_iff in H2 as (r2 & [= <- <-] & Hr2).
    apply bool_decide_eq_true in Hq1, Hq2. cbn [fst] in Hq1, Hq2.
    exists r1, r2. split_and!; try done; try by apply list_elem_of_In.
    intros Ht. apply Hne. congruence.
  - intros (r1 & r2 & Hr1 & Hr2 & Hq1 & Hq2 & Hne).
    exists (Raw.query_id r1, Raw.query_text r1), (Raw.query_id r2, Raw.query_text r2).
    split_and!.
    + apply elem_of_remove_dups, list_elem_of_In, in_map_iff. exists r1.
      split; [done | by apply list_elem_of_In].
    + apply elem_of_remove_dups, list_elem_of_In, in_map_iff. exists r2.
      split; [done | by apply list_elem_of_In].
    + congruence.
    + by apply bool_decide_eq_true.
    + by apply bool_decide_eq_true.
Qed.

Lemma MERGE_refused raw source target :
  new_parsed Parser raw = Ok source →
  MERGE target source = Raise "DELTA_MULTIPLE_SOURCE_ROW_MATCHING_TARGET_ROW_IN_MERGE"
  ↔ ∃ t, t ∈ target ∧ ambiguous raw (Parsed.query_id t).
Proof.
  intros H. unfold MERGE.
  destruct (existsb _ target) eqn:Hcheck.
  - split; [intros _ | done].
    apply existsb_exists in Hcheck as (t & Ht & Hlen).
    exists t. split; [by apply list_elem_of_In|].
    apply (refused_source_matches raw source t H). by apply Nat.ltb_lt.
  - split; [done|]. intros (t & Ht & Hamb).
    rewrite existsb_False in Hcheck. specialize (Hcheck t Ht).
    apply Nat.ltb_ge in Hcheck.
    apply (refused_source_matches raw source t H) in Hamb. lia.
Qed.

(** X10: the upsert of the queries of a raw table is refused exactly when
    a query id that the parsed queries already hold comes in the raw table
    with two different texts.  Records that repeat a query id with the same
    text are one source row and do no harm. *)
Theorem merge_refused_iff raw source target :
  new_parsed Parser raw = Ok source →
  (∃ e, MERGE target source = Raise e)
  ↔ ∃ t, t ∈ target ∧ ambiguous raw (Parsed.query_id t).
Proof.
  intros H. rewrite <- (MERGE_refused raw source target H). split; [|by eauto].
  intros [e He]. unfold MERGE in *. by destruct (existsb _ target).
Qed.

Lemma MERGE_query_ids target source merged :
  MERGE target source = Ok merged →
  Parsed.query_id <$> merged
  = (Parsed.query_id <$> target) ++ (Parsed.query_id <$> when_not_matched target source).
Proof.
  unfold MERGE. destruct (existsb _ target); [done|]. intros [= <-].
  rewrite fmap_app. f_equal.
  change (List.map ?f ?l) with (f <$> l). rewrite <- list_fmap_compose.
  apply list_fmap_ext. intros i t _. apply when_matched_query_id.
Qed.

Lemma MERGE_covers_source target source merged s :
  MERGE target source = Ok merged → s ∈ source →
  Parsed.query_id s ∈ Parsed.query_id <$> merged.
Proof.
  intros Hm Hs. rewrite (MERGE_query_ids _ _ _ Hm). apply elem_of_app.
  destruct (existsb (λ t, bool_decide (Parsed.query_id s = Parsed.query_id t)) target)
    eqn:Hex.
  - left. apply existsb_exists in Hex as (t & Ht & Heq).
    apply bool_decide_eq_true in Heq. rewrite Heq.
    apply list_elem_of_fmap. exists t. split; [done | by apply list_elem_of_In].
  - right. apply list_elem_of_fmap. exists s. split; [done|].
    apply list_elem_of_In, filter_In. split; [by apply list_elem_of_In|].
    by rewrite Hex.
Qed.

(** X11: the upsert never deletes: the query ids of the target are the
    first query ids of the merged table, the merged table
    holds the ids of the target and of the source and no other, and the rows
    after those of the target are source rows whose id the target did not
    hold. *)
Theorem merge_never_deletes target source merged :
  MERGE target source = Ok merged →
  (Parsed.query_id <$> target) `prefix_of` (Parsed.query_id <$> merged)
  ∧ (∀ q, q ∈ Parsed.query_id <$> merged
          ↔ q ∈ Parsed.query_id <$> target ∨ q ∈ Parsed.query_id <$> source)
  ∧ (∀ m, m ∈ drop (length target) merged →
          m ∈ source ∧ Parsed.query_id m ∉ Parsed.query_id <$> target).
Proof.
  intros Hm. split_and!.
  - rewrite (MERGE_query_ids _ _ _ Hm). by eexists.
  - intros q. split.
    + rewrite (MERGE_query_ids _ _ _ Hm). intros [Hq|Hq]%elem_of_app; [by left|].
      right. apply list_elem_of_fmap in Hq as (s & -> & Hs).
      apply list_elem_of_In, filter_In in Hs as [Hs _].
      apply list_elem_of_fmap. exists s. split; [done | by apply list_elem_of_In].
    + intros [Hq|Hq].
      * rewrite (MERGE_query_ids _ _ _ Hm). apply elem_of_app. by left.
      * apply list_elem_of_fmap in Hq as (s & -> & Hs).
        by apply (MERGE_covers_source target source).
  - unfold MERGE in Hm. destruct (existsb _ target); [done|].
    injection Hm as <-. intros m.
    rewrite drop_app_length' by (by rewrite length_map).
    intros [Hs Hno]%list_elem_of_In%filter_In. split; [by apply list_elem_of_In|].
    apply negb_true_iff in Hno. rewrite existsb_False in Hno.
    intros (t & Heq & Ht)%list_elem_of_fmap.
    specialize (Hno t Ht). by apply bool_decide_eq_false in Hno.
Qed.

End Merge.

Lemma merge_refused_iff_witness :
  (∃ e, MERGE [Demo.filter_query] [Demo.filter_query; Demo2.status_query "q1"]
        = Raise e)
  ↔ ∃ t, t ∈ [Demo.filter_query] ∧ ambiguous Demo2.two_texts (Parsed.query_id t).
Proof.
  apply (merge_refused_iff Demo.Parser Demo2.two_texts
           [Demo.filter_query; Demo2.status_query "q1"] [Demo.filter_query]).
  reflexivity.
Defined.

Lemma merge_never_deletes_witness :
  (Parsed.query_id <$> [Demo.filter_query])
    `prefix_of` (Parsed.query_id <$> [Demo.filter_query; Demo2.status_query "q2"])
  ∧ (∀ q, q ∈ Parsed.query_id <$> [Demo.filter_query; Demo2.status_query "q2"]
          ↔ q ∈ Parsed.query_id <$> [Demo.filter_query]
            ∨ q ∈ Parsed.query_id <$> [Demo2.status_query "q2"])
  ∧ (∀ m, m ∈ drop (length [Demo.filter_query])
                  [Demo.filter_query; Demo2.status_query "q2"] →
          m ∈ [Demo2.status_query "q2"]
          ∧ Parsed.query_id m ∉ Parsed.query_id <$> [Demo.filter_query]).
Proof.
  apply (merge_never_deletes [Demo.filter_query] [Demo2.status_query "q2"]
           [Demo.filter_query; Demo2.status_query "q2"]).
  reflexivity.
Defined.

(** ** Runs on the database [delta_optimizer] *)

Section RunFacts.

Variable Parser : string → result ParserResults.
Variable regexp_split : string → string → list string.
Variable workspace_url : string.
Variable warehouse_ids_list : list string.

Lemma insert_query_history_delta_log_appends database_name start_ts_ms end_ts_ms s s' :
  insert_query_history_delta_log workspace_url warehouse_ids_list database_name
    start_ts_ms end_ts_ms s = Ok s' ↔
  ∃ rows, query_history_log s !! database_name = Some rows
    ∧ s' = set_query_history_log
             (<[database_name :=
                  rows ++ [{| Log.WarehouseIds := warehouse_ids_list;
                              Log.WorkspaceName := workspace_url;
                              Log.StartTimestamp := start_ts_ms;
                              Log.EndTimestamp := end_ts_ms |}]]>
                (query_history_log s)) s.
Proof.
  unfold insert_query_history_delta_log. rewrite bind_Ok. setoid_rewrite table_Ok.
  split; intros (rows & ? & ?); exists rows; split; congruence.
Qed.

Lemma MERGE_empty_target source : MERGE [] source = Ok source.
Proof.
  unfold MERGE, when_not_matched. simpl. f_equal.
  induction source as [|a l IH]; [done|]. simpl. by rewrite IH.
Qed.

(** ** A run that nothing interrupts *)

Lemma run_closed_form interrupted all_responses start_ts_ms end_ts_ms s r0 l0 p0 :
  createDataFrame all_responses = Ok all_responses →
  (∀ k, interrupted k = None) →
  raw_query_history_statistics s !! "delta_optimizer" = Some r0 →
  query_history_log s !! "delta_optimizer" = Some l0 →
  parsed_distinct_queries s !! "delta_optimizer" = Some p0 →
  ∃ source s',
    new_parsed Parser (r0 ++ select_statements all_responses) = Ok source
    ∧ raw_query_history_statistics s' !! "delta_optimizer"
      = Some (r0 ++ select_statements all_responses)
    ∧ query_history_log s' !! "delta_optimizer"
      = Some (l0 ++ [{| Log.WarehouseIds := warehouse_ids_list;
                        Log.WorkspaceName := workspace_url;
                        Log.StartTimestamp := start_ts_ms;
                        Log.EndTimestamp := end_ts_ms |}])
    ∧ match MERGE p0 source with
      | Ok merged =>
          build_query_history_profile Parser regexp_split workspace_url warehouse_ids_list
            "delta_optimizer" interrupted all_responses start_ts_ms end_ts_ms s
            = (s', Ok ())
          ∧ parsed_distinct_queries s' !! "delta_optimizer" = Some merged
          ∧ published "delta_optimizer" s'
            = (Some (column_level_summary
                       (pre_stats_df Parser regexp_split merged
                          (raw_query_stats (r0 ++ select_statements all_responses)))),
               Some (df_scaled
                       (column_level_summary
                          (pre_stats_df Parser regexp_split merged
                             (raw_query_stats (r0 ++ select_statements all_responses))))))
      | Raise e =>
          build_query_history_profile Parser regexp_split workspace_url warehouse_ids_list
            "delta_optimizer" interrupted all_responses start_ts_ms end_ts_ms s
            = (s', Raise e)
          ∧ parsed_distinct_queries s' !! "delta_optimizer" = Some p0
          ∧ published "delta_optimizer" s' = published "delta_optimizer" s
      end.
Proof.
  intros Hframe Hint Hraw Hlog Hparsed.
  destruct (new_parsed_never_raises Parser (r0 ++ select_statements all_responses))
    as [source Hsource].
  set (raw' := r0 ++ select_statements all_responses) in *.
  set (s1 := set_raw_query_history_statistics
               (<["delta_optimizer" := raw']> (raw_query_history_statistics s)) s).
  assert (insert_raw "delta_optimizer" all_responses s = Ok s1) as H1
    by (apply insert_raw_Ok; eauto).
  set (entry := {| Log.WarehouseIds := warehouse_ids_list;
                   Log.WorkspaceName := workspace_url;
                   Log.StartTimestamp := start_ts_ms;
                   Log.EndTimestamp := end_ts_ms |}).
  set (s2 := set_query_history_log
               (<["delta_optimizer" := l0 ++ [entry]]> (query_history_log s1)) s1).
  assert (insert_query_history_delta_log workspace_url warehouse_ids_list
            "delta_optimizer" start_ts_ms end_ts_ms s1 = Ok s2) as H2
    by (apply insert_query_history_delta_log_appends; eauto).
  set (s3 := set_query_summary_statistics
               (<["delta_optimizer" := raw_query_stats raw']>
                  (query_summary_statistics s2)) s2).
  assert (replace_query_summary_statistics s2 = Ok s3) as H3.
  { apply replace_query_summary_statistics_Ok. exists raw'.
    split; [apply lookup_insert_eq | done]. }
  exists source.
  destruct (build_cases Parser regexp_split workspace_url warehouse_ids_list
              "delta_optimizer" interrupted all_responses start_ts_ms end_ts_ms s)
    as [(e0 & He0 & _)|[_ ->]]; [congruence|].
  cbn [run]. rewrite !Hint, H1, H2, H3.
  destruct (MERGE p0 source) as [merged|e] eqn:Hmerge.
  - set (s4 := set_parsed_distinct_queries
                 (<["delta_optimizer" := merged]> (parsed_distinct_queries s3)) s3).
    assert (merge_parsed_distinct_queries Parser "delta_optimizer" s3 = Ok s4) as H4.
    { apply merge_parsed_distinct_queries_Ok. exists raw', source, p0, merged.
      split_and!; try done. apply lookup_insert_eq. }
    set (usage := pre_stats_df Parser regexp_split merged (raw_query_stats raw')).
    set (s5 := set_query_column_statistics
                 (<["delta_optimizer" := usage]> (query_column_statistics s4)) s4).
    assert (replace_query_column_statistics Parser regexp_split "delta_optimizer" s4 =
        Ok s5) as H5.
    { apply replace_query_column_statistics_Ok. exists merged, (raw_query_stats raw').
      split_and!; try done; apply lookup_insert_eq. }
    set (s6 := set_read_statistics_column_level_summary
                 (<["delta_optimizer" := column_level_summary usage]>
                    (read_statistics_column_level_summary s5)) s5).
    assert (replace_column_level_summary "delta_optimizer" s5 = Ok s6) as H6.
    { apply replace_column_level_summary_Ok. exists usage.
      split; [apply lookup_insert_eq | done]. }
    set (s7 := set_read_statistics_scaled_results
                 (<["delta_optimizer" := df_scaled (column_level_summary usage)]>
                    (read_statistics_scaled_results s6)) s6).
    assert (replace_scaled_results "delta_optimizer" s6 = Ok s7) as H7.
    { apply replace_scaled_results_Ok. exists (column_level_summary usage).
      split; [apply lookup_insert_eq | done]. }
    exists s7. rewrite H4, H5, H6, H7.
    split_and!; try done; try apply lookup_insert_eq.
    unfold published. f_equal; apply lookup_insert_eq.
  - assert (merge_parsed_distinct_queries Parser "delta_optimizer" s3 = Raise e) as H4.
    { unfold merge_parsed_distinct_queries, table. simpl.
      rewrite lookup_insert_eq. simpl. fold raw'. rewrite Hsource. simpl.
      rewrite Hparsed. simpl. by rewrite Hmerge. }
    exists s3. rewrite H4. split_and!; try done; apply lookup_insert_eq.
Qed.

(** X12: a run that nothing interrupts, on a database [delta_optimizer]
    that has the three tables of [__init__].  When the fetched records give
    no data frame (none was fetched, or a column has no value at all) the
    run raises before any statement and the catalog is as it was.  Otherwise
    it appends the fetched SELECT records to the raw table and then goes one
    of two ways, by the upsert alone.  If the upsert is accepted the run
    completes, and it publishes the column summary, and its scaling, of the
    merged queries joined with the statistics of the whole raw table.  If
    the upsert is refused the run raises its error, with the parsed queries
    and both published tables as they were. *)
Theorem uninterrupted_run interrupted all_responses start_ts_ms end_ts_ms s r0 l0 p0 :
  (∀ k, interrupted k = None) →
  raw_query_history_statistics s !! "delta_optimizer" = Some r0 →
  query_history_log s !! "delta_optimizer" = Some l0 →
  parsed_distinct_queries s !! "delta_optimizer" = Some p0 →
  match createDataFrame all_responses with
  | Raise e =>
      build_query_history_profile Parser regexp_split workspace_url warehouse_ids_list
        "delta_optimizer" interrupted all_responses start_ts_ms end_ts_ms s
      = (s, Raise e)
  | Ok raw =>
      ∃ source s',
        new_parsed Parser (r0 ++ select_statements raw) = Ok source
        ∧ raw_query_history_statistics s' !! "delta_optimizer"
          = Some (r0 ++ select_statements raw)
        ∧ match MERGE p0 source with
          | Ok merged =>
              build_query_history_profile Parser regexp_split workspace_url
                warehouse_ids_list "delta_optimizer" interrupted all_responses
                start_ts_ms end_ts_ms s
              = (s', Ok ())
              ∧ parsed_distinct_queries s' !! "delta_optimizer" = Some merged
              ∧ published "delta_optimizer" s'
                = (Some (column_level_summary
                           (pre_stats_df Parser regexp_split merged
                              (raw_query_stats (r0 ++ select_statements raw)))),
                   Some (df_scaled
                           (column_level_summary
                              (pre_stats_df Parser regexp_split merged
                                 (raw_query_stats (r0 ++ select_statements raw))))))
          | Raise e =>
              build_query_history_profile Parser regexp_split workspace_url
                warehouse_ids_list "delta_optimizer" interrupted all_responses
                start_ts_ms end_ts_ms s
              = (s', Raise e)
              ∧ parsed_distinct_queries s' !! "delta_optimizer" = Some p0
              ∧ published "delta_optimizer" s' = published "delta_optimizer" s
          end
  end.
Proof.
  intros Hint Hraw Hlog Hparsed.
  destruct (createDataFrame all_responses) as [raw|e] eqn:Hframe.
  - pose proof (createDataFrame_Ok _ _ Hframe) as ->.
    destruct (run_closed_form interrupted all_responses start_ts_ms end_ts_ms s r0 l0 p0
                Hframe Hint Hraw Hlog Hparsed)
      as (source & s' & Hsource & Hraw' & _ & Hrun).
    by exists source, s'.
  - destruct (build_cases Parser regexp_split workspace_url warehouse_ids_list
                "delta_optimizer" interrupted all_responses start_ts_ms end_ts_ms s)
      as [(e0 & He0 & Hrun)|[He0 _]]; congruence.
Qed.

Lemma init_tables s :
  (∃ r0, raw_query_history_statistics (__init__ "delta_optimizer" s)
           !! "delta_optimizer" = Some r0)
  ∧ (∃ l0, query_history_log (__init__ "delta_optimizer" s)
             !! "delta_optimizer" = Some l0)
  ∧ (parsed_distinct_queries s !! "delta_optimizer" = None →
     parsed_distinct_queries (__init__ "delta_optimizer" s)
       !! "delta_optimizer" = Some []).
Proof.
  unfold __init__, create_table_if_not_exists. cbn. split_and!.
  - destruct (raw_query_history_statistics s !! "delta_optimizer") eqn:E;
      [eauto | rewrite lookup_insert_eq; eauto].
  - destruct (query_history_log s !! "delta_optimizer") eqn:E;
      [eauto | rewrite lookup_insert_eq; eauto].
  - intros ->. apply lookup_insert_eq.
Qed.

(** X13: on a catalog without parsed queries for [delta_optimizer], the
    first run after [__init__] that nothing interrupts completes exactly when
    the records it fetched give a data frame, whatever the other tables
    hold; with nothing fetched it raises. *)
Theorem first_run_completes interrupted all_responses start_ts_ms end_ts_ms s :
  (∀ k, interrupted k = None) →
  parsed_distinct_queries s !! "delta_optimizer" = None →
  (∃ s', build_query_history_profile Parser regexp_split workspace_url
           warehouse_ids_list "delta_optimizer" interrupted all_responses
           start_ts_ms end_ts_ms (__init__ "delta_optimizer" s)
         = (s', Ok ()))
  ↔ ∃ raw, createDataFrame all_responses = Ok raw.
Proof.
  intros Hint Hnone. split.
  - intros [s' Hrun].
    destruct (build_cases Parser regexp_split workspace_url warehouse_ids_list
                "delta_optimizer" interrupted all_responses start_ts_ms end_ts_ms
                (__init__ "delta_optimizer" s))
      as [(e0 & _ & Hraise)|[Hframe _]]; [congruence | eauto].
  - intros [raw Hframe]. pose proof (createDataFrame_Ok _ _ Hframe) as ->.
    destruct (init_tables s) as ([r0 Hraw] & [l0 Hlog] & Hparsed).
    destruct (run_closed_form interrupted all_responses start_ts_ms end_ts_ms _ r0 l0 []
                Hframe Hint Hraw Hlog (Hparsed Hnone))
      as (source & s' & _ & _ & _ & Hrun).
    rewrite MERGE_empty_target in Hrun. exists s'. apply Hrun.
Qed.


Lemma truncate_tables s r0 l0 p0 :
  raw_query_history_statistics s !! "delta_optimizer" = Some r0 →
  query_history_log s !! "delta_optimizer" = Some l0 →
  parsed_distinct_queries s !! "delta_optimizer" = Some p0 →
  raw_query_history_statistics (truncate_delta_optimizer_results "delta_optimizer" s)
    !! "delta_optimizer" = Some []
  ∧ query_history_log (truncate_delta_optimizer_results "delta_optimizer" s)
      !! "delta_optimizer" = Some []
  ∧ parsed_distinct_queries (truncate_delta_optimizer_results "delta_optimizer" s)
      !! "delta_optimizer" = Some [].
Proof.
  intros Hraw Hlog Hparsed.
  unfold truncate_delta_optimizer_results, truncate_table. cbn.
  rewrite !lookup_alter_eq, Hraw, Hlog, Hparsed. done.
Qed.

(** X14: after [truncate_delta_optimizer_results] a run that nothing
    interrupts, and whose records give a data frame, completes, and what it
    stores and publishes comes from the records it fetched alone: nothing of
    the earlier history is left in the raw table, the parsed queries or the
    published tables. *)
Theorem run_after_truncate interrupted all_responses raw start_ts_ms end_ts_ms s :
  (∀ k, interrupted k = None) →
  createDataFrame all_responses = Ok raw →
  is_Some (raw_query_history_statistics s !! "delta_optimizer") →
  is_Some (query_history_log s !! "delta_optimizer") →
  is_Some (parsed_distinct_queries s !! "delta_optimizer") →
  ∃ source s',
    new_parsed Parser (select_statements raw) = Ok source
    ∧ build_query_history_profile Parser regexp_split workspace_url warehouse_ids_list
        "delta_optimizer" interrupted all_responses start_ts_ms end_ts_ms
        (truncate_delta_optimizer_results "delta_optimizer" s)
      = (s', Ok ())
    ∧ raw_query_history_statistics s' !! "delta_optimizer"
      = Some (select_statements raw)
    ∧ parsed_distinct_queries s' !! "delta_optimizer" = Some source
    ∧ published "delta_optimizer" s'
      = (Some (column_level_summary
                 (pre_stats_df Parser regexp_split source
                    (raw_query_stats (select_statements raw)))),
         Some (df_scaled
                 (column_level_summary
                    (pre_stats_df Parser regexp_split source
                       (raw_query_stats (select_statements raw)))))).
Proof.
  intros Hint Hframe [r0 Hraw] [l0 Hlog] [p0 Hparsed].
  pose proof (createDataFrame_Ok _ _ Hframe) as ->.
  destruct (truncate_tables s r0 l0 p0 Hraw Hlog Hparsed) as (Hraw' & Hlog' & Hparsed').
  destruct (run_closed_form interrupted all_responses start_ts_ms end_ts_ms _ [] [] []
              Hframe Hint Hraw' Hlog' Hparsed')
    as (source & s' & Hsource & Hr & _ & Hrun).
  rewrite MERGE_empty_target in Hrun. cbn [app] in *.
  exists source, s'. tauto.
Qed.

(** ** Query ids with two texts *)

(** X15: once the parsed queries hold a query id that the raw table holds
    with two texts, no run completes, whatever it fetches: when the records
    give a data frame the upsert refuses them, and otherwise the run has
    raised before.  Either way both published tables are as they were and
    the catalog is in the same condition for the next run.  The raw table is
    only appended to and the parsed queries are never deleted, so no run gets
    out of it. *)
Theorem blocked_run_is_refused interrupted all_responses start_ts_ms end_ts_ms s :
  (∀ k, interrupted k = None) →
  is_Some (query_history_log s !! "delta_optimizer") →
  blocked "delta_optimizer" s →
  ∃ s' e,
    build_query_history_profile Parser regexp_split workspace_url warehouse_ids_list
      "delta_optimizer" interrupted all_responses start_ts_ms end_ts_ms s
    = (s', Raise e)
    ∧ (∀ raw, createDataFrame all_responses = Ok raw →
              e = "DELTA_MULTIPLE_SOURCE_ROW_MATCHING_TARGET_ROW_IN_MERGE")
    ∧ blocked "delta_optimizer" s'
    ∧ published "delta_optimizer" s' = published "delta_optimizer" s.
Proof.
  intros Hint [l0 Hlog] Hblocked.
  destruct (build_cases Parser regexp_split workspace_url warehouse_ids_list
              "delta_optimizer" interrupted all_responses start_ts_ms end_ts_ms s)
    as [(e0 & He0 & Hraise)|[Hframe _]].
  { exists s, e0. split_and!; try done. intros raw Hframe. congruence. }
  destruct Hblocked as (r0 & p0 & t & Hraw & Hparsed & Ht & Hamb).
  destruct (run_closed_form interrupted all_responses start_ts_ms end_ts_ms s r0 l0 p0
              Hframe Hint Hraw Hlog Hparsed)
    as (source & s' & Hsource & Hraw' & _ & Hrun).
  assert (ambiguous (r0 ++ select_statements all_responses) (Parsed.query_id t))
    as Hamb'.
  { destruct Hamb as (r1 & r2 & Hr1 & Hr2 & Hrest).
    exists r1, r2. split_and!; try tauto; apply elem_of_app; by left. }
  assert (MERGE p0 source
          = Raise "DELTA_MULTIPLE_SOURCE_ROW_MATCHING_TARGET_ROW_IN_MERGE") as Hm
    by (apply (MERGE_refused Parser _ source p0 Hsource); eauto).
  rewrite Hm in Hrun. destruct Hrun as (Hrun & Hparsed' & Hpub).
  exists s', "DELTA_MULTIPLE_SOURCE_ROW_MATCHING_TARGET_ROW_IN_MERGE".
  split_and!; [done | done | | done].
  by exists (r0 ++ select_statements all_responses), p0, t.
Qed.

Lemma source_has_query_id raw source r :
  new_parsed Parser raw = Ok source → r ∈ raw →
  ∃ p, p ∈ source ∧ Parsed.query_id p = Raw.query_id r.
Proof.
  intros Hsource Hr.
  assert ((Raw.query_id r, Raw.query_text r)
          ∈ List.map (λ p, (Parsed.query_id p, Parsed.query_text p)) source) as Hin.
  { rewrite (new_parsed_pairs Parser raw source Hsource).
    apply elem_of_remove_dups, list_elem_of_In, in_map_iff.
    exists r. split; [done | by apply list_elem_of_In]. }
  apply list_elem_of_In, in_map_iff in Hin as (p & [= Hid _] & Hp).
  exists p. split; [by apply list_elem_of_In | done].
Qed.

(** X16: a run that nothing interrupts, whose records give a data frame,
    and after which the raw table holds a query id with two different texts
    leaves the catalog blocked for the runs that follow: if the id is new,
    the upsert inserts it, once per text. *)
Theorem ambiguous_query_id_blocks interrupted all_responses raw start_ts_ms end_ts_ms
    s r0 query_id :
  (∀ k, interrupted k = None) →
  createDataFrame all_responses = Ok raw →
  raw_query_history_statistics s !! "delta_optimizer" = Some r0 →
  is_Some (query_history_log s !! "delta_optimizer") →
  is_Some (parsed_distinct_queries s !! "delta_optimizer") →
  ambiguous (r0 ++ select_statements raw) query_id →
  blocked "delta_optimizer"
    (build_query_history_profile Parser regexp_split workspace_url warehouse_ids_list
       "delta_optimizer" interrupted all_responses start_ts_ms end_ts_ms s).1.
Proof.
  intros Hint Hframe Hraw [l0 Hlog] [p0 Hparsed] Hamb.
  pose proof (createDataFrame_Ok _ _ Hframe) as ->.
  destruct (run_closed_form interrupted all_responses start_ts_ms end_ts_ms s r0 l0 p0
              Hframe Hint Hraw Hlog Hparsed)
    as (source & s' & Hsource & Hraw' & _ & Hrun).
  destruct (MERGE p0 source) as [merged|e] eqn:Hm.
  - destruct Hrun as (-> & Hparsed' & _). cbn [fst].
    pose proof Hamb as (r1 & _ & Hr1 & _ & Hq1 & _).
    destruct (source_has_query_id _ source r1 Hsource Hr1) as (p & Hp & Hid).
    pose proof (MERGE_covers_source p0 source merged p Hm Hp) as Hin.
    apply list_elem_of_fmap in Hin as (t & Heq & Ht).
    exists (r0 ++ select_statements all_responses), merged, t.
    split_and!; try done. by rewrite <- Heq, Hid, Hq1.
  - destruct Hrun as (-> & Hparsed' & _). cbn [fst].
    assert (∃ e, MERGE p0 source = Raise e) as Href by eauto.
    assert (MERGE p0 source
            = Raise "DELTA_MULTIPLE_SOURCE_ROW_MATCHING_TARGET_ROW_IN_MERGE") as Hm'.
    { unfold MERGE in *. by destruct (existsb _ p0). }
    apply (MERGE_refused Parser _ source p0 Hsource) in Hm' as (t & Ht & Hamb').
    by exists (r0 ++ select_statements all_responses), p0, t.
Qed.

End RunFacts.

Lemma uninterrupted_run_witness :
  ∃ source s',
    new_parsed Demo.Parser ([] ++ select_statements Demo.first_records) = Ok source
    ∧ raw_query_history_statistics s' !! "delta_optimizer"
      = Some ([] ++ select_statements Demo.first_records)
    ∧ match MERGE [] source with
      | Ok merged =>
          build_query_history_profile Demo.Parser Demo.regexp_split "ws" ["w1"]
              "delta_optimizer"
            Demo.undisturbed Demo.first_records 0 1 (Demo.init "delta_optimizer")
            = (s', Ok ())
          ∧ parsed_distinct_queries s' !! "delta_optimizer" = Some merged
          ∧ published "delta_optimizer" s'
            = (Some (column_level_summary
                       (pre_stats_df Demo.Parser Demo.regexp_split merged
                          (raw_query_stats ([] ++ select_statements Demo.first_records)))),
               Some (df_scaled
                       (column_level_summary
                          (pre_stats_df Demo.Parser Demo.regexp_split merged
                             (raw_query_stats
                                ([] ++ select_statements Demo.first_records))))))
      | Raise e =>
          build_query_history_profile Demo.Parser Demo.regexp_split "ws" ["w1"]
              "delta_optimizer"
            Demo.undisturbed Demo.first_records 0 1 (Demo.init "delta_optimizer")
            = (s', Raise e)
          ∧ parsed_distinct_queries s' !! "delta_optimizer" = Some []
          ∧ published "delta_optimizer" s'
            = published "delta_optimizer" (Demo.init "delta_optimizer")
      end.
Proof.
  apply (uninterrupted_run Demo.Parser Demo.regexp_split "ws" ["w1"] Demo.undisturbed
      Demo.first_records
           0 1 (Demo.init "delta_optimizer") [] [] []); reflexivity.
Defined.

Lemma first_run_completes_witness :
  (∃ s', build_query_history_profile Demo.Parser Demo.regexp_split "ws" ["w1"]
           "delta_optimizer" Demo.undisturbed Demo.first_records 0 1
           (__init__ "delta_optimizer" no_tables)
         = (s', Ok ()))
  ↔ ∃ raw, createDataFrame Demo.first_records = Ok raw.
Proof.
  apply (first_run_completes Demo.Parser Demo.regexp_split "ws" ["w1"] Demo.undisturbed
           Demo.first_records 0 1 no_tables); reflexivity.
Defined.

Lemma run_after_truncate_witness :
  ∃ source s',
    new_parsed Demo.Parser (select_statements Demo.second_records) = Ok source
    ∧ build_query_history_profile Demo.Parser Demo.regexp_split "ws" ["w1"]
        "delta_optimizer"
        Demo.undisturbed Demo.second_records 1 2
        (truncate_delta_optimizer_results "delta_optimizer" Demo.settled_catalog)
      = (s', Ok ())
    ∧ raw_query_history_statistics s' !! "delta_optimizer"
      = Some (select_statements Demo.second_records)
    ∧ parsed_distinct_queries s' !! "delta_optimizer" = Some source
    ∧ published "delta_optimizer" s'
      = (Some (column_level_summary
                 (pre_stats_df Demo.Parser Demo.regexp_split source
                    (raw_query_stats (select_statements Demo.second_records)))),
         Some (df_scaled
                 (column_level_summary
                    (pre_stats_df Demo.Parser Demo.regexp_split source
                       (raw_query_stats (select_statements Demo.second_records)))))).
Proof.
  apply (run_after_truncate Demo.Parser Demo.regexp_split "ws" ["w1"] Demo.undisturbed
           Demo.second_records Demo.second_records 1 2 Demo.settled_catalog);
    [reflexivity | reflexivity | eexists; vm_compute; reflexivity..].
Defined.

Lemma two_texts_ambiguous : ambiguous Demo2.two_texts "q1".
Proof.
  exists (Demo.record "q1" Demo.filter_sql 10), (Demo.record "q1" Demo.status_sql 20).
  split_and!; [apply list_elem_of_here | apply list_elem_of_further, list_elem_of_here
              | reflexivity | reflexivity | discriminate].
Defined.

Lemma blocked_run_is_refused_witness :
  ∃ s' e,
    build_query_history_profile Demo.Parser Demo.regexp_split "ws" ["w1"] "delta_optimizer"
      Demo.undisturbed Demo.second_records 1 2 Demo2.two_texts_catalog
    = (s', Raise e)
    ∧ (∀ raw, createDataFrame Demo.second_records = Ok raw →
              e = "DELTA_MULTIPLE_SOURCE_ROW_MATCHING_TARGET_ROW_IN_MERGE")
    ∧ blocked "delta_optimizer" s'
    ∧ published "delta_optimizer" s'
      = published "delta_optimizer" Demo2.two_texts_catalog.
Proof.
  apply (blocked_run_is_refused Demo.Parser Demo.regexp_split "ws" ["w1"] Demo.undisturbed
           Demo.second_records 1 2 Demo2.two_texts_catalog).
  - reflexivity.
  - eexists. vm_compute. reflexivity.
  - exists Demo2.two_texts, [Demo.filter_query], Demo.filter_query.
    split_and!; [by vm_compute | by vm_compute | apply list_elem_of_here
                | exact two_texts_ambiguous].
Defined.

Lemma ambiguous_query_id_blocks_witness :
  blocked "delta_optimizer"
    (build_query_history_profile Demo.Parser Demo.regexp_split "ws" ["w1"] "delta_optimizer"
       Demo.undisturbed Demo2.two_texts 0 1 (Demo.init "delta_optimizer")).1.
Proof.
  apply (ambiguous_query_id_blocks Demo.Parser Demo.regexp_split "ws" ["w1"]
      Demo.undisturbed
           Demo2.two_texts Demo2.two_texts 0 1 (Demo.init "delta_optimizer") [] "q1").
  - reflexivity.
  - reflexivity.
  - reflexivity.
  - eexists. reflexivity.
  - eexists. reflexivity.
  - exact two_texts_ambiguous.
Defined.

(** ** Runs and the databases of the catalog *)

Section Databases.

Variable Parser : string → result ParserResults.
Variable regexp_split : string → string → list string.
Variable workspace_url : string.
Variable warehouse_ids_list : list string.
Variable database_name : string.

Lemma statements_keep_other_database all_responses start_ts_ms end_ts_ms db s0 :
  db ≠ database_name →
  Forall (λ statement, ∀ s s',
            same_database db s0 s → statement s = Ok s' → same_database db s0 s')
    [ insert_raw database_name all_responses;
      insert_query_history_delta_log workspace_url warehouse_ids_list
        database_name start_ts_ms end_ts_ms;
      replace_query_summary_statistics;
      merge_parsed_distinct_queries Parser database_name;
      replace_query_column_statistics Parser regexp_split database_name;
      replace_column_level_summary database_name;
      replace_scaled_results database_name ].
Proof.
  intros Hdb. unfold same_database.
  repeat apply Forall_cons_2; [..|apply Forall_nil_2];
    intros s s' (Hlog & Hraw & Hparsed & Husage & Hsummary & Hscaled & Hstats) Hs.
  - apply insert_raw_Ok in Hs as (? & _ & ->). cbn.
    rewrite lookup_insert_ne by done. done.
  - apply insert_query_history_delta_log_appends in Hs as (? & _ & ->). cbn.
    rewrite lookup_insert_ne by done. done.
  - apply replace_query_summary_statistics_Ok in Hs as (? & _ & ->). cbn.
    split_and!; try done. intros Hne. rewrite lookup_insert_ne by done. auto.
  - apply merge_parsed_distinct_queries_Ok in Hs as (? & ? & ? & ? & _ & _ & _ & _ & ->).
    cbn. rewrite lookup_insert_ne by done. done.
  - apply replace_query_column_statistics_Ok in Hs as (? & ? & _ & _ & ->). cbn.
    rewrite lookup_insert_ne by done. done.
  - apply replace_column_level_summary_Ok in Hs as (? & _ & ->). cbn.
    rewrite lookup_insert_ne by done. done.
  - apply replace_scaled_results_Ok in Hs as (? & _ & ->). cbn.
    rewrite lookup_insert_ne by done. done.
Qed.

(** X17: a run, complete or not, leaves the tables of every database other
    than its own as they were, with one exception: the statistics summary of
    [delta_optimizer], which the run of any database replaces. *)
Theorem run_touches_one_database interrupted all_responses start_ts_ms end_ts_ms s db :
  db ≠ database_name →
  same_database db s
    (build_query_history_profile Parser regexp_split workspace_url warehouse_ids_list
        database_name
       interrupted all_responses start_ts_ms end_ts_ms s).1.
Proof.
  intros Hdb.
  destruct (build_cases Parser regexp_split workspace_url warehouse_ids_list
              database_name interrupted all_responses start_ts_ms end_ts_ms s)
    as [(e0 & _ & ->)|[_ ->]]; [by unfold same_database|].
  apply (run_invariant (same_database db s) interrupted _
           (statements_keep_other_database all_responses start_ts_ms end_ts_ms db s Hdb)).
  by unfold same_database.
Qed.

Lemma statements_keep_missing_statistics all_responses start_ts_ms end_ts_ms :
  database_name ≠ "delta_optimizer" →
  Forall (λ statement, ∀ s s',
            query_summary_statistics s !! database_name = None →
            statement s = Ok s' →
            query_summary_statistics s' !! database_name = None)
    [ insert_raw database_name all_responses;
      insert_query_history_delta_log workspace_url warehouse_ids_list
        database_name start_ts_ms end_ts_ms;
      replace_query_summary_statistics;
      merge_parsed_distinct_queries Parser database_name ].
Proof.
  intros Hdb.
  repeat apply Forall_cons_2; [..|apply Forall_nil_2]; intros s s' Hnone Hs.
  - by apply insert_raw_Ok in Hs as (? & _ & ->).
  - by apply insert_query_history_delta_log_appends in Hs as (? & _ & ->).
  - apply replace_query_summary_statistics_Ok in Hs as (? & _ & ->). cbn.
    by rewrite lookup_insert_ne.
  - by apply merge_parsed_distinct_queries_Ok in Hs as (? & ? & ? & ? & _ & _ & _ & _ & ->).
Qed.

(** X18: with a database other than [delta_optimizer] that has no
    statistics summary, no run after [__init__] completes, interrupted or
    not: [__init__] does not create the table and no statement of the run
    does, so the run raises, publishes nothing, and leaves the table missing
    for the next run. *)
Theorem other_database_never_completes interrupted all_responses start_ts_ms end_ts_ms s :
  database_name ≠ "delta_optimizer" →
  query_summary_statistics s !! database_name = None →
  ∃ s' e,
    build_query_history_profile Parser regexp_split workspace_url warehouse_ids_list
        database_name
      interrupted all_responses start_ts_ms end_ts_ms (__init__ database_name s)
    = (s', Raise e)
    ∧ query_summary_statistics s' !! database_name = None
    ∧ published database_name s' = published database_name s.
Proof.
  intros Hdb Hnone.
  assert (query_summary_statistics (__init__ database_name s) !! database_name = None)
    as Hnone' by done.
  assert (published database_name (__init__ database_name s)
          = published database_name s) as Hpub by done.
  revert Hnone' Hpub. generalize (__init__ database_name s). intros s0 Hnone' Hpub.
  destruct (build_cases Parser regexp_split workspace_url warehouse_ids_list
              database_name interrupted all_responses start_ts_ms end_ts_ms s0)
    as [(e0 & _ & ->)|[_ ->]]; [by eauto|].
  change [_; _; _; _; _; _; _]
    with ([ insert_raw database_name all_responses;
            insert_query_history_delta_log workspace_url warehouse_ids_list
              database_name start_ts_ms end_ts_ms;
            replace_query_summary_statistics;
            merge_parsed_distinct_queries Parser database_name ]
          ++ [ replace_query_column_statistics Parser regexp_split database_name;
               replace_column_level_summary database_name;
               replace_scaled_results database_name ]).
  rewrite run_app.
  pose proof (run_invariant _ interrupted _
                (statements_keep_missing_statistics all_responses start_ts_ms end_ts_ms
                   Hdb) 0%nat s0 Hnone') as Hinv.
  assert (published database_name
            (run interrupted 0
               [ insert_raw database_name all_responses;
                 insert_query_history_delta_log workspace_url warehouse_ids_list
                   database_name start_ts_ms end_ts_ms;
                 replace_query_summary_statistics;
                 merge_parsed_distinct_queries Parser database_name ] s0).1
          = published database_name s) as Hpub'.
  { rewrite <- Hpub. clear Hinv.
    assert (Forall (λ statement, ∀ s1 s',
              published database_name s1 = published database_name s0 →
              statement s1 = Ok s' →
              published database_name s' = published database_name s0)
              [ insert_raw database_name all_responses;
                insert_query_history_delta_log workspace_url warehouse_ids_list
                  database_name start_ts_ms end_ts_ms;
                replace_query_summary_statistics;
                merge_parsed_distinct_queries Parser database_name ]) as Hall.
    { repeat apply Forall_cons_2; [..|apply Forall_nil_2]; intros s1 s' HR Hs.
      - by apply insert_raw_Ok in Hs as (? & _ & ->).
      - by apply insert_query_history_delta_log_appends in Hs as (? & _ & ->).
      - by apply replace_query_summary_statistics_Ok in Hs as (? & _ & ->).
      - by apply merge_parsed_distinct_queries_Ok in Hs
          as (? & ? & ? & ? & _ & _ & _ & _ & ->). }
    by apply (run_invariant _ interrupted _ Hall). }
  destruct (run interrupted 0 _ s0) as [s4 [[]|e]]; cbn [fst] in *.
  - cbn [run length Nat.add]. destruct (interrupted 4%nat) as [e|]; [by eauto|].
    destruct (replace_query_column_statistics Parser regexp_split database_name s4) as
        [s5|e] eqn:H5;
      [|by eauto].
    apply replace_query_column_statistics_Ok in H5 as (? & hist & _ & Hh & _).
    congruence.
  - by eauto.
Qed.

End Databases.

Lemma run_touches_one_database_witness :
  same_database "sales" (Demo.init "delta_optimizer")
    (build_query_history_profile Demo.Parser Demo.regexp_split "ws" ["w1"] "delta_optimizer"
       Demo.undisturbed Demo.first_records 0 1 (Demo.init "delta_optimizer")).1.
Proof.
  apply (run_touches_one_database Demo.Parser Demo.regexp_split "ws" ["w1"]
      "delta_optimizer"
           Demo.undisturbed Demo.first_records 0 1 (Demo.init "delta_optimizer") "sales").
  discriminate.
Defined.

Lemma other_database_never_completes_witness :
  ∃ s' e,
    build_query_history_profile Demo.Parser Demo.regexp_split "ws" ["w1"] "sales"
      Demo.undisturbed Demo.first_records 0 1 (__init__ "sales" no_tables)
    = (s', Raise e)
    ∧ query_summary_statistics s' !! "sales" = None
    ∧ published "sales" s' = published "sales" no_tables.
Proof.
  apply (other_database_never_completes Demo.Parser Demo.regexp_split "ws" ["w1"] "sales"
           Demo.undisturbed Demo.first_records 0 1 no_tables).
  - discriminate.
  - reflexivity.
Defined.

(** ** The time range of the next run *)

Section Watermark.

Variable Parser : string → result ParserResults.
Variable regexp_split : string → string → list string.
Variable workspace_url : string.
Variable warehouse_ids_list : list string.
Variable database_name : string.

Variable datetime : Type.
Variable to_datetime : Z → datetime.
Variable minus_days : datetime → Z → datetime.
Variable ms_timestamp : datetime → Z.

Lemma MAXZ_latest (v : Z) (vs : list Z) :
  (foldr Z.max v vs ∈ v :: vs) ∧ ∀ x, x ∈ v :: vs → (x ≤ foldr Z.max v vs)%Z.
Proof.
  induction vs as [|y vs [IHin IHle]]; simpl.
  - split; [left|]. by intros x ->%list_elem_of_singleton.
  - split.
    + destruct (Z.max_spec y (foldr Z.max v vs)) as [[_ ->]|[_ ->]].
      * apply elem_of_cons in IHin as [->|Hin]; [left | do 2 right]; done.
      * right; left.
    + intros x [->|[->|Hx]%elem_of_cons]%elem_of_cons.
      * specialize (IHle v ltac:(left)). lia.
      * lia.
      * specialize (IHle x ltac:(by right)). lia.
Qed.

Lemma MAXZ_EndTimestamp (rows : list Log.t) :
  match Sql.MAXZ (List.map (λ r, Some (Log.EndTimestamp r)) rows) with
  | Some m => (∃ r, r ∈ rows ∧ Log.EndTimestamp r = m)
              ∧ ∀ r, r ∈ rows → (Log.EndTimestamp r ≤ m)%Z
  | None => rows = []
  end.
Proof.
  unfold Sql.MAXZ.
  replace (Sql.non_null (List.map (λ r, Some (Log.EndTimestamp r)) rows))
    with (Log.EndTimestamp <$> rows).
  2: { unfold Sql.non_null. induction rows as [|r rows IH]; [done|]. cbn.
       by rewrite <- IH. }
  destruct rows as [|r rows]; [done|]. rewrite fmap_cons.
  destruct (MAXZ_latest (Log.EndTimestamp r) (Log.EndTimestamp <$> rows)) as [Hin Hle].
  rewrite <- fmap_cons in Hin. split.
  - apply list_elem_of_fmap in Hin as (r' & Heq & Hr'). eauto.
  - intros r' Hr'. apply Hle. rewrite <- fmap_cons.
    apply list_elem_of_fmap. eauto.
Qed.

Lemma late_statements_keep_log s0 :
  Forall (λ statement, ∀ s s',
            query_history_log s = query_history_log s0 →
            statement s = Ok s' →
            query_history_log s' = query_history_log s0)
    [ replace_query_summary_statistics;
      merge_parsed_distinct_queries Parser database_name;
      replace_query_column_statistics Parser regexp_split database_name;
      replace_column_level_summary database_name;
      replace_scaled_results database_name ].
Proof.
  repeat apply Forall_cons_2; [..|apply Forall_nil_2]; intros s s' HR Hs.
  - by apply replace_query_summary_statistics_Ok in Hs as (? & _ & ->).
  - by apply merge_parsed_distinct_queries_Ok in Hs as (? & ? & ? & ? & _ & _ & _ & _ & ->).
  - by apply replace_query_column_statistics_Ok in Hs as (? & ? & _ & _ & ->).
  - by apply replace_column_level_summary_Ok in Hs as (? & _ & ->).
  - by apply replace_scaled_results_Ok in Hs as (? & _ & ->).
Qed.

Lemma logged_run interrupted all_responses start_ts_ms end_ts_ms s r0 l0 :
  createDataFrame all_responses = Ok all_responses →
  interrupted 0%nat = None → interrupted 1%nat = None →
  raw_query_history_statistics s !! database_name = Some r0 →
  query_history_log s !! database_name = Some l0 →
  query_history_log
    (build_query_history_profile Parser regexp_split workspace_url warehouse_ids_list
        database_name
       interrupted all_responses start_ts_ms end_ts_ms s).1 !! database_name
  = Some (l0 ++ [{| Log.WarehouseIds := warehouse_ids_list;
                    Log.WorkspaceName := workspace_url;
                    Log.StartTimestamp := start_ts_ms;
                    Log.EndTimestamp := end_ts_ms |}]).
Proof.
  intros Hframe H0 H1 Hraw Hlog.
  destruct (build_cases Parser regexp_split workspace_url warehouse_ids_list
              database_name interrupted all_responses start_ts_ms end_ts_ms s)
    as [(e0 & He0 & _)|[_ ->]]; [congruence|].
  rewrite run_cons, H0.
  set (s1 := set_raw_query_history_statistics
               (<[database_name := r0 ++ select_statements all_responses]>
                  (raw_query_history_statistics s)) s).
  assert (insert_raw database_name all_responses s = Ok s1) as ->
    by (apply insert_raw_Ok; eauto).
  rewrite run_cons, H1.
  set (entry := {| Log.WarehouseIds := warehouse_ids_list;
                   Log.WorkspaceName := workspace_url;
                   Log.StartTimestamp := start_ts_ms;
                   Log.EndTimestamp := end_ts_ms |}).
  set (s2 := set_query_history_log
               (<[database_name := l0 ++ [entry]]> (query_history_log s1)) s1).
  assert (insert_query_history_delta_log workspace_url warehouse_ids_list
            database_name start_ts_ms end_ts_ms s1 = Ok s2) as ->
    by (apply insert_query_history_delta_log_appends; eauto).
  rewrite (run_invariant _ interrupted _ (late_statements_keep_log s2) 2%nat s2 eq_refl).
  apply lookup_insert_eq.
Qed.

(** X19: once a run whose records gave a data frame has stored them and
    written its log entry, whatever happens to it afterwards, the next run in
    mode [auto] asks for the history from the latest end timestamp of the
    whole log up to the reading of the clock: a timestamp that is at least
    the end of the run just logged and at least every earlier end, and that
    is one of them.  A run over an older range does not move the start
    back. *)
Theorem watermark_after_run interrupted all_responses raw start_ts_ms end_ts_ms s r0 l0
    lookback_period now later :
  createDataFrame all_responses = Ok raw →
  interrupted 0%nat = None → interrupted 1%nat = None →
  raw_query_history_statistics s !! database_name = Some r0 →
  query_history_log s !! database_name = Some l0 →
  ∃ latest,
    get_most_recent_history_from_log datetime to_datetime minus_days ms_timestamp
      database_name
      (build_query_history_profile Parser regexp_split workspace_url warehouse_ids_list
         database_name interrupted all_responses start_ts_ms end_ts_ms s).1
      "auto" lookback_period now later
    = Ok (ms_timestamp (to_datetime latest), ms_timestamp now)
    ∧ (end_ts_ms ≤ latest)%Z
    ∧ (∀ l, l ∈ l0 → (Log.EndTimestamp l ≤ latest)%Z)
    ∧ (latest = end_ts_ms ∨ ∃ l, l ∈ l0 ∧ latest = Log.EndTimestamp l).
Proof.
  intros Hframe H0 H1 Hraw Hlog.
  pose proof (createDataFrame_Ok _ _ Hframe) as ->.
  pose proof (logged_run interrupted all_responses start_ts_ms end_ts_ms s r0 l0
                Hframe H0 H1 Hraw Hlog) as Hlog'.
  unfold get_most_recent_history_from_log, table. rewrite Hlog'. cbn [bind].
  set (entry := {| Log.WarehouseIds := warehouse_ids_list;
                   Log.WorkspaceName := workspace_url;
                   Log.StartTimestamp := start_ts_ms;
                   Log.EndTimestamp := end_ts_ms |}).
  pose proof (MAXZ_EndTimestamp (l0 ++ [entry])) as Hmax.
  destruct (Sql.MAXZ _) as [latest|]; [|by destruct l0].
  destruct Hmax as [(r & Hr & Hlatest) Hle].
  exists latest. rewrite bool_decide_eq_true_2 by done. split_and!; [done | | |].
  - apply (Hle entry). apply elem_of_app. right. left.
  - intros l Hl. apply Hle, elem_of_app. by left.
  - apply elem_of_app in Hr as [Hr|Hr]; [right; eauto | left].
    apply list_elem_of_singleton in Hr. by subst r.
Qed.

(** X20: a run whose records gave a data frame and that is interrupted at
    the log statement has already appended the fetched SELECT records to the
    raw table, and has left the log as it was: the time range of the next
    run is what it would have been without this run, in every mode. *)
Theorem cancelled_before_log interrupted all_responses raw start_ts_ms end_ts_ms s r0 e :
  createDataFrame all_responses = Ok raw →
  interrupted 0%nat = None → interrupted 1%nat = Some e →
  raw_query_history_statistics s !! database_name = Some r0 →
  ∃ s',
    build_query_history_profile Parser regexp_split workspace_url warehouse_ids_list
        database_name
      interrupted all_responses start_ts_ms end_ts_ms s = (s', Raise e)
    ∧ raw_query_history_statistics s' !! database_name
      = Some (r0 ++ select_statements raw)
    ∧ ∀ mode lookback_period now later,
        get_most_recent_history_from_log datetime to_datetime minus_days ms_timestamp
          database_name s' mode lookback_period now later
        = get_most_recent_history_from_log datetime to_datetime minus_days ms_timestamp
            database_name s mode lookback_period now later.
Proof.
  intros Hframe H0 H1 Hraw.
  pose proof (createDataFrame_Ok _ _ Hframe) as ->.
  destruct (build_cases Parser regexp_split workspace_url warehouse_ids_list
              database_name interrupted all_responses start_ts_ms end_ts_ms s)
    as [(e0 & He0 & _)|[_ ->]]; [congruence|].
  rewrite run_cons, H0.
  set (s1 := set_raw_query_history_statistics
               (<[database_name := r0 ++ select_statements all_responses]>
                  (raw_query_history_statistics s)) s).
  assert (insert_raw database_name all_responses s = Ok s1) as ->
    by (apply insert_raw_Ok; eauto).
  rewrite run_cons, H1. exists s1. split_and!; [done | apply lookup_insert_eq | done].
Qed.

Lemma lookback_on_empty_log s mode lookback_period now later :
  query_history_log s !! database_name = Some [] →
  get_most_recent_history_from_log datetime to_datetime minus_days ms_timestamp
    database_name s mode lookback_period now later
  = Ok (get_time_series_lookback datetime minus_days ms_timestamp later lookback_period).
Proof.
  intros Hlog. unfold get_most_recent_history_from_log, table. by rewrite Hlog.
Qed.

(** X21: after [__init__] on a database without a log, and after
    [truncate_delta_optimizer_results] on a database with one, the time range
    is the lookback period before the second reading of the clock, in every
    mode; truncation creates no log: without one the range cannot be
    computed. *)
Theorem fresh_log_uses_lookback s mode lookback_period now later :
  (query_history_log s !! database_name = None →
   get_most_recent_history_from_log datetime to_datetime minus_days ms_timestamp
     database_name (__init__ database_name s) mode lookback_period now later
   = Ok (get_time_series_lookback datetime minus_days ms_timestamp later
           lookback_period))
  ∧ (is_Some (query_history_log s !! database_name) →
     get_most_recent_history_from_log datetime to_datetime minus_days ms_timestamp
       database_name (truncate_delta_optimizer_results database_name s)
       mode lookback_period now later
     = Ok (get_time_series_lookback datetime minus_days ms_timestamp later
             lookback_period))
  ∧ (query_history_log s !! database_name = None →
     get_most_recent_history_from_log datetime to_datetime minus_days ms_timestamp
       database_name (truncate_delta_optimizer_results database_name s)
       mode lookback_period now later
     = Raise "TABLE_OR_VIEW_NOT_FOUND").
Proof.
  split_and!.
  - intros Hnone. apply lookback_on_empty_log.
    unfold __init__, create_table_if_not_exists. cbn. rewrite Hnone.
    apply lookup_insert_eq.
  - intros [l0 Hlog]. apply lookback_on_empty_log.
    unfold truncate_delta_optimizer_results, truncate_table. cbn.
    by rewrite lookup_alter_eq, Hlog.
  - intros Hnone. unfold get_most_recent_history_from_log, table.
    unfold truncate_delta_optimizer_results, truncate_table. cbn.
    by rewrite lookup_alter_eq, Hnone.
Qed.

End Watermark.

Lemma watermark_after_run_witness :
  ∃ latest,
    get_most_recent_history_from_log Z (λ z, z) Demo2.minus_days (λ d, d)
      "delta_optimizer"
      (build_query_history_profile Demo.Parser Demo.regexp_split "ws" ["w1"]
          "delta_optimizer"
         (Demo.cancelled_at 4) Demo.second_records 1 7 Demo.settled_catalog).1
      "auto" 3 9%Z 10%Z
    = Ok (latest, 9%Z)
    ∧ (7 ≤ latest)%Z
    ∧ (∀ l, l ∈ [Demo2.first_entry] → (Log.EndTimestamp l ≤ latest)%Z)
    ∧ (latest = 7%Z ∨ ∃ l, l ∈ [Demo2.first_entry] ∧ latest = Log.EndTimestamp l).
Proof.
  apply (watermark_after_run Demo.Parser Demo.regexp_split "ws" ["w1"] "delta_optimizer"
           Z (λ z, z) Demo2.minus_days (λ d, d)
           (Demo.cancelled_at 4) Demo.second_records Demo.second_records 1 7
           Demo.settled_catalog Demo.first_records [Demo2.first_entry] 3 9%Z 10%Z);
    vm_compute; reflexivity.
Defined.

Lemma cancelled_before_log_witness :
  ∃ s',
    build_query_history_profile Demo.Parser Demo.regexp_split "ws" ["w1"] "delta_optimizer"
      (Demo.cancelled_at 1) Demo.second_records 1 7 Demo.settled_catalog
    = (s', Raise "CANCELLED")
    ∧ raw_query_history_statistics s' !! "delta_optimizer"
      = Some (Demo.first_records ++ select_statements Demo.second_records)
    ∧ ∀ mode lookback_period now later,
        get_most_recent_history_from_log Z (λ z, z) Demo2.minus_days (λ d, d)
          "delta_optimizer" s' mode lookback_period now later
        = get_most_recent_history_from_log Z (λ z, z) Demo2.minus_days (λ d, d)
            "delta_optimizer" Demo.settled_catalog mode lookback_period now later.
Proof.
  apply (cancelled_before_log Demo.Parser Demo.regexp_split "ws" ["w1"] "delta_optimizer"
           Z (λ z, z) Demo2.minus_days (λ d, d)
           (Demo.cancelled_at 1) Demo.second_records Demo.second_records 1 7
           Demo.settled_catalog Demo.first_records "CANCELLED");
    vm_compute; reflexivity.
Defined.

(** ** [__init__] *)

(** X22: [__init__] loses nothing and creates three tables at most: a table
    that exists keeps its rows; afterwards the log, the raw table and the
    parsed queries of the database exist; the tables of the other databases,
    the statistics summary, the usage table and both published tables are as
    they were; and running it a second time changes nothing. *)
Theorem init_keeps_existing_tables db s :
  (∀ db' rows, query_history_log s !! db' = Some rows →
               query_history_log (__init__ db s) !! db' = Some rows)
  ∧ (∀ db' rows, raw_query_history_statistics s !! db' = Some rows →
                 raw_query_history_statistics (__init__ db s) !! db' = Some rows)
  ∧ (∀ db' rows, parsed_distinct_queries s !! db' = Some rows →
                 parsed_distinct_queries (__init__ db s) !! db' = Some rows)
  ∧ is_Some (query_history_log (__init__ db s) !! db)
  ∧ is_Some (raw_query_history_statistics (__init__ db s) !! db)
  ∧ is_Some (parsed_distinct_queries (__init__ db s) !! db)
  ∧ (∀ db', db' ≠ db → same_database db' s (__init__ db s))
  ∧ query_summary_statistics (__init__ db s) = query_summary_statistics s
  ∧ query_column_statistics (__init__ db s) = query_column_statistics s
  ∧ published db (__init__ db s) = published db s
  ∧ __init__ db (__init__ db s) = __init__ db s.
Proof.
  assert (∀ A (tbl : gmap string (list A)) db' rows,
            tbl !! db' = Some rows →
            create_table_if_not_exists db tbl !! db' = Some rows) as Hkeep.
  { intros A tbl db' rows H. unfold create_table_if_not_exists.
    destruct (tbl !! db) eqn:E; [done|]. rewrite lookup_insert_ne; [done|].
    intros <-. congruence. }
  assert (∀ A (tbl : gmap string (list A)),
            is_Some (create_table_if_not_exists db tbl !! db)) as Hsome.
  { intros A tbl. unfold create_table_if_not_exists.
    destruct (tbl !! db) eqn:E; [by rewrite E|]. rewrite lookup_insert_eq. eauto. }
  assert (∀ A (tbl : gmap string (list A)) db', db' ≠ db →
            create_table_if_not_exists db tbl !! db' = tbl !! db') as Hother.
  { intros A tbl db' Hne. unfold create_table_if_not_exists.
    destruct (tbl !! db); [done|]. by rewrite lookup_insert_ne. }
  assert (∀ A (tbl : gmap string (list A)),
            create_table_if_not_exists db (create_table_if_not_exists db tbl)
            = create_table_if_not_exists db tbl) as Hidem.
  { intros A tbl. unfold create_table_if_not_exists at 1.
    by destruct (Hsome A tbl) as [rows ->]. }
  unfold __init__. cbn. split_and!; try done; try apply Hkeep; try apply Hsome.
  - intros db' Hne. unfold same_database. cbn. rewrite !Hother by done. done.
  - unfold set_parsed_distinct_queries, set_raw_query_history_statistics,
      set_query_history_log. cbn. by rewrite !Hidem.
Qed.

(** ** Counts and totals *)

Section Totals.

Lemma non_null_all_Some {A} (l : list (option A)) :
  Forall is_Some l → length (Sql.non_null l) = length l.
Proof.
  unfold Sql.non_null. induction 1 as [|o l [x ->] _ IH]; [done|]. cbn. by rewrite IH.
Qed.

Lemma non_null_nil {A} (l : list (option A)) :
  Sql.non_null l = [] ↔ Forall (λ o, o = None) l.
Proof.
  unfold Sql.non_null. induction l as [|[x|] l IH]; cbn.
  - split; [constructor | done].
  - split; [done|]. intros [H _]%Forall_cons_1. discriminate.
  - rewrite IH. split; [by constructor | by intros [_ ?]%Forall_cons_1].
Qed.

Lemma non_null_length {A} (l : list (option A)) :
  (length (Sql.non_null l) ≤ length l)%nat.
Proof.
  unfold Sql.non_null. induction l as [|[x|] l IH]; cbn; lia.
Qed.

Lemma remove_dups_length `{EqDecision A} (l : list A) :
  (length (remove_dups l) ≤ length l)%nat.
Proof.
  induction l as [|x l IH]; [done|]. cbn. destruct (decide_rel _ _ _); cbn; lia.
Qed.

Lemma remove_dups_nil `{EqDecision A} (l : list A) : remove_dups l = [] ↔ l = [].
Proof.
  split; [|by intros ->]. destruct l as [|x l]; [done|]. intros H.
  assert (x ∈ remove_dups (x :: l)) as Hx by (apply elem_of_remove_dups; left).
  rewrite H in Hx. by apply elem_of_nil in Hx.
Qed.

Lemma Forall_fmap_iff {A B} (f : A → B) (P : B → Prop) (l : list A) :
  Forall P (f <$> l) ↔ Forall (λ x, P (f x)) l.
Proof. apply Forall_fmap. Qed.

Lemma filter_filter_and {A} (P Q : A → bool) (l : list A) :
  List.filter P (List.filter Q l) = List.filter (λ x, Q x && P x) l.
Proof.
  induction l as [|x l IH]; [done|]. cbn. destruct (Q x); cbn; [|done].
  destruct (P x); by rewrite IH.
Qed.

Lemma summary_group usage :
  ∀ t c,
    List.filter (λ u, bool_decide ((Usage.TableName u, Usage.ColumnName u) = (t, c)))
      (List.filter has_column (List.filter has_column usage))
    = usage_of usage t c.
Proof.
  intros t c. unfold usage_of. rewrite !filter_filter_and.
  apply filter_ext. intros u. by destruct (has_column u).
Qed.

(** X24: [QueryReferenceCount] counts the queries that have statistics: it
    lies between 0 and the number of usage rows of the table and column, and
    it is 0 exactly when none of these rows has a statistics row, however
    many queries refer to the column. *)
Theorem reference_count_needs_statistics usage :
  Forall
    (λ row,
       let g := usage_of usage (Summary.TableName row) (Summary.ColumnName row) in
       (0 ≤ Summary.QueryReferenceCount row ≤ Z.of_nat (length g))%Z
       ∧ (Summary.QueryReferenceCount row = 0%Z
          ↔ Forall (λ u, Usage.query_id u = None) g))
    (column_level_summary usage).
Proof.
  apply Forall_forall. intros row Hrow.
  apply elem_of_column_level_summary in Hrow
    as (g & Hg & _ & _ & _ & _ & _ & _ & _ & Hcount).
  rewrite summary_group in Hg. rewrite <- Hg. cbn zeta.
  rewrite Hcount. unfold Sql.COUNT_DISTINCT. split.
  - pose proof (remove_dups_length (Sql.non_null (Usage.query_id <$> g))).
    pose proof (non_null_length (Usage.query_id <$> g)) as Hle.
    rewrite length_fmap in Hle. lia.
  - rewrite <- (Forall_fmap_iff Usage.query_id (λ o, o = None)), <- non_null_nil.
    rewrite <- remove_dups_nil.
    destruct (remove_dups _); cbn; split; intros; (done || lia).
Qed.

Lemma AVG_times_count (l : list (option Q)) :
  Forall is_Some l → l ≠ [] →
  ∃ v, Sql.times (Sql.AVG l) (Some (inject_Z (Z.of_nat (length l)))) = Some v
       ∧ (v == Sql.Qsum (Sql.non_null l))%Q.
Proof.
  intros Hall Hne. unfold Sql.AVG, Sql.times.
  pose proof (non_null_all_Some l Hall) as Hlen.
  destruct (Sql.non_null l) as [|x vs] eqn:Hnn.
  { destruct l; [done | simpl in Hlen; lia]. }
  rewrite <- Hlen. eexists. split; [reflexivity|].
  rewrite !Qred_correct.
  assert (¬ (inject_Z (Z.of_nat (length (x :: vs))) == 0)%Q) as Hnz.
  { unfold Qeq. simpl. lia. }
  field. exact Hnz.
Qed.

(** X25: for every query of the statistics summary, [TotalQueryRuns] is
    the number of its counted records; when each of them has a duration,
    [DurationTimesRuns] is their total duration (the numbers taken as exact),
    and it is NULL exactly when none of them has one.  A record without a
    duration still counts as a run. *)
Theorem duration_times_runs raw :
  Forall
    (λ s,
       let g := runs_of raw (Stats.query_id s) in
       Stats.TotalQueryRuns s = Z.of_nat (length g)
       ∧ (Forall (λ r, is_Some (Raw.duration r)) g →
          ∃ v, Stats.DurationTimesRuns s = Some v
               ∧ (v == Sql.Qsum (Sql.non_null (Raw.duration <$> g)))%Q)
       ∧ (Stats.DurationTimesRuns s = None
          ↔ Forall (λ r, Raw.duration r = None) g))
    (raw_query_stats raw).
Proof.
  apply Forall_forall. intros s Hs. unfold raw_query_stats in Hs.
  fold (counted raw) in Hs.
  apply elem_of_GROUP_BY in Hs as (k & Hk & ->).
  cbn [Stats.query_id Stats.TotalQueryRuns Stats.DurationTimesRuns].
  fold (runs_of raw k). cbn zeta. set (g := runs_of raw k).
  assert (g ≠ []) as Hne.
  { apply list_elem_of_fmap in Hk as (r & -> & Hr). intros Hnil.
    assert (In r g) as Hin.
    { apply filter_In. split; [by apply list_elem_of_In | by apply bool_decide_eq_true]. }
    by rewrite Hnil in Hin. }
  split_and!.
  - done.
  - intros Hall. unfold Sql.COUNT_star.
    rewrite <- (length_fmap Raw.duration g). apply AVG_times_count.
    + by apply Forall_fmap_iff.
    + by destruct g.
  - rewrite <- (Forall_fmap_iff Raw.duration (λ o, o = None)), <- non_null_nil.
    unfold Sql.times, Sql.AVG.
    destruct (Sql.non_null (Raw.duration <$> g)); split; done.
Qed.

End Totals.

(** ** From the parser to the use flags *)

Section Flags.

Variable Parser : string → result ParserResults.
Variable regexp_split : string → string → list string.

Lemma split_go_plain c : has_char ":" c = false → Sql.split_go ":" c 0 = [c].
Proof.
  induction c as [|a c IH]; [done|]. cbn [has_char].
  intros [Ha Hc]%orb_false_iff. apply Ascii.eqb_neq in Ha.
  cbn [Sql.split_go String.prefix].
  destruct (ascii_dec ":" a) as [<-|_]; [done|]. by rewrite IH.
Qed.

Lemma split_go_reference tbl c :
  has_char ":" tbl = false → has_char ":" c = false →
  Sql.split_go ":" (tbl +:+ String ":" c) 0 = [tbl; c].
Proof.
  intros Htbl Hc. induction tbl as [|a tbl IH].
  - cbn [String.append Sql.split_go String.prefix String.length Nat.sub].
    destruct (ascii_dec ":" ":") as [_|]; [|done].
    destruct c; [done|]. by rewrite split_go_plain.
  - cbn [has_char] in Htbl. apply orb_false_iff in Htbl as [Ha Htbl].
    apply Ascii.eqb_neq in Ha. cbn [String.append Sql.split_go String.prefix].
    destruct (ascii_dec ":" a) as [<-|_]; [done|]. by rewrite IH.
Qed.

Lemma split_reference tbl c :
  has_char ":" tbl = false → has_char ":" c = false →
  Sql.split regexp_split (tbl +:+ ":" +:+ c) ":" = [tbl; c].
Proof. intros Htbl Hc. by apply split_go_reference. Qed.

Lemma traverse_elem {A B} (f : A → result B) l bs a :
  traverse f l = Ok bs → a ∈ l → ∃ b, b ∈ bs ∧ f a = Ok b.
Proof.
  revert bs. induction l as [|x l IH]; intros bs H Ha; [by apply elem_of_nil in Ha|].
  simpl in H. destruct (f x) as [b|] eqn:Hb; simpl in H; [|done].
  destruct (traverse f l) as [bs'|]; simpl in H; [|done]. injection H as <-.
  apply elem_of_cons in Ha as [->|Ha].
  - exists b. split; [left | done].
  - destruct (IH bs' eq_refl Ha) as (b' & Hb' & Hf). exists b'. split; [by right | done].
Qed.

Lemma new_parsed_row raw source rec :
  new_parsed Parser raw = Ok source → rec ∈ raw →
  ∃ p, p ∈ source
    ∧ Parsed.query_id p = Raw.query_id rec
    ∧ Parsed.query_text p = Raw.query_text rec
    ∧ getParsedFilteredColumnsinSQL Parser (Raw.query_text rec)
      = Ok (Parsed.profiled_columns p).
Proof.
  unfold new_parsed, Sql.DISTINCT. intros H Hrec.
  destruct (traverse_elem _ _ _ (Raw.query_id rec, Raw.query_text rec) H) as (p & Hp & Hf).
  { apply elem_of_remove_dups, list_elem_of_In, in_map_iff.
    exists rec. split; [done | by apply list_elem_of_In]. }
  cbn [fst snd] in Hf.
  destruct (getParsedFilteredColumnsinSQL Parser (Raw.query_text rec)) as [cols|];
    simpl in Hf; [|done].
  injection Hf as <-. by exists
    {| Parsed.query_id := Raw.query_id rec;
       Parsed.query_text := Raw.query_text rec;
       Parsed.profiled_columns := cols |}.
Qed.

Lemma elem_of_LEFT_JOIN_some {A} (key : A → string) root hist (a : A) :
  a ∈ root → ∃ h, (a, h) ∈ LEFT_JOIN key root hist.
Proof.
  intros Ha. unfold LEFT_JOIN.
  destruct (List.filter (λ h, bool_decide (Stats.query_id h = key a)) hist)
    as [|h hs] eqn:Hf.
  - exists None. apply list_elem_of_In, in_flat_map. exists a.
    split; [by apply list_elem_of_In|]. rewrite Hf. by left.
  - exists (Some h). apply list_elem_of_In, in_flat_map. exists a.
    split; [by apply list_elem_of_In|]. rewrite Hf. by left.
Qed.

Lemma checkIfColumn_listed section sqlString r d cols columnName :
  Parser sqlString = Ok r → columns_dict r = Ok d → d !! section = Some cols →
  columnName ∈ cols →
  checkIfColumn Parser section sqlString columnName = 1%Z.
Proof.
  intros HP Hd Hcols Hin. unfold checkIfColumn. rewrite HP. simpl.
  rewrite Hd. simpl. rewrite Hcols. by rewrite bool_decide_eq_true_2.
Qed.

Lemma usage_flag_udf section u sqlString columnName :
  section ∈ ["where"; "join"; "group_by"] →
  Usage.isUsedInJoin u = udf (checkIfJoinColumn Parser) sqlString columnName →
  Usage.isUsedInFilter u = udf (checkIfFilterColumn Parser) sqlString columnName →
  Usage.isUsedInGroup u = udf (checkIfGroupColumn Parser) sqlString columnName →
  usage_flag section u = udf (checkIfColumn Parser section) sqlString columnName.
Proof.
  intros Hsec Hj Hf Hg. unfold usage_flag.
  repeat (apply elem_of_cons in Hsec as [->|Hsec]); [done..|].
  by apply elem_of_nil in Hsec.
Qed.

Lemma qualified_column_usage raw source hist rec r d tbls section cols tbl c :
  new_parsed Parser raw = Ok source → rec ∈ raw →
  Parser (Raw.query_text rec) = Ok r →
  columns_dict r = Ok d → tables r = Ok tbls → tbl ∈ tbls →
  section ∈ ["where"; "join"; "group_by"] → d !! section = Some cols →
  tbl +:+ "." +:+ c ∈ cols →
  has_char ":" tbl = false → has_char ":" c = false → has_char "." c = false →
  1 < String.length c →
  ∃ u, u ∈ pre_stats_df Parser regexp_split source hist
    ∧ Usage.TableName u = Some tbl
    ∧ Usage.ColumnName u = Some c
    ∧ Usage.query_text u = Raw.query_text rec
    ∧ usage_flag section u = 1%Z.
Proof.
  intros Hsource Hrec HP Hd Htbls Htbl Hsec Hcols Hin Hct Hcc Hdc Hlen.
  destruct (new_parsed_row raw source rec Hsource Hrec)
    as (p & Hp & Hid & Htext & Hprof).
  rewrite (extractor_parsed Parser _ r d tbls HP Hd Htbls) in Hprof.
  injection Hprof as Hprof.
  assert (tbl +:+ ":" +:+ c ∈ Parsed.profiled_columns p) as Href.
  { rewrite <- Hprof. apply list_elem_of_In, in_flat_map. exists tbl.
    split; [by apply list_elem_of_In|]. apply in_flat_map.
    exists (tbl +:+ "." +:+ c). split.
    - apply list_elem_of_In, elem_of_tokens. by exists section, cols.
    - apply list_elem_of_In.
      apply (elem_of_attribute tbl (tbl +:+ "." +:+ c) tbl c).
      + split; [done | by left].
      + split_and!; [|done..]. left. by exists "", ("." +:+ c). }
  pose proof (elem_of_exploded_parsed_cols source p _ Hp Href) as Hex.
  destruct (elem_of_LEFT_JOIN_some (λ r : string * string * string, r.1.2)
              _ hist _ Hex) as [h Hjoin].
  eexists. split.
  - unfold pre_stats_df. apply list_elem_of_In, in_map_iff. eexists.
    split; [reflexivity|]. apply list_elem_of_In.
    unfold step_2, Sql.DISTINCT. apply elem_of_remove_dups.
    apply list_elem_of_In, in_map_iff. eexists.
    split; [reflexivity | apply list_elem_of_In; exact Hjoin].
  - cbn [Usage.TableName Usage.ColumnName Usage.query_text fst snd].
    rewrite (split_reference tbl c Hct Hcc). split_and!; [done..|].
    erewrite usage_flag_udf; [|done|reflexivity..].
    cbn [udf Sql.concat3 lookup]. cbn.
    apply (checkIfColumn_listed section _ r d cols); [by rewrite Htext|done..].
Qed.


Lemma MAXZ_ge (l : list Z) x :
  x ∈ l → ∃ m, Sql.MAXZ (Some <$> l) = Some m ∧ (x ≤ m)%Z.
Proof.
  intros Hx. unfold Sql.MAXZ. rewrite non_null_Some.
  destruct l as [|v vs]; [by apply elem_of_nil in Hx|].
  eexists. split; [reflexivity|]. by apply MAXZ_latest.
Qed.

Lemma summary_flag_set (f : Usage.t → Z) (g : list Usage.t) u flag count :
  u ∈ g → f u = 1%Z →
  flag = Sql.MAXZ (Some ∘ f <$> g) →
  flag_and_count flag count →
  flag = Some 1%Z.
Proof.
  intros Hu Hf -> (m & n & Hm & _ & Hmn).
  rewrite (list_fmap_compose f Some) in Hm.
  destruct (MAXZ_ge (f <$> g) (f u)) as (m' & Hm' & Hle).
  { apply list_elem_of_fmap. eauto. }
  rewrite (list_fmap_compose f Some), Hm. f_equal.
  rewrite Hm in Hm'. injection Hm' as <-. lia.
Qed.

(** X23: a column that the parser lists in a section qualified with a
    table of the statement, [tbl.c], is flagged for that section: the
    extractor attributes it to [tbl], the usage table has a row for [tbl] and
    [c] with the text of the statement whose flag of the section is 1, and
    the column summary has the row of [tbl] and [c] with that flag at 1.
    (Neither name contains [":"], and [c] is longer than one character and
    has no ["."].) *)
Theorem qualified_column_is_flagged raw source hist rec r d tbls section cols tbl c :
  new_parsed Parser raw = Ok source → rec ∈ raw →
  Parser (Raw.query_text rec) = Ok r →
  columns_dict r = Ok d → tables r = Ok tbls → tbl ∈ tbls →
  section ∈ ["where"; "join"; "group_by"] → d !! section = Some cols →
  tbl +:+ "." +:+ c ∈ cols →
  has_char ":" tbl = false → has_char ":" c = false → has_char "." c = false →
  1 < String.length c →
  (∃ u, u ∈ pre_stats_df Parser regexp_split source hist
     ∧ Usage.TableName u = Some tbl
     ∧ Usage.ColumnName u = Some c
     ∧ Usage.query_text u = Raw.query_text rec
     ∧ usage_flag section u = 1%Z)
  ∧ ∃ row, row ∈ column_level_summary (pre_stats_df Parser regexp_split source hist)
      ∧ Summary.TableName row = Some tbl
      ∧ Summary.ColumnName row = Some c
      ∧ summary_flag section row = Some 1%Z.
Proof.
  intros Hsource Hrec HP Hd Htbls Htbl Hsec Hcols Hin Hct Hcc Hdc Hlen.
  destruct (qualified_column_usage raw source hist rec r d tbls section cols tbl c)
    as (u & Hu & Hut & Huc & Hutext & Hflag); try done.
  split; [by exists u|].
  assert (has_column u = true) as Hhas.
  { unfold has_column. rewrite Huc. apply Nat.leb_le. lia. }
  destruct (summary_has_group _ u Hu Hhas) as (row & Hrow & Hrt & Hrc).
  exists row. split_and!; [done | congruence | congruence |].
  pose proof (summary_flags Parser regexp_split source hist row Hrow) as (Fj & Ff & Fg).
  apply elem_of_column_level_summary in Hrow
    as (g & Hg & _ & Hj & Hf & Hgr & _).
  assert (u ∈ g) as Hug.
  { rewrite Hg. apply list_elem_of_In.
    repeat (apply filter_In; split); try done; [by apply list_elem_of_In|].
    apply bool_decide_eq_true. by rewrite Hrt, Hrc. }
  unfold usage_flag in Hflag. unfold summary_flag.
  repeat case_bool_decide.
  - by apply (summary_flag_set Usage.isUsedInJoin g u _ _ Hug Hflag Hj Fj).
  - by apply (summary_flag_set Usage.isUsedInFilter g u _ _ Hug Hflag Hf Ff).
  - by apply (summary_flag_set Usage.isUsedInGroup g u _ _ Hug Hflag Hgr Fg).
Qed.

End Flags.

Lemma qualified_column_is_flagged_witness :
  (∃ u, u ∈ pre_stats_df Demo.Parser Demo.regexp_split [Demo2.join_query] []
     ∧ Usage.TableName u = Some "orders"
     ∧ Usage.ColumnName u = Some "id"
     ∧ Usage.query_text u = Raw.query_text (Demo.record "q3" Demo.join_sql 30)
     ∧ usage_flag "join" u = 1%Z)
  ∧ ∃ row, row ∈ column_level_summary (pre_stats_df Demo.Parser Demo.regexp_split
      [Demo2.join_query] [])
      ∧ Summary.TableName row = Some "orders"
      ∧ Summary.ColumnName row = Some "id"
      ∧ summary_flag "join" row = Some 1%Z.
Proof.
  apply (qualified_column_is_flagged Demo.Parser Demo.regexp_split
           [Demo.record "q3" Demo.join_sql 30] [Demo2.join_query] []
           (Demo.record "q3" Demo.join_sql 30) Demo2.join_results
           {[ "join" := ["orders.id"; "orders_archive.order_id"] ]}
           ["orders"; "orders_archive"] "join"
           ["orders.id"; "orders_archive.order_id"] "orders" "id");
    try reflexivity.
  - apply list_elem_of_here.
  - apply list_elem_of_here.
  - apply list_elem_of_further, list_elem_of_here.
  - apply list_elem_of_here.
  - simpl. lia.
Defined.
